(** * PPS Article System (assets/js/app.js): a shallow embedding

    The script runs in a browser.  The functions of the script are embedded
    as Rocq functions; what the browser supplies (the HTML parser, the
    named properties of form elements, JSON, Date, fetch, localStorage,
    String.prototype.toLowerCase) is either written out after the
    standard that defines it or taken as a variable of a section, so
    every theorem holds for whatever the browser does there.  A call
    that can throw returns the thrown value or its result.

    JavaScript strings are represented by their UTF-8 encoding, as values
    of [string]; where the script looks at characters (the class \s of a
    regular expression) the bytes are decoded to code points first. *)

From Stdlib Require Import ZArith NArith Ascii String List Bool Lia.
From stdpp Require Import base option list gmap strings pretty.

Local Open Scope Z_scope.

Set Warnings "-register-all".

(* ================================================================== *)
(** ** Strings *)
(* ================================================================== *)

(** The double quote, and the line feed of a template literal. *)
Definition dq : string := String (ascii_of_nat 34) "".
Definition nl : string := String (ascii_of_nat 10) "".

(** [q s] is [s] between double quotes: an attribute value of a template. *)
Definition q (s : string) : string := dq +:+ s +:+ dq.

(** [String.prototype.startsWith]. *)
Fixpoint startsWith (s p : string) {struct p} : bool :=
  match p, s with
  | EmptyString, _ => true
  | String c p', String d s' => Ascii.eqb c d && startsWith s' p'
  | String _ _, EmptyString => false
  end.

(** [String.prototype.includes]. *)
Fixpoint includes (s p : string) : bool :=
  startsWith s p ||
  match s with
  | EmptyString => false
  | String _ s' => includes s' p
  end.

(** [p] occurs in [s] as a substring. *)
Definition occurs (p s : string) : Prop :=
  exists a b, s = a +:+ p +:+ b.

(** JavaScript truthiness of a string. *)
Definition nonEmpty (s : string) : bool :=
  match s with EmptyString => false | String _ _ => true end.

(** A value that is a string or absent ([undefined] or [null]). *)
Abbreviation ostring := (option string).

(** [x || d] for a string-or-absent [x] and a string [d]. *)
Definition orElse (x : ostring) (d : string) : string :=
  match x with
  | Some s => if nonEmpty s then s else d
  | None => d
  end.

(** [x ?? ''] . *)
Definition nullish (x : ostring) : string :=
  match x with Some s => s | None => "" end.

(** Truthiness of a string-or-absent value. *)
Definition truthyStr (x : ostring) : bool :=
  match x with Some s => nonEmpty s | None => false end.

(** String conversion of a string-or-absent value inside a template
    literal or a [+] with a string: an absent field prints as
    [undefined]. *)
Definition toStr (x : ostring) : string :=
  match x with Some s => s | None => "undefined" end.

(* ------------------------------------------------------------------ *)
(** *** Escaping a string (HTML standard, serialising HTML fragments) *)

Definition xC2 : ascii := ascii_of_nat 194.
Definition xA0 : ascii := ascii_of_nat 160.

(** The text of a text node as the [innerHTML] getter writes it: [&],
    [<], [>] and U+00A0 (bytes C2 A0) are replaced by character
    references. *)
Fixpoint escapeText (s : string) : string :=
  match s with
  | EmptyString => EmptyString
  | String c r =>
      if Ascii.eqb c "&" then "&amp;" +:+ escapeText r
      else if Ascii.eqb c "<" then "&lt;" +:+ escapeText r
      else if Ascii.eqb c ">" then "&gt;" +:+ escapeText r
      else match r with
           | String d r' =>
               if Ascii.eqb c xC2 && Ascii.eqb d xA0
               then "&nbsp;" +:+ escapeText r'
               else String c (escapeText r)
           | EmptyString => String c EmptyString
           end
  end.

(** An attribute value as the [innerHTML] getter writes it: as a text,
    and the double quote as well. *)
Fixpoint escapeAttr (s : string) : string :=
  match s with
  | EmptyString => EmptyString
  | String c r =>
      if Ascii.eqb c "&" then "&amp;" +:+ escapeAttr r
      else if Ascii.eqb c "<" then "&lt;" +:+ escapeAttr r
      else if Ascii.eqb c ">" then "&gt;" +:+ escapeAttr r
      else if Ascii.eqb c (ascii_of_nat 34) then "&quot;" +:+ escapeAttr r
      else match r with
           | String d r' =>
               if Ascii.eqb c xC2 && Ascii.eqb d xA0
               then "&nbsp;" +:+ escapeAttr r'
               else String c (escapeAttr r)
           | EmptyString => String c EmptyString
           end
  end.

(* ------------------------------------------------------------------ *)
(** *** Thrown values *)

(** A thrown value: an [Error] object with its [name] and [message]. *)
Record JsError : Type := mkError { name : string; message : string }.

(** [new Error(msg)]. *)
Definition Error (msg : string) : JsError := mkError "Error" msg.

(* ================================================================== *)
(** ** The DOM under a detached element *)
(* ================================================================== *)

(** The nodes an element holds after [innerHTML] was assigned.  A
    [template] element is a case of its own: the parser puts what stands
    between its tags into the template contents, a document fragment of
    its own ([HTMLTemplateElement.content]); a template element has no
    child nodes, so [querySelectorAll] on an ancestor does not reach the
    contents, while the [innerHTML] getter writes them out. *)
Inductive node : Type :=
| Text (data : string)
| Comment (data : string)
| Element (tag : string) (attrs : list (string * string)) (children : list node)
| Template (attrs : list (string * string)) (contents : list node).

Definition voidElements : list string :=
  ["area"; "base"; "basefont"; "bgsound"; "br"; "col"; "embed"; "frame";
   "hr"; "img"; "input"; "keygen"; "link"; "meta"; "param"; "source";
   "track"; "wbr"].

(** Elements whose text children are written without escaping (scripting
    is enabled in a page that runs this script, so [noscript] is one). *)
Definition rawTextElements : list string :=
  ["style"; "script"; "xmp"; "iframe"; "noembed"; "noframes"; "plaintext";
   "noscript"].

Definition memStr (s : string) (l : list string) : bool :=
  existsb (String.eqb s) l.

Definition concatStr (l : list string) : string :=
  fold_right String.append "" l.

Definition serializeAttr (a : string * string) : string :=
  " " +:+ fst a +:+ "=" +:+ q (escapeAttr (snd a)).

(** The [innerHTML] getter: the HTML fragment serialisation of a list of
    child nodes; [raw] says that the parent is a raw text element. *)
Fixpoint serializeNode (raw : bool) (n : node) : string :=
  match n with
  | Text d => if raw then d else escapeText d
  | Comment d => "<!--" +:+ d +:+ "-->"
  | Element tag attrs children =>
      "<" +:+ tag +:+ concatStr (map serializeAttr attrs) +:+ ">" +:+
      (if memStr tag voidElements then ""
       else concatStr (map (serializeNode (memStr tag rawTextElements)) children)
            +:+ "</" +:+ tag +:+ ">")
  | Template attrs contents =>
      "<template" +:+ concatStr (map serializeAttr attrs) +:+ ">" +:+
      concatStr (map (serializeNode false) contents) +:+ "</template>"
  end.

Definition innerHTML (children : list node) : string :=
  concatStr (map (serializeNode false) children).

(** [escapeHTML]: the string (or ['']  for an absent one) becomes the text
    content of a new [div], whose [innerHTML] is returned.  Assigning the
    empty string to [textContent] leaves the [div] without children. *)
Definition escapeHTML (str : ostring) : string :=
  let text := nullish str in
  innerHTML (if nonEmpty text then [Text text] else []).

(* ------------------------------------------------------------------ *)
(** *** sanitizeHTML *)

(** [temp.querySelectorAll('script')] followed by [script.remove()] on
    each match: every element named [script] among the descendants in the
    child-node tree leaves its parent (the parser gives element and
    attribute names in lower case).  A node is mapped to the list of
    nodes that stand in its place. *)
Fixpoint removeScripts (n : node) : list node :=
  match n with
  | Element tag attrs children =>
      if String.eqb tag "script" then []
      else [Element tag attrs (flat_map removeScripts children)]
  | other => [other]
  end.

(** [attr.name.startsWith('on')] negated. *)
Definition keepsAttr (a : string * string) : bool :=
  negb (startsWith (fst a) "on").

(** What the second pass reads on an element: [el.attributes] and
    [el.removeAttribute].  On an element other than [form] these are
    the attribute list and the method of [Element].  The interface of a
    [form] element is declared [LegacyOverrideBuiltIns]: a control of
    the form whose [name] or [id] is [attributes] or [removeAttribute]
    is what the property evaluates to.  [shadowedAttributes] is then
    what [Array.from(el.attributes)] holds, each item given by its
    [name] or, for an item without one, by the error that
    [attr.name.startsWith] throws; [shadowedRemoveAttribute] is the
    error that calling [el.removeAttribute] throws.  Both are [None]
    where the property is not shadowed. *)
Record FormView : Type := mkFormView {
  shadowedAttributes : option (list (JsError + string));
  shadowedRemoveAttribute : option JsError
}.

Definition plainView : FormView := mkFormView None None.

(** [el.removeAttribute(name)] on the attribute list (an element has no
    two attributes of one name). *)
Definition removeAttribute (name : string) (attrs : list (string * string)) :
    list (string * string) :=
  List.filter (fun a => negb (String.eqb (fst a) name)) attrs.

(** [items.forEach(attr => { if (attr.name.startsWith('on'))
    el.removeAttribute(attr.name); })] on the attributes of [el]. *)
Fixpoint forEachAttr (view : FormView) (items : list (JsError + string))
    (attrs : list (string * string)) : JsError + list (string * string) :=
  match items with
  | [] => inr attrs
  | inl error :: _ => inl error
  | inr name :: rest =>
      if startsWith name "on" then
        match shadowedRemoveAttribute view with
        | Some error => inl error
        | None => forEachAttr view rest (removeAttribute name attrs)
        end
      else forEachAttr view rest attrs
  end.

(** The callback of [allElements.forEach] on one element: the items are
    those of [Array.from(el.attributes)], taken before the loop. *)
Definition removeHandlersOf (view : FormView) (attrs : list (string * string)) :
    JsError + list (string * string) :=
  forEachAttr view
    (match shadowedAttributes view with
     | Some items => items
     | None => map (fun a => inr (fst a)) attrs
     end)
    attrs.

Section Traverse.

Context {A B : Type}.
Variable f : nat -> A -> JsError + B.

(** [f] on the elements of a list in order, each with its index; the
    first error ends it. *)
Fixpoint traverse (i : nat) (l : list A) : JsError + list B :=
  match l with
  | [] => inr []
  | x :: rest =>
      match f i x with
      | inl error => inl error
      | inr y =>
          match traverse (S i) rest with
          | inl error => inl error
          | inr ys => inr (y :: ys)
          end
      end
  end.

End Traverse.

(** [temp.querySelectorAll('*')] and the callback on each element, in
    tree order: an element before its children.  [view] gives what the
    browser makes of the [form] element at a path (the indices of the
    child nodes from [temp] down); the contents of a template are not
    reached. *)
Fixpoint removeHandlers (view : list nat -> FormView) (path : list nat) (n : node) :
    JsError + node :=
  match n with
  | Element tag attrs children =>
      match removeHandlersOf (if String.eqb tag "form" then view path else plainView)
              attrs with
      | inl error => inl error
      | inr attrs' =>
          match traverse (fun i child => removeHandlers view (path ++ [i]) child)
                  0 children with
          | inl error => inl error
          | inr children' => inr (Element tag attrs' children')
          end
      end
  | Template attrs contents =>
      match removeHandlersOf plainView attrs with
      | inl error => inl error
      | inr attrs' => inr (Template attrs' contents)
      end
  | other => inr other
  end.

(** The two passes of [sanitizeHTML] over the children of [temp]. *)
Definition sanitizeDOM (view : list nat -> FormView) (children : list node) :
    JsError + list node :=
  traverse (fun i child => removeHandlers view [i] child) 0
    (flat_map removeScripts children).

Section Sanitizer.

(** The browser's HTML fragment parser: the child nodes [temp] has after
    [temp.innerHTML = html]; and its view of the [form] elements of
    that tree once the scripts are removed. *)
Variable parseHTML : string -> list node.
Variable formView : string -> list nat -> FormView.

(** [sanitizeHTML]: the markup it returns, or the error it throws. *)
Definition sanitizeHTML (html : string) : JsError + string :=
  match sanitizeDOM (formView html) (parseHTML html) with
  | inr children => inr (innerHTML children)
  | inl error => inl error
  end.

End Sanitizer.

(* ================================================================== *)
(** ** Configuration, article records *)
(* ================================================================== *)

Module CONFIG.
Definition dataPath : string := "data/articles.txt".
Definition cacheKey : string := "pps_articles_cache".
Definition cacheDuration : Z := 5 * 60 * 1000.
Definition searchDebounce : Z := 300.
Definition wordsPerMinute : nat := 200.
Definition animationDuration : Z := 300.
Definition topics : list string := ["all"; "Konten"; "Berita"; "Edukasi"].
End CONFIG.

(** An article record of the data file, in the format the
    specification gives it: a field holds a string or is missing
    ([undefined] when read). *)
Record Article : Type := mkArticle {
  id : ostring;
  title : ostring;
  topic : ostring;
  excerpt : ostring;
  author : ostring;
  date : ostring;
  cover : ostring;
  content : ostring
}.

(* ------------------------------------------------------------------ *)
(** *** encodeURIComponent *)

Definition inRange (lo hi c : ascii) : bool :=
  (nat_of_ascii lo <=? nat_of_ascii c)%nat && (nat_of_ascii c <=? nat_of_ascii hi)%nat.

(** The characters [encodeURIComponent] leaves as they are. *)
Definition uriUnreserved (c : ascii) : bool :=
  inRange "A" "Z" c || inRange "a" "z" c || inRange "0" "9" c ||
  existsb (Ascii.eqb c) ["-"; "_"; "."; "!"; "~"; "*"; "'"; "("; ")"]%char.

Definition hexDigit (n : nat) : ascii :=
  nth n ["0"; "1"; "2"; "3"; "4"; "5"; "6"; "7"; "8"; "9";
         "A"; "B"; "C"; "D"; "E"; "F"]%char "0"%char.

Definition percentEncode (c : ascii) : string :=
  String "%" (String (hexDigit (nat_of_ascii c / 16))
    (String (hexDigit (nat_of_ascii c mod 16)) EmptyString)).

(** Every byte of the UTF-8 encoding that is not unreserved is written
    as a percent escape. *)
Fixpoint encodeURIComponent (s : string) : string :=
  match s with
  | EmptyString => EmptyString
  | String c r =>
      (if uriUnreserved c then String c EmptyString else percentEncode c)
      +:+ encodeURIComponent r
  end.

(* ------------------------------------------------------------------ *)
(** *** calculateReadingTime *)

(** The code points of a UTF-8 encoded string (U+FFFD for a byte that
    starts no well-formed sequence). *)
Fixpoint codePoints (s : string) : list N :=
  match s with
  | EmptyString => []
  | String c0 r0 =>
      let b0 := N_of_ascii c0 in
      if (b0 <? 128)%N then b0 :: codePoints r0
      else if (b0 <? 192)%N then 65533%N :: codePoints r0
      else
        match r0 with
        | EmptyString => [65533%N]
        | String c1 r1 =>
            let b1 := (N_of_ascii c1 - 128)%N in
            if (b0 <? 224)%N then ((b0 - 192) * 64 + b1)%N :: codePoints r1
            else
              match r1 with
              | EmptyString => [65533%N]
              | String c2 r2 =>
                  let b2 := (N_of_ascii c2 - 128)%N in
                  if (b0 <? 240)%N
                  then ((b0 - 224) * 4096 + b1 * 64 + b2)%N :: codePoints r2
                  else
                    match r2 with
                    | EmptyString => [65533%N]
                    | String c3 r3 =>
                        let b3 := (N_of_ascii c3 - 128)%N in
                        ((b0 - 240) * 262144 + b1 * 4096 + b2 * 64 + b3)%N
                          :: codePoints r3
                    end
              end
        end
  end.

Definition LT : N := 60.
Definition GT : N := 62.
Definition SPACE : N := 32.

(** The class [\s] of a regular expression, which is also what [trim]
    removes: white space and line terminators. *)
Definition isSpace (c : N) : bool :=
  existsb (N.eqb c)
    [9; 10; 11; 12; 13; 32; 160; 5760; 8232; 8233; 8239; 8287; 12288; 65279]%N
  || ((8192 <=? c)%N && (c <=? 8202)%N).

Definition hasGT (l : list N) : bool := existsb (N.eqb GT) l.

(** [.replace(/<[^>]*>/g, ' ')].  A [<] starts a match when a [>] follows
    somewhere; the match then runs to the first [>].  [inTag] says that
    the scan is inside such a match. *)
Fixpoint stripTags (inTag : bool) (l : list N) : list N :=
  match l with
  | [] => []
  | c :: r =>
      if inTag then
        if N.eqb c GT then SPACE :: stripTags false r else stripTags true r
      else if N.eqb c LT && hasGT r then stripTags true r
      else c :: stripTags false r
  end.

(** [.replace(/\s+/g, ' ')]: every maximal run of white space becomes one
    space.  [inRun] says that the previous character was white space. *)
Fixpoint collapseSpaces (inRun : bool) (l : list N) : list N :=
  match l with
  | [] => []
  | c :: r =>
      if isSpace c then
        if inRun then collapseSpaces true r else SPACE :: collapseSpaces true r
      else c :: collapseSpaces false r
  end.

Fixpoint trimStart (l : list N) : list N :=
  match l with
  | [] => []
  | c :: r => if isSpace c then trimStart r else l
  end.

Fixpoint trimEnd (l : list N) : list N :=
  match l with
  | [] => []
  | c :: r =>
      match trimEnd r with
      | [] => if isSpace c then [] else [c]
      | r' => c :: r'
      end
  end.

(** [String.prototype.trim]. *)
Definition trimCP (l : list N) : list N := trimStart (trimEnd l).

(** [text.split(' ')]: the pieces between the spaces. *)
Fixpoint splitSpace (l : list N) : list (list N) :=
  match l with
  | [] => [[]]
  | c :: r =>
      if N.eqb c SPACE then [] :: splitSpace r
      else match splitSpace r with
           | [] => [[c]]
           | w :: ws => (c :: w) :: ws
           end
  end.

(** [Math.ceil(a / b)] for natural numbers, [b] positive. *)
Definition ceilDiv (a b : nat) : nat :=
  (a / b + (if (a mod b =? 0)%nat then 0 else 1))%nat.

(** The local [words] of [calculateReadingTime]. *)
Definition countWords (html : string) : nat :=
  let text := trimCP (collapseSpaces false (stripTags false (codePoints html))) in
  match text with
  | [] => 0%nat
  | _ => length (splitSpace text)
  end.

Definition calculateReadingTime (html : ostring) : nat :=
  let words := countWords (orElse html "") in
  Nat.max 1 (ceilDiv words CONFIG.wordsPerMinute).

(* ================================================================== *)
(** ** HTML generation *)
(* ================================================================== *)

(** [showLoading]: the markup assigned to the element's [innerHTML]. *)
Definition showLoading : string :=
  concatStr [
    nl;
    "    <div class=" +:+ q "card col-12" +:+ " style=" +:+ q "padding: 40px; text-align: center;" +:+ ">" +:+ nl;
    "      <div class=" +:+ q "loading" +:+ " style=" +:+ q "margin: 0 auto 16px;" +:+ "></div>" +:+ nl;
    "      <p class=" +:+ q "card-excerpt" +:+ ">Memuat artikel...</p>" +:+ nl;
    "    </div>" +:+ nl;
    "  "
  ].

(** [showError]: the markup assigned to the element's [innerHTML]. *)
Definition showError (message : string) : string :=
  concatStr [
    nl;
    "    <div class=" +:+ q "card col-12" +:+ " style=" +:+ q "padding: 24px; background: #fee; outline-color: #fcc;" +:+ ">" +:+ nl;
    "      <div class=" +:+ q "card-title" +:+ " style=" +:+ q "color: #c33;" +:+ ">⚠️ Error</div>" +:+ nl;
    "      <p class=" +:+ q "card-excerpt" +:+ " style=" +:+ q "color: #a22;" +:+ ">" +:+ escapeHTML (Some message) +:+ "</p>" +:+ nl;
    "      <button onclick=" +:+ q "location.reload()" +:+ " class=" +:+ q "chip" +:+ " style=" +:+ q "margin-top: 12px;" +:+ ">" +:+ nl;
    "        Muat Ulang" +:+ nl;
    "      </button>" +:+ nl;
    "    </div>" +:+ nl;
    "  "
  ].

Section Rendering.

(** [new Date(s).toLocaleDateString('id-ID', {day: '2-digit', month:
    'short', year: 'numeric'})]: the formatted date, or the error the call
    throws. *)
Variable toLocaleDateString : string -> JsError + string.

(** The browser's HTML fragment parser and its view of [form]
    elements, for [sanitizeHTML]. *)
Variable parseHTML : string -> list node.
Variable formView : string -> list nat -> FormView.

Definition formatDate (isoDate : ostring) : ostring :=
  match toLocaleDateString (toStr isoDate +:+ "T00:00:00") with
  | inr formatted => Some formatted
  | inl error => isoDate
  end.

(** The local [coverHTML] of [generateCardHTML]. *)
Definition cardCoverHTML (article : Article) : string :=
  if truthyStr (cover article) then
    concatStr [
      "<img src=" +:+ dq +:+ escapeHTML (cover article) +:+ dq +:+ " alt=" +:+ dq +:+ escapeHTML (title article) +:+ dq +:+ " loading=" +:+ q "lazy" +:+ " />"
    ]
  else "".

Definition generateCardHTML (article : Article) : string :=
  let coverHTML := cardCoverHTML article in
  concatStr [
    nl;
    "    <a class=" +:+ q "card col-4" +:+ nl;
    "       href=" +:+ dq +:+ "article-detail.html?id=" +:+ encodeURIComponent (toStr (id article)) +:+ dq +:+ nl;
    "       data-topic=" +:+ dq +:+ escapeHTML (topic article) +:+ dq +:+ nl;
    "       data-title=" +:+ dq +:+ escapeHTML (title article) +:+ dq +:+ nl;
    "       aria-label=" +:+ dq +:+ "Baca artikel " +:+ escapeHTML (title article) +:+ dq +:+ ">" +:+ nl;
    "      <div class=" +:+ q "card-media" +:+ ">" +:+ coverHTML +:+ "</div>" +:+ nl;
    "      <div class=" +:+ q "card-body" +:+ ">" +:+ nl;
    "        <div class=" +:+ q "card-topic" +:+ ">" +:+ nl;
    "          <span class=" +:+ q "dot" +:+ " aria-hidden=" +:+ q "true" +:+ "></span>" +:+ nl;
    "          " +:+ escapeHTML (topic article) +:+ nl;
    "        </div>" +:+ nl;
    "        <h3 class=" +:+ q "card-title" +:+ ">" +:+ escapeHTML (title article) +:+ "</h3>" +:+ nl;
    "        <p class=" +:+ q "card-excerpt" +:+ ">" +:+ escapeHTML (Some (orElse (excerpt article) "")) +:+ "</p>" +:+ nl;
    "        <div class=" +:+ q "card-meta" +:+ ">" +:+ nl;
    "          <span>📅 " +:+ escapeHTML (formatDate (date article)) +:+ "</span>" +:+ nl;
    "          <span aria-hidden=" +:+ q "true" +:+ ">•</span>" +:+ nl;
    "          <span>✏️ " +:+ escapeHTML (Some (orElse (author article) "Anonim")) +:+ "</span>" +:+ nl;
    "        </div>" +:+ nl;
    "      </div>" +:+ nl;
    "    </a>" +:+ nl;
    "  "
  ].

(** The local [coverHTML] of [generateDetailHTML]. *)
Definition detailCoverHTML (article : Article) : string :=
  if truthyStr (cover article) then
    concatStr [
      nl;
      "    <div class=" +:+ q "article-cover" +:+ ">" +:+ nl;
      "      <img src=" +:+ dq +:+ escapeHTML (cover article) +:+ dq +:+ " alt=" +:+ dq +:+ "Cover " +:+ escapeHTML (title article) +:+ dq +:+ " />" +:+ nl;
      "    </div>" +:+ nl;
      "  "
    ]
  else "".

(** The template literal of [generateDetailHTML], with the three local
    constants it interpolates. *)
Definition detailTemplate (article : Article) (coverHTML : string)
    (readingTime : nat) (sanitizedContent : string) : string :=
  concatStr [
    nl;
    "    <section class=" +:+ q "hero" +:+ " role=" +:+ q "banner" +:+ " aria-label=" +:+ q "Header artikel" +:+ ">" +:+ nl;
    "      <div class=" +:+ q "hero-inner" +:+ ">" +:+ nl;
    "        <div class=" +:+ q "hero-kicker" +:+ ">" +:+ nl;
    "          ARTIKEL • <span style=" +:+ q "opacity:.9" +:+ ">TOPIK: " +:+ escapeHTML (topic article) +:+ "</span>" +:+ nl;
    "        </div>" +:+ nl;
    "        <h1 class=" +:+ q "hero-title" +:+ ">" +:+ escapeHTML (title article) +:+ "</h1>" +:+ nl;
    "        <p class=" +:+ q "hero-sub" +:+ ">" +:+ escapeHTML (Some (orElse (excerpt article) "")) +:+ "</p>" +:+ nl;
    "      </div>" +:+ nl;
    "    </section>" +:+ nl;
    nl;
    "    <div class=" +:+ q "article-shell" +:+ ">" +:+ nl;
    "      <article class=" +:+ q "article" +:+ " role=" +:+ q "main" +:+ ">" +:+ nl;
    "        " +:+ coverHTML +:+ nl;
    nl;
    "        <header class=" +:+ q "article-head" +:+ ">" +:+ nl;
    "          <div class=" +:+ q "meta-bar" +:+ ">" +:+ nl;
    "            <span class=" +:+ q "badge" +:+ ">" +:+ nl;
    "              <span class=" +:+ q "dot" +:+ " aria-hidden=" +:+ q "true" +:+ "></span>" +:+ nl;
    "              " +:+ escapeHTML (topic article) +:+ nl;
    "            </span>" +:+ nl;
    "            <span>📅 " +:+ escapeHTML (formatDate (date article)) +:+ "</span>" +:+ nl;
    "            <span>✏️ " +:+ escapeHTML (Some (orElse (author article) "Anonim")) +:+ "</span>" +:+ nl;
    "            <span>⏱️ " +:+ pretty readingTime +:+ " menit baca</span>" +:+ nl;
    "          </div>" +:+ nl;
    nl;
    "          <h1 class=" +:+ q "article-title" +:+ ">" +:+ escapeHTML (title article) +:+ "</h1>" +:+ nl;
    "        </header>" +:+ nl;
    nl;
    "        <section class=" +:+ q "article-content" +:+ ">" +:+ nl;
    "          " +:+ sanitizedContent +:+ nl;
    "        </section>" +:+ nl;
    "      </article>" +:+ nl;
    nl;
    "      <aside class=" +:+ q "aside" +:+ " role=" +:+ q "complementary" +:+ " aria-label=" +:+ q "Informasi tambahan" +:+ ">" +:+ nl;
    "        <div class=" +:+ q "panel" +:+ ">" +:+ nl;
    "          <h4>Info Artikel</h4>" +:+ nl;
    "          <div style=" +:+ q "padding: 4px 10px;" +:+ ">" +:+ nl;
    "            <div style=" +:+ q "margin-bottom: 8px;" +:+ ">" +:+ nl;
    "              <strong>Topik:</strong> " +:+ escapeHTML (topic article) +:+ nl;
    "            </div>" +:+ nl;
    "            <div style=" +:+ q "margin-bottom: 8px;" +:+ ">" +:+ nl;
    "              <strong>Tanggal:</strong> " +:+ escapeHTML (formatDate (date article)) +:+ nl;
    "            </div>" +:+ nl;
    "            <div style=" +:+ q "margin-bottom: 8px;" +:+ ">" +:+ nl;
    "              <strong>Penulis:</strong> " +:+ escapeHTML (Some (orElse (author article) "Anonim")) +:+ nl;
    "            </div>" +:+ nl;
    "            <div>" +:+ nl;
    "              <strong>Waktu Baca:</strong> " +:+ pretty readingTime +:+ " menit" +:+ nl;
    "            </div>" +:+ nl;
    "          </div>" +:+ nl;
    "        </div>" +:+ nl;
    nl;
    "        <div class=" +:+ q "panel" +:+ ">" +:+ nl;
    "          <h4>Navigasi</h4>" +:+ nl;
    "          <a href=" +:+ q "article-list.html" +:+ ">← Kembali ke daftar</a>" +:+ nl;
    "          <a href=" +:+ q "#" +:+ " onclick=" +:+ q "window.print(); return false;" +:+ ">🖨️ Cetak artikel</a>" +:+ nl;
    "          <a href=" +:+ q "#" +:+ nl;
    "             onclick=" +:+ dq +:+ "navigator.share?.({title: '" +:+ escapeHTML (title article) +:+ "', url: window.location.href}); return false;" +:+ dq +:+ ">" +:+ nl;
    "             📤 Bagikan" +:+ nl;
    "          </a>" +:+ nl;
    "        </div>" +:+ nl;
    "      </aside>" +:+ nl;
    "    </div>" +:+ nl;
    "  "
  ].

(** [generateDetailHTML]: the markup, or the error [sanitizeHTML]
    throws. *)
Definition generateDetailHTML (article : Article) : JsError + string :=
  let coverHTML := detailCoverHTML article in
  let readingTime := calculateReadingTime (Some (orElse (content article) "")) in
  match sanitizeHTML parseHTML formView
          (orElse (content article) "<p>Konten tidak tersedia.</p>") with
  | inl error => inl error
  | inr sanitizedContent =>
      inr (detailTemplate article coverHTML readingTime sanitizedContent)
  end.

End Rendering.

(* ================================================================== *)
(** ** Data management: JSON values, storage, network, clock *)
(* ================================================================== *)

(** What [JSON.parse] and [response.json()] return.  Numbers are the
    integers (the time stamps of [Date.now()] are). *)
Inductive json : Type :=
| JNull
| JBool (b : bool)
| JNum (n : Z)
| JStr (s : string)
| JArr (elements : list json)
| JObj (fields : list (string * json)).

(** A JavaScript value of this part of the script: a JSON value or
    [undefined]. *)
Abbreviation value := (option json).
Definition undefined : value := None.
Definition null : value := Some JNull.

(** Truthiness, as [if (cached)] tests it. *)
Definition truthy (v : value) : bool :=
  match v with
  | None => false
  | Some JNull => false
  | Some (JBool b) => b
  | Some (JNum n) => negb (n =? 0)
  | Some (JStr s) => nonEmpty s
  | Some (JArr _) => true
  | Some (JObj _) => true
  end.

(** [Array.isArray]. *)
Definition isArray (v : json) : bool :=
  match v with JArr _ => true | _ => false end.

Fixpoint lookupField (k : string) (fs : list (string * json)) : value :=
  match fs with
  | [] => undefined
  | (k', v) :: r => if String.eqb k k' then Some v else lookupField k r
  end.

(** The property read [v.data] or [v.timestamp] on a value that is not
    [null]: an own property of an object, [undefined] on a number, a
    string, a boolean or an array. *)
Definition getProp (v : json) (k : string) : value :=
  match v with
  | JObj fs => lookupField k fs
  | _ => undefined
  end.

(** The object has an own property [k]. *)
Definition hasOwnProperty (fs : list (string * json)) (k : string) : bool :=
  match lookupField k fs with
  | Some _ => true
  | None => false
  end.

(** What a conversion throws for an object that has no primitive
    value. *)
Definition CannotConvert : JsError :=
  mkError "TypeError" "Cannot convert object to primitive value".

(** A number of the script: an integer or [NaN]. *)
Abbreviation number := (option Z).
Definition NaN : number := None.

Definition subNum (a b : number) : number :=
  match a, b with
  | Some x, Some y => Some (x - y)
  | _, _ => NaN
  end.

(** [a < b]; a comparison with [NaN] is false. *)
Definition ltNum (a b : number) : bool :=
  match a, b with
  | Some x, Some y => x <? y
  | _, _ => false
  end.

(** [localStorage]: the stored items, whether the page may use the
    storage at all (every call throws a [SecurityError] otherwise), and
    whether the quota is used up ([setItem] throws). *)
Record Storage : Type := mkStorage {
  items : gmap string string;
  accessible : bool;
  full : bool
}.

(** What [fetch] resolves to: the status of the response and what
    [response.json()] gives for its body, a value or a rejection. *)
Record Response : Type := mkResponse {
  status : nat;
  body : JsError + json
}.

(** [response.ok]: the status is in the range 200-299. *)
Definition ok (r : Response) : bool :=
  (200 <=? status r)%nat && (status r <=? 299)%nat.

(** The state the data functions work on: the storage, the number of
    [Date.now()] calls so far and the number of network retrievals issued
    so far. *)
Record World : Type := mkWorld {
  localStorage : Storage;
  ticks : nat;
  fetched : nat
}.

Definition withStorage (w : World) (s : Storage) : World :=
  mkWorld s (ticks w) (fetched w).

Definition withItems (s : Storage) (m : gmap string string) : Storage :=
  mkStorage m (accessible s) (full s).

(** A computation that may throw and changes the world; what was changed
    before a throw stays changed. *)
Definition M (A : Type) : Type := World -> (JsError + A) * World.

Definition ret {A : Type} (a : A) : M A := fun w => (inr a, w).

Definition throw {A : Type} (e : JsError) : M A := fun w => (inl e, w).

Definition bind {A B : Type} (m : M A) (k : A -> M B) : M B :=
  fun w =>
    match m w with
    | (inr a, w') => k a w'
    | (inl e, w') => (inl e, w')
    end.

(** [try { body } catch (error) { handler }]. *)
Definition tryCatch {A : Type} (body : M A) (handler : JsError -> M A) : M A :=
  fun w =>
    match body w with
    | (inl e, w') => handler e w'
    | (inr a, w') => (inr a, w')
    end.

(** A step that changes nothing: it gives its result or throws. *)
Definition lift {A : Type} (r : JsError + A) : M A := fun w => (r, w).

Notation "x <- m ;; k" := (bind m (fun x => k))
  (at level 100, m at next level, right associativity).
Notation "m ;;; k" := (bind m (fun _ => k))
  (at level 100, right associativity).

Definition SecurityError : JsError :=
  mkError "SecurityError" "The operation is insecure.".
Definition QuotaExceededError : JsError :=
  mkError "QuotaExceededError" "The quota has been exceeded.".

Definition getItem (k : string) : M (option string) :=
  fun w =>
    if accessible (localStorage w) then (inr (items (localStorage w) !! k), w)
    else (inl SecurityError, w).

Definition setItem (k v : string) : M unit :=
  fun w =>
    let s := localStorage w in
    if negb (accessible s) then (inl SecurityError, w)
    else if full s then (inl QuotaExceededError, w)
    else (inr tt, withStorage w (withItems s (<[k := v]> (items s)))).

Definition removeItem (k : string) : M unit :=
  fun w =>
    let s := localStorage w in
    if accessible s then (inr tt, withStorage w (withItems s (delete k (items s))))
    else (inl SecurityError, w).

Section DataManagement.

(** [JSON.parse]: the value of a JSON text, [None] where it throws a
    [SyntaxError]; and [JSON.stringify] on a JSON value. *)
Variable JSON_parse : string -> option json.
Variable JSON_stringify : json -> string.

(** The number a string converts to in an arithmetic expression
    ([StringToNumber]), and the string of a number
    ([Number::toString]). *)
Variable StringToNumber : string -> number.
Variable NumberToString : Z -> string.

(** The value the [n]-th call of [Date.now()] returns, and what the
    [n]-th network retrieval ends in: a rejection or a response. *)
Variable clock : nat -> Z.
Variable network : nat -> JsError + Response.

(** [ToString] of a value that [JSON.parse] built.  An object goes
    through [OrdinaryToPrimitive]: [toString] and [valueOf] are looked
    up on it, and an own property of these names, which holds a JSON
    value and so nothing that can be called, hides the method of
    [Object.prototype]; the inherited [valueOf] returns the object
    itself.  So an object with an own [toString] converts to nothing
    and a [TypeError] is thrown, and any other prints as
    [[object Object]].  An array prints through
    [Array.prototype.join]: its elements in order, [null] as the empty
    string, with commas between them. *)
Fixpoint ToString (v : json) : JsError + string :=
  match v with
  | JNull => inr "null"
  | JBool b => inr (if b then "true" else "false")
  | JNum n => inr (NumberToString n)
  | JStr s => inr s
  | JArr elements =>
      (fix join (l : list json) : JsError + string :=
         match l with
         | [] => inr ""
         | element :: rest =>
             match (match element with JNull => inr "" | _ => ToString element end) with
             | inl error => inl error
             | inr next =>
                 match rest with
                 | [] => inr next
                 | _ :: _ =>
                     match join rest with
                     | inl error => inl error
                     | inr R => inr (next +:+ "," +:+ R)
                     end
                 end
             end
         end) elements
  | JObj fields =>
      if hasOwnProperty fields "toString" then inl CannotConvert
      else inr "[object Object]"
  end.

(** The conversion to a number that [now - timestamp] applies: an
    object or an array is first converted to a primitive, which is the
    string above, or throws as above. *)
Definition ToNumber (v : value) : JsError + number :=
  match v with
  | None => inr NaN
  | Some JNull => inr (Some 0)
  | Some (JBool b) => inr (Some (if b then 1 else 0))
  | Some (JNum n) => inr (Some n)
  | Some (JStr s) => inr (StringToNumber s)
  | Some (JArr l) =>
      match ToString (JArr l) with
      | inr s => inr (StringToNumber s)
      | inl error => inl error
      end
  | Some (JObj fields) =>
      match ToString (JObj fields) with
      | inr s => inr (StringToNumber s)
      | inl error => inl error
      end
  end.

Definition Date_now : M Z :=
  fun w => (inr (clock (ticks w)), mkWorld (localStorage w) (S (ticks w)) (fetched w)).

Definition parseJSON (text : string) : M json :=
  match JSON_parse text with
  | Some v => ret v
  | None => throw (mkError "SyntaxError" "JSON.parse: unexpected character")
  end.

(** [const { data, timestamp } = v]: a [TypeError] when [v] is [null]. *)
Definition destructure (v : json) : M (value * value) :=
  match v with
  | JNull => throw (mkError "TypeError" "Cannot destructure 'null' as it is null.")
  | _ => ret (getProp v "data", getProp v "timestamp")
  end.

(** [fetch(CONFIG.dataPath, ...)]: one network retrieval. *)
Definition fetch (url : string) : M Response :=
  fun w =>
    (network (fetched w), mkWorld (localStorage w) (ticks w) (S (fetched w))).

(** [await response.json()]. *)
Definition responseJson (r : Response) : M json :=
  match body r with
  | inr v => ret v
  | inl e => throw e
  end.

Definition getCachedData : M value :=
  tryCatch
    (cached <- getItem CONFIG.cacheKey ;;
     if negb (truthyStr cached) then ret null
     else
       parsed <- parseJSON (nullish cached) ;;
       fields <- destructure parsed ;;
       let data := fst fields in
       let timestamp := snd fields in
       now <- Date_now ;;
       number <- lift (ToNumber timestamp) ;;
       if ltNum (subNum (Some now) number) (Some CONFIG.cacheDuration)
       then ret data
       else
         removeItem CONFIG.cacheKey ;;;
         ret null)
    (fun error => ret null).

Definition setCachedData (data : json) : M unit :=
  tryCatch
    (now <- Date_now ;;
     let cacheObject := JObj [("data", data); ("timestamp", JNum now)] in
     setItem CONFIG.cacheKey (JSON_stringify cacheObject))
    (fun error => ret tt).

Definition clearCache : M unit :=
  tryCatch (removeItem CONFIG.cacheKey) (fun error => ret tt).

Definition loadArticles : M value :=
  tryCatch
    (cached <- getCachedData ;;
     if truthy cached then ret cached
     else
       response <- fetch CONFIG.dataPath ;;
       if negb (ok response)
       then throw (Error ("HTTP error! status: " +:+ pretty (status response)))
       else
         data <- responseJson response ;;
         if negb (isArray data)
         then throw (Error "Data format invalid: expected array")
         else
           setCachedData data ;;;
           ret (Some data))
    (fun error => throw (Error ("Gagal memuat data: " +:+ message error))).

End DataManagement.

(* ================================================================== *)
(** ** Article list page: the filter *)
(* ================================================================== *)

(** [x === s] for a field [x] and a string [s]: an absent field is
    [undefined] and equals no string; an absent URL parameter is [null]
    and equals no field. *)
Definition strictEq (x y : ostring) : bool :=
  match x, y with
  | Some s, Some t => String.eqb s t
  | _, _ => false
  end.

Section ArticleList.

(** [String.prototype.toLowerCase] and [String.prototype.trim]. *)
Variable toLowerCase : string -> string.
Variable trim : string -> string.

(** The local [query] of [applyFilters]. *)
Definition normalizeQuery (searchQuery : string) : string :=
  trim (toLowerCase (orElse (Some searchQuery) "")).

Definition matchesTopic (activeTopicFilter : string) (article : Article) : bool :=
  String.eqb activeTopicFilter "all" || strictEq (topic article) (Some activeTopicFilter).

Definition matchesSearch (query : string) (article : Article) : bool :=
  negb (nonEmpty query)
  || includes (toLowerCase (orElse (title article) "")) query
  || includes (toLowerCase (orElse (excerpt article) "")) query.

(** [applyFilters], up to the local [filtered]: the closure reads
    [articles], [activeTopicFilter] and [searchQuery]. *)
Definition applyFilters (articles : list Article)
    (activeTopicFilter searchQuery : string) : list Article :=
  let query := normalizeQuery searchQuery in
  List.filter
    (fun article => matchesTopic activeTopicFilter article && matchesSearch query article)
    articles.

End ArticleList.

(* ================================================================== *)
(** ** Article detail page *)
(* ================================================================== *)

Section ArticleDetail.

Variable toLocaleDateString : string -> JsError + string.
Variable parseHTML : string -> list node.
Variable formView : string -> list nat -> FormView.

(** [initArticleDetail]: the [innerHTML] of the mount element when the
    function is done, [None] when the page has no mount element.
    [articleId] is what [getURLParam('id')] returns ([None] for [null]),
    [loaded] what [await loadArticles()] ends in: the thrown error or the
    collection. *)
Definition initArticleDetail (hasMount : bool) (articleId : ostring)
    (loaded : JsError + list Article) : option string :=
  if negb hasMount then None
  else
    let attempt : JsError + string :=
      match loaded with
      | inl error => inl error
      | inr articles =>
          let article := List.find (fun a => strictEq (id a) articleId) articles in
          let article :=
            match article, articles with
            | None, first :: _ => Some first
            | _, _ => article
            end in
          match article with
          | None =>
              inl (Error "Tidak ada artikel tersedia. Periksa file data/articles.txt")
          | Some a => generateDetailHTML toLocaleDateString parseHTML formView a
          end
      end in
    match attempt with
    | inr html => Some html
    | inl error => Some (showError (message error))
    end.

End ArticleDetail.

(* ================================================================== *)
(** ** The empty state of the list *)
(* ================================================================== *)

(** [showEmptyState]: the markup assigned to the element's [innerHTML];
    a call without [message] takes the default. *)
Definition showEmptyState (message : ostring) : string :=
  let message :=
    match message with
    | Some m => m
    | None => "Tidak ada artikel ditemukan"
    end in
  concatStr [
    nl;
    "    <div class=" +:+ q "card col-12" +:+ " style=" +:+ q "padding: 40px; text-align: center;" +:+ ">" +:+ nl;
    "      <div style=" +:+ q "font-size: 48px; margin-bottom: 16px;" +:+ ">📭</div>" +:+ nl;
    "      <div class=" +:+ q "card-title" +:+ ">" +:+ escapeHTML (Some message) +:+ "</div>" +:+ nl;
    "      <p class=" +:+ q "card-excerpt" +:+ ">Coba ganti filter atau kata kunci pencarian.</p>" +:+ nl;
    "    </div>" +:+ nl;
    "  "
  ].

(* ================================================================== *)
(** ** Debounce *)
(* ================================================================== *)

Section Debounce.

(** What the debounced function is called with. *)
Variable A : Type.

(** A function made by [debounce(func, wait)]: its local [timeout] (a
    timer id, or [None] for [undefined]), the timers it has pending in
    the browser, each with its due time and the arguments its [later]
    closes over, and the id the next [setTimeout] returns (ids of timers
    of other code are left out). *)
Record Debounced : Type := mkDebounced {
  timeout : option nat;
  timers : gmap nat (Z * A);
  nextTimer : nat
}.

(** [debounce(func, wait)]: nothing pending. *)
Definition debounce (firstTimer : nat) : Debounced :=
  mkDebounced None ∅ firstTimer.

(** [clearTimeout(timeout)]: nothing happens for [undefined] and for a
    timer that is not pending. *)
Definition clearTimeout (timer : option nat) (pending : gmap nat (Z * A)) :
    gmap nat (Z * A) :=
  match timer with
  | Some i => delete i pending
  | None => pending
  end.

(** [executedFunction(...args)] at time [now]: the pending timer is
    cleared, a new one is set to run [later] after [wait]. *)
Definition executedFunction (wait now : Z) (args : A) (d : Debounced) : Debounced :=
  mkDebounced
    (Some (nextTimer d))
    (<[nextTimer d := (now + wait, args)]> (clearTimeout (timeout d) (timers d)))
    (S (nextTimer d)).

(** The browser runs the timer [id] at time [now], which it does for a
    pending timer that is due: the timer is spent, [later] clears
    [timeout] and calls [func] with the arguments that are returned.
    [None] when the browser does not run this timer at [now]. *)
Definition runTimer (now : Z) (id : nat) (d : Debounced) : option (A * Debounced) :=
  match timers d !! id with
  | Some (due, args) =>
      if due <=? now then
        Some (args,
              mkDebounced (timeout d)
                (clearTimeout (timeout d) (delete id (timers d)))
                (nextTimer d))
      else None
  | None => None
  end.

(** What happens to a debounced function: a call, or a timer the
    browser tries to run. *)
Inductive TimerEvent : Type :=
| Invoke (now : Z) (args : A)
| Elapse (now : Z) (id : nat).

(** A debounced function with the calls of [func] so far: the time and
    the arguments of each, the latest first. *)
Definition stepDebounced (wait : Z) (s : Debounced * list (Z * A)) (e : TimerEvent) :
    Debounced * list (Z * A) :=
  match e with
  | Invoke now args => (executedFunction wait now args (fst s), snd s)
  | Elapse now id =>
      match runTimer now id (fst s) with
      | Some (args, d) => (d, (now, args) :: snd s)
      | None => s
      end
  end.

Definition runDebounced (wait : Z) (firstTimer : nat) (events : list TimerEvent) :
    Debounced * list (Z * A) :=
  fold_left (stepDebounced wait) events (debounce firstTimer, []).

End Debounce.

Arguments timeout {A} _.
Arguments timers {A} _.
Arguments nextTimer {A} _.
Arguments mkDebounced {A} _ _ _.
Arguments debounce {A} _.
Arguments clearTimeout {A} _ _.
Arguments executedFunction {A} _ _ _ _.
Arguments runTimer {A} _ _ _.
Arguments Invoke {A} _ _.
Arguments Elapse {A} _ _.
Arguments stepDebounced {A} _ _ _.
Arguments runDebounced {A} _ _ _.

(* ================================================================== *)
(** ** Article list page: the controller *)
(* ================================================================== *)

(** The list page after [initArticleList]: the variables of the closure,
    the value of the search input ([None] when the page has none), the
    topic chips with their [data-topic] and whether they carry
    [is-active], whether the listeners were attached, the markup last
    assigned to the [innerHTML] of the cards container, its [aria-label],
    and the debounced search. *)
Record ListPage : Type := mkListPage {
  articles : list Article;
  activeTopicFilter : string;
  searchQuery : string;
  searchInput : option string;
  topicChips : list (string * bool);
  listening : bool;
  cardsContainer : string;
  ariaLabel : option string;
  debouncedSearch : Debounced unit
}.

(** What the user and the browser do to the page. *)
Inductive PageEvent : Type :=
| ChipClick (i : nat)
| Typed (now : Z) (text : string)
| SearchClick
| KeyDown (key : string)
| TimerFired (now : Z) (id : nat).

Section ListController.

Variable toLocaleDateString : string -> JsError + string.
Variable toLowerCase : string -> string.
Variable trim : string -> string.

(** What [applyFilters] assigns to the container for the local
    [filtered]. *)
Definition cardsMarkup (filtered : list Article) : string :=
  if (length filtered =? 0)%nat then showEmptyState None
  else concatStr (map (generateCardHTML toLocaleDateString) filtered).

(** [applyFilters()], with what it writes to the page. *)
Definition applyAndRender (p : ListPage) : ListPage :=
  let filtered :=
    applyFilters toLowerCase trim (articles p) (activeTopicFilter p) (searchQuery p) in
  mkListPage (articles p) (activeTopicFilter p) (searchQuery p) (searchInput p)
    (topicChips p) (listening p)
    (cardsMarkup filtered)
    (Some (pretty (length filtered) +:+ " artikel ditemukan"))
    (debouncedSearch p).

(** [searchQuery = searchInput?.value || ''; applyFilters();] *)
Definition searchNow (p : ListPage) : ListPage :=
  applyAndRender
    (mkListPage (articles p) (activeTopicFilter p) (orElse (searchInput p) "")
       (searchInput p) (topicChips p) (listening p) (cardsContainer p) (ariaLabel p)
       (debouncedSearch p)).

(** The click listener of chip [i]: every chip loses [is-active], the
    clicked one gets it. *)
Definition activateChip (i : nat) (chips : list (string * bool)) : list (string * bool) :=
  imap (fun j chip => (fst chip, (j =? i)%nat)) chips.

(** [initArticleList] on a page with a cards container: [loaded] is what
    [await loadArticles()] ends in. *)
Definition initArticleList (input : option string) (chips : list (string * bool))
    (firstTimer : nat) (loaded : JsError + list Article) : ListPage :=
  match loaded with
  | inr collection =>
      applyAndRender
        (mkListPage collection "all" "" input chips true showLoading None
           (debounce firstTimer))
  | inl error =>
      mkListPage [] "all" "" input chips false (showError (message error)) None
        (debounce firstTimer)
  end.

(** The listeners: of the chips, of the search input ([input] with the
    debounced search, [keydown]), of the search button, and the timer of
    the debounced search. *)
Definition handle (p : ListPage) (e : PageEvent) : ListPage :=
  match e with
  | Typed now text =>
      match searchInput p with
      | None => p
      | Some _ =>
          mkListPage (articles p) (activeTopicFilter p) (searchQuery p) (Some text)
            (topicChips p) (listening p) (cardsContainer p) (ariaLabel p)
            (if listening p
             then executedFunction CONFIG.searchDebounce now tt (debouncedSearch p)
             else debouncedSearch p)
      end
  | ChipClick i =>
      if listening p then
        match topicChips p !! i with
        | Some chip =>
            applyAndRender
              (mkListPage (articles p) (fst chip) (searchQuery p) (searchInput p)
                 (activateChip i (topicChips p)) (listening p) (cardsContainer p)
                 (ariaLabel p) (debouncedSearch p))
        | None => p
        end
      else p
  | SearchClick => if listening p then searchNow p else p
  | KeyDown key =>
      match searchInput p with
      | Some _ => if listening p && String.eqb key "Enter" then searchNow p else p
      | None => p
      end
  | TimerFired now id =>
      match runTimer now id (debouncedSearch p) with
      | Some (_, d) =>
          searchNow
            (mkListPage (articles p) (activeTopicFilter p) (searchQuery p) (searchInput p)
               (topicChips p) (listening p) (cardsContainer p) (ariaLabel p) d)
      | None => p
      end
  end.

Definition runPage (p : ListPage) (events : list PageEvent) : ListPage :=
  fold_left handle events p.

End ListController.

(* ================================================================== *)
(** ** The first script of the file *)
(* ================================================================== *)

Module Simple.

Section Renderer.

Variable toLocaleDateString : string -> JsError + string.

Definition fmtDate (iso : ostring) : ostring :=
  match toLocaleDateString (toStr iso +:+ "T00:00:00") with
  | inr formatted => Some formatted
  | inl error => iso
  end.

Definition cardHTML (a : Article) : string :=
  let cover :=
    if truthyStr (cover a) then
      concatStr [
        "<img src=" +:+ dq +:+ toStr (cover a) +:+ dq +:+ " alt=" +:+ q "Cover" +:+ " />"
      ]
    else "" in
  concatStr [
    nl;
    "    <a class=" +:+ q "card col-4" +:+ " href=" +:+ dq +:+ "article-detail.html?id=" +:+ encodeURIComponent (toStr (id a)) +:+ dq +:+ " data-topic=" +:+ dq +:+ toStr (topic a) +:+ dq +:+ " data-title=" +:+ dq +:+ toStr (title a) +:+ dq +:+ ">" +:+ nl;
    "      <div class=" +:+ q "card-media" +:+ ">" +:+ cover +:+ "</div>" +:+ nl;
    "      <div class=" +:+ q "card-body" +:+ ">" +:+ nl;
    "        <div class=" +:+ q "card-topic" +:+ "><span class=" +:+ q "dot" +:+ "></span> " +:+ toStr (topic a) +:+ "</div>" +:+ nl;
    "        <div class=" +:+ q "card-title" +:+ ">" +:+ toStr (title a) +:+ "</div>" +:+ nl;
    "        <p class=" +:+ q "card-excerpt" +:+ ">" +:+ orElse (excerpt a) "" +:+ "</p>" +:+ nl;
    "        <div class=" +:+ q "card-meta" +:+ ">" +:+ nl;
    "          <span>" +:+ toStr (fmtDate (date a)) +:+ "</span><span>•</span><span>" +:+ orElse (author a) "" +:+ "</span>" +:+ nl;
    "        </div>" +:+ nl;
    "      </div>" +:+ nl;
    "    </a>" +:+ nl;
    "  "
  ].

Definition detailHTML (a : Article) : string :=
  let cover :=
    if truthyStr (cover a) then
      concatStr [
        nl;
        "    <div class=" +:+ q "article-cover" +:+ ">" +:+ nl;
        "      <img src=" +:+ dq +:+ toStr (cover a) +:+ dq +:+ " alt=" +:+ q "Cover artikel" +:+ " />" +:+ nl;
        "    </div>"
      ]
    else "" in
  concatStr [
    nl;
    "    <section class=" +:+ q "hero" +:+ " aria-label=" +:+ q "Header" +:+ ">" +:+ nl;
    "      <div class=" +:+ q "hero-inner" +:+ ">" +:+ nl;
    "        <div class=" +:+ q "hero-kicker" +:+ ">ARTIKEL • <span style=" +:+ q "opacity:.9" +:+ ">TOPIK: " +:+ toStr (topic a) +:+ "</span></div>" +:+ nl;
    "        <h1 class=" +:+ q "hero-title" +:+ ">" +:+ toStr (title a) +:+ "</h1>" +:+ nl;
    "        <p class=" +:+ q "hero-sub" +:+ ">" +:+ orElse (excerpt a) "" +:+ "</p>" +:+ nl;
    "      </div>" +:+ nl;
    "    </section>" +:+ nl;
    nl;
    "    <div class=" +:+ q "article-shell" +:+ ">" +:+ nl;
    "      <article class=" +:+ q "article" +:+ ">" +:+ nl;
    "        " +:+ cover +:+ nl;
    "        <header class=" +:+ q "article-head" +:+ ">" +:+ nl;
    "          <div class=" +:+ q "meta-bar" +:+ ">" +:+ nl;
    "            <span class=" +:+ q "badge" +:+ "><span class=" +:+ q "dot" +:+ "></span> " +:+ toStr (topic a) +:+ "</span>" +:+ nl;
    "            <span>📅 " +:+ toStr (fmtDate (date a)) +:+ "</span>" +:+ nl;
    "            <span>✍️ " +:+ orElse (author a) "" +:+ "</span>" +:+ nl;
    "          </div>" +:+ nl;
    "          <h1 class=" +:+ q "article-title" +:+ ">" +:+ toStr (title a) +:+ "</h1>" +:+ nl;
    "        </header>" +:+ nl;
    nl;
    "        <section class=" +:+ q "article-content" +:+ ">" +:+ nl;
    "          " +:+ orElse (content a) "<p>(Belum ada isi)</p>" +:+ nl;
    "        </section>" +:+ nl;
    "      </article>" +:+ nl;
    nl;
    "      <aside class=" +:+ q "aside" +:+ " aria-label=" +:+ q "Sidebar" +:+ ">" +:+ nl;
    "        <div class=" +:+ q "panel" +:+ ">" +:+ nl;
    "          <h4>Info</h4>" +:+ nl;
    "          <a href=" +:+ q "#" +:+ ">Topik: " +:+ toStr (topic a) +:+ "</a>" +:+ nl;
    "          <a href=" +:+ q "#" +:+ ">Tanggal: " +:+ toStr (fmtDate (date a)) +:+ "</a>" +:+ nl;
    "          <a href=" +:+ q "#" +:+ ">Penulis: " +:+ orElse (author a) "" +:+ "</a>" +:+ nl;
    "        </div>" +:+ nl;
    "      </aside>" +:+ nl;
    "    </div>" +:+ nl;
    "  "
  ].

End Renderer.

Section List.

Variable toLowerCase : string -> string.
Variable trim : string -> string.

(** The local [filtered] of [apply] in [initList]; [value] is [q?.value]. *)
Definition apply (data : list Article) (activeTopic : string) (value : ostring) :
    list Article :=
  let query := toLowerCase (trim (orElse value "")) in
  List.filter
    (fun a =>
       let matchTopic :=
         String.eqb activeTopic "all" || strictEq (topic a) (Some activeTopic) in
       let matchQuery :=
         negb (nonEmpty query) || includes (toLowerCase (orElse (title a) "")) query in
       matchTopic && matchQuery)
    data.

End List.

End Simple.

(* ================================================================== *)
(** * Vocabulary of the properties *)
(* ================================================================== *)

(** ** Markup *)

(** Every [<] of the string is followed, inside the string, by two
    characters that are not [sc]. *)
Fixpoint tagSafe (s : string) : bool :=
  match s with
  | EmptyString => true
  | String c r =>
      (if Ascii.eqb c "<" then
         match r with
         | String c1 (String c2 _) => negb (Ascii.eqb c1 "s" && Ascii.eqb c2 "c")
         | _ => false
         end
       else true) && tagSafe r
  end.

(** The string holds no [<]. *)
Fixpoint noLT (s : string) : bool :=
  match s with
  | EmptyString => true
  | String c r => negb (Ascii.eqb c "<") && noLT r
  end.

(** What the serialised markup holds: a script element, an attribute
    whose name starts with [on], anywhere in what [innerHTML] writes
    out, the contents of templates included. *)
Fixpoint hasScript (n : node) : bool :=
  match n with
  | Element tag attrs children => String.eqb tag "script" || existsb hasScript children
  | Template attrs contents => existsb hasScript contents
  | _ => false
  end.

Definition isHandler (a : string * string) : bool := startsWith (fst a) "on".

Fixpoint hasHandler (n : node) : bool :=
  match n with
  | Element tag attrs children => existsb isHandler attrs || existsb hasHandler children
  | Template attrs contents => existsb isHandler attrs || existsb hasHandler contents
  | _ => false
  end.

(** The same over the child-node tree only, which is what
    [querySelectorAll] walks. *)
Fixpoint childScript (n : node) : bool :=
  match n with
  | Element tag attrs children => String.eqb tag "script" || existsb childScript children
  | _ => false
  end.

Fixpoint childHandler (n : node) : bool :=
  match n with
  | Element tag attrs children => existsb isHandler attrs || existsb childHandler children
  | Template attrs contents => existsb isHandler attrs
  | _ => false
  end.

(** What the second pass and the two passes leave of a tree when no
    property of a [form] element is shadowed: every attribute whose
    name starts with [on] is gone from the child-node tree. *)
Fixpoint plainRemoveHandlers (n : node) : node :=
  match n with
  | Element tag attrs children =>
      Element tag (List.filter keepsAttr attrs) (map plainRemoveHandlers children)
  | Template attrs contents =>
      Template (List.filter keepsAttr attrs) contents
  | other => other
  end.

Definition plainSanitizeDOM (children : list node) : list node :=
  map plainRemoveHandlers (flat_map removeScripts children).

(** The attributes the loop of the second pass leaves, for the items
    it runs over: those not named by an item whose name starts with
    [on] (the loop ends at an item that throws). *)
Fixpoint survives (items : list (JsError + string)) (a : string * string) : bool :=
  match items with
  | [] => true
  | inl _ :: _ => true
  | inr name :: rest =>
      (if startsWith name "on" then negb (String.eqb (fst a) name) else true)
      && survives rest a
  end.

(** The child-node tree holds a [form] element. *)
Fixpoint hasForm (n : node) : bool :=
  match n with
  | Element tag attrs children => String.eqb tag "form" || existsb hasForm children
  | _ => false
  end.

(** ** Cache and loader *)

(** The world after one more [Date.now()], after the cache entry was
    removed, and after [setItem(CONFIG.cacheKey, text)] went through. *)
Definition tick (w : World) : World :=
  mkWorld (localStorage w) (S (ticks w)) (fetched w).

Definition purge (w : World) : World :=
  withStorage w
    (withItems (localStorage w) (delete CONFIG.cacheKey (items (localStorage w)))).

Definition store (w : World) (text : string) : World :=
  withStorage w
    (withItems (localStorage w) (<[CONFIG.cacheKey := text]> (items (localStorage w)))).

(** The text stored under the cache key, as [getCachedData] gets it:
    [None] when there is none, when it is empty, or when the storage
    cannot be used. *)
Definition cacheEntry (w : World) : option string :=
  if accessible (localStorage w) then
    match items (localStorage w) !! CONFIG.cacheKey with
    | Some raw => if nonEmpty raw then Some raw else None
    | None => None
    end
  else None.

(** The envelope [setCachedData] stores. *)
Definition envelope (data : json) (now : Z) : json :=
  JObj [("data", data); ("timestamp", JNum now)].

(** What [now - timestamp < CONFIG.cacheDuration] comes to for a parsed
    entry, given the two conversions of the browser: the time stamp
    converts and the test holds ([fresh]); it converts and the test
    fails, as it does for [NaN] ([expired]); or the conversion throws
    ([unreadable]). *)
Definition fresh (StringToNumber : string -> number)
    (NumberToString : Z -> string) (v : json) (now : Z) : bool :=
  match ToNumber StringToNumber NumberToString (getProp v "timestamp") with
  | inr t => ltNum (subNum (Some now) t) (Some CONFIG.cacheDuration)
  | inl _ => false
  end.

Definition expired (StringToNumber : string -> number)
    (NumberToString : Z -> string) (v : json) (now : Z) : bool :=
  match ToNumber StringToNumber NumberToString (getProp v "timestamp") with
  | inr t => negb (ltNum (subNum (Some now) t) (Some CONFIG.cacheDuration))
  | inl _ => false
  end.

Definition unreadable (StringToNumber : string -> number)
    (NumberToString : Z -> string) (v : json) : bool :=
  match ToNumber StringToNumber NumberToString (getProp v "timestamp") with
  | inr _ => false
  | inl _ => true
  end.

(** What a network retrieval ends in, in the words of the claims: it
    errors, or the response status is not a success, or the body does
    not decode to an array. *)
Definition retrievalFails (o : JsError + Response) : Prop :=
  match o with
  | inl _ => True
  | inr r =>
      ok r = false \/
      match body r with
      | inl _ => True
      | inr data => isArray data = false
      end
  end.

(** The cause a failed retrieval is reported with. *)
Definition failureCause (o : JsError + Response) : string :=
  match o with
  | inl e => message e
  | inr r =>
      if ok r then
        match body r with
        | inl e => message e
        | inr _ => "Data format invalid: expected array"
        end
      else "HTTP error! status: " +:+ pretty (status r)
  end.

(** ** Filter *)

Section FilterSpec.

Variable toLowerCase : string -> string.
Variable trim : string -> string.

(** The topic predicate of the filter engine, in the words of the
    specification. *)
Definition topicPredicate (activeTopic : string) (a : Article) : Prop :=
  activeTopic = "all" \/ topic a = Some activeTopic.

(** The query predicate in the words of the specification: the query is
    empty after trimming, or the query in lower case is a substring of
    the title or of the excerpt in lower case. *)
Definition statedQueryPredicate (query : string) (a : Article) : Prop :=
  trim query = "" \/
  occurs (toLowerCase query) (toLowerCase (orElse (title a) "")) \/
  occurs (toLowerCase query) (toLowerCase (orElse (excerpt a) "")).

(** The query predicate as amended: what is looked for is the query in
    lower case and trimmed; it is empty, or a substring of the title or
    of the excerpt in lower case. *)
Definition queryPredicate (query : string) (a : Article) : Prop :=
  trim (toLowerCase query) = "" \/
  occurs (trim (toLowerCase query)) (toLowerCase (orElse (title a) "")) \/
  occurs (trim (toLowerCase query)) (toLowerCase (orElse (excerpt a) "")).

Definition visible (activeTopic query : string) (a : Article) : Prop :=
  topicPredicate activeTopic a /\ queryPredicate query a.

End FilterSpec.

(** ** Reading time *)









(** The tree holds a [template] element. *)
Fixpoint hasTemplate (n : node) : bool :=
  match n with
  | Element tag attrs children => existsb hasTemplate children
  | Template attrs contents => true
  | _ => false
  end.

(** ** Escaping *)

(** The text holds none of what [escapeText] rewrites: no [&], [<],
    [>], and no U+00A0 (bytes C2 A0). *)
Fixpoint plainText (s : string) : bool :=
  match s with
  | EmptyString => true
  | String c r =>
      negb (Ascii.eqb c "&") && negb (Ascii.eqb c "<") && negb (Ascii.eqb c ">")
      && match r with
         | String d _ => negb (Ascii.eqb c xC2 && Ascii.eqb d xA0)
         | EmptyString => true
         end
      && plainText r
  end.

(** Every character of the string passes the test. *)
Fixpoint allChars (p : ascii -> bool) (s : string) : bool :=
  match s with
  | EmptyString => true
  | String c r => p c && allChars p r
  end.

(** The characters of an encoded URI component. *)
Definition uriChar (c : ascii) : bool := uriUnreserved c || Ascii.eqb c "%".

(** ** More on the cache *)

(** Two worlds agree outside the cache entry: the same items under
    every other key, the same state of the storage. *)
Definition sameOutsideCache (w w' : World) : Prop :=
  (forall k, k <> CONFIG.cacheKey ->
     items (localStorage w') !! k = items (localStorage w) !! k) /\
  accessible (localStorage w') = accessible (localStorage w) /\
  full (localStorage w') = full (localStorage w).

(** ** Debounce and the list page *)

(** The calls of the debounced function among the events: the time and
    the arguments of each. *)
Definition invocations {A : Type} (events : list (TimerEvent A)) : list (Z * A) :=
  flat_map
    (fun e => match e with
              | Invoke now args => [(now, args)]
              | Elapse _ _ => []
              end)
    events.

(** Nothing is pending, or one timer is, the one [timeout] names: it
    is due [wait] after the call [(t, x)] of [calls] that set it. *)
Definition pendingOf {A : Type} (wait : Z) (calls : list (Z * A)) (d : Debounced A) :
    Prop :=
  timers d = ∅ \/
  exists id t x,
    timeout d = Some id /\ timers d = {[ id := (t + wait, x) ]} /\ In (t, x) calls.

Section PageSpec.

Variable toLocaleDateString : string -> JsError + string.
Variable toLowerCase : string -> string.
Variable trim : string -> string.

(** The container and its label show what the filter gives for the
    variables of the closure. *)
Definition viewFollowsFilter (p : ListPage) : Prop :=
  cardsContainer p =
    cardsMarkup toLocaleDateString
      (applyFilters toLowerCase trim (articles p) (activeTopicFilter p) (searchQuery p)) /\
  ariaLabel p =
    Some (pretty (length (applyFilters toLowerCase trim (articles p)
                            (activeTopicFilter p) (searchQuery p)))
          +:+ " artikel ditemukan").

(** No chip was clicked and the filter is [all], or the filter is the
    topic of the chip clicked last, the only one that is active. *)
Definition chipsFollowFilter (chips : list (string * bool)) (p : ListPage) : Prop :=
  (activeTopicFilter p = "all" /\ topicChips p = chips) \/
  exists i chip,
    chips !! i = Some chip /\ activeTopicFilter p = fst chip /\
    topicChips p = activateChip i chips.

(** What holds of the list page once the collection was loaded, for
    the input and the chips it started with. *)
Definition loadedPage (input : option string) (chips : list (string * bool))
    (collection : list Article) (p : ListPage) : Prop :=
  articles p = collection /\ listening p = true /\
  viewFollowsFilter p /\ chipsFollowFilter chips p /\
  (exists calls, pendingOf CONFIG.searchDebounce calls (debouncedSearch p)) /\
  (input <> None -> searchInput p <> None).

End PageSpec.

(* ================================================================== *)
(** * A sample browser, for the examples *)
(* ================================================================== *)

(** The markup of an [img] element with an [onerror] handler inside a
    [template] element. *)
Definition handlerInTemplate : string :=
  "<template><img src=" +:+ q "x" +:+ " onerror=" +:+ q "alert(1)" +:+ "></template>".

(** The fragment parser on the three markups the examples use. *)
Definition sampleParser (html : string) : list node :=
  if String.eqb html "<p>Konten tidak tersedia.</p>"
  then [Element "p" [] [Text "Konten tidak tersedia."]]
  else if String.eqb html "<template><script>alert(1)</script></template>"
  then [Template [] [Element "script" [] [Text "alert(1)"]]]
  else if String.eqb html handlerInTemplate
  then [Template [] [Element "img" [("src", "x"); ("onerror", "alert(1)")] []]]
  else [].

(** A browser in which no property of a form is shadowed. *)
Definition noShadow (html : string) (path : list nat) : FormView := plainView.

(** The markup of a form with a handler and a control named
    [removeAttribute], and of one with a control named [attributes];
    the fragment parser on them; and the browser's view of the two
    forms: in the first [el.removeAttribute] is the control, which
    cannot be called, in the second [el.attributes] is the control,
    of which [Array.from] makes the empty list. *)
Definition formShadowingRemove : string :=
  "<form onsubmit=" +:+ q "x()" +:+ "><input name=" +:+ q "removeAttribute" +:+ "></form>".
Definition formShadowingAttributes : string :=
  "<form onsubmit=" +:+ q "x()" +:+ "><input name=" +:+ q "attributes" +:+ "></form>".

Definition NotAFunction : JsError :=
  mkError "TypeError" "el.removeAttribute is not a function".

Definition formParser (html : string) : list node :=
  if String.eqb html formShadowingRemove
  then [Element "form" [("onsubmit", "x()")]
          [Element "input" [("name", "removeAttribute")] []]]
  else if String.eqb html formShadowingAttributes
  then [Element "form" [("onsubmit", "x()")]
          [Element "input" [("name", "attributes")] []]]
  else [].

Definition formShadows (html : string) (path : list nat) : FormView :=
  match path with
  | [0%nat] =>
      if String.eqb html formShadowingRemove then mkFormView None (Some NotAFunction)
      else if String.eqb html formShadowingAttributes then mkFormView (Some []) None
      else plainView
  | _ => plainView
  end.

(** An article whose content is the first of these forms. *)
Definition formArticle : Article :=
  mkArticle (Some "f1") (Some "Formulir") (Some "Berita") None None None None
    (Some formShadowingRemove).

(** A date formatter that hands the date back. *)
Definition sampleDate (s : string) : JsError + string := inr s.

(** A [JSON.parse] that knows the texts of a table and rejects every
    other text. *)
Definition parseTable (table : list (string * json)) (text : string) : option json :=
  match List.find (fun entry => String.eqb text (fst entry)) table with
  | Some entry => Some (snd entry)
  | None => None
  end.

Fixpoint joinStr (sep : string) (l : list string) : string :=
  match l with
  | [] => ""
  | [s] => s
  | s :: r => s +:+ sep +:+ joinStr sep r
  end.

(** [JSON.stringify] on values whose strings need no escape. *)
Fixpoint sampleStringify (v : json) : string :=
  match v with
  | JNull => "null"
  | JBool b => if b then "true" else "false"
  | JNum n => pretty n
  | JStr s => q s
  | JArr l => "[" +:+ joinStr "," (map sampleStringify l) +:+ "]"
  | JObj fs =>
      "{" +:+
      joinStr "," (map (fun kv => let '(k, x) := kv in q k +:+ ":" +:+ sampleStringify x) fs)
      +:+ "}"
  end.

(** The collection of scenarios A and B of the specification, as the
    loader sees it and as article records. *)
Definition sampleCollection : json :=
  JArr [JObj [("id", JStr "a1"); ("topic", JStr "Berita"); ("title", JStr "Gempa")];
        JObj [("id", JStr "a2"); ("topic", JStr "Edukasi"); ("title", JStr "Fisika Dasar")]].

Definition articleA1 : Article :=
  mkArticle (Some "a1") (Some "Gempa") (Some "Berita") None None None None None.
Definition articleA2 : Article :=
  mkArticle (Some "a2") (Some "Fisika Dasar") (Some "Edukasi") None None None None None.

(** An article whose escaped fields all hold a script element. *)
Definition scriptedArticle : Article :=
  mkArticle (Some "x1")
    (Some "<script>alert(1)</script>") (Some "<script>alert(1)</script>")
    (Some "<script>alert(1)</script>") (Some "<script>alert(1)</script>")
    (Some "<script>alert(1)</script>") (Some "<script>alert(1)</script>")
    None.

(** A clock that starts at [t0] and advances [step] milliseconds from
    one reading to the next. *)
Definition sampleClock (t0 step : Z) (n : nat) : Z := t0 + step * Z.of_nat n.

(** A [JSON.parse] that reads the envelope of the sample collection
    written at [now]. *)
Definition sampleParse (now : Z) : string -> option json :=
  parseTable [(sampleStringify (envelope sampleCollection now), envelope sampleCollection now)].

(** An envelope whose time stamp is an object that hides [toString]
    and [valueOf]. *)
Definition opaqueEnvelope : json :=
  JObj [("data", sampleCollection);
        ("timestamp", JObj [("toString", JNum 1); ("valueOf", JNum 2)])].

(** A network that answers 200 with the sample collection. *)
Definition sampleNetwork (n : nat) : JsError + Response :=
  inr (mkResponse 200 (inr sampleCollection)).

(** A network that is down. *)
Definition downNetwork (n : nat) : JsError + Response :=
  inl (mkError "TypeError" "Failed to fetch").

Definition noNumber (s : string) : number := NaN.
(** Integers print in decimal. *)
Definition decimal (n : Z) : string := pretty n.

(** A usable, empty storage; and one whose cache entry is [text]. *)
Definition emptyWorld : World := mkWorld (mkStorage ∅ true false) 0 0.

Definition worldWithEntry (text : string) : World :=
  mkWorld (mkStorage {[ CONFIG.cacheKey := text ]} true false) 0 0.


(** [toLowerCase] and [trim] on ASCII text. *)
Definition lowerAscii (c : ascii) : ascii :=
  if inRange "A" "Z" c then ascii_of_nat (nat_of_ascii c + 32) else c.

Fixpoint sampleLower (s : string) : string :=
  match s with
  | EmptyString => EmptyString
  | String c r => String (lowerAscii c) (sampleLower r)
  end.

Fixpoint dropSpaces (s : string) : string :=
  match s with
  | EmptyString => EmptyString
  | String c r => if isSpace (N_of_ascii c) then dropSpaces r else s
  end.

Definition sampleTrim (s : string) : string :=
  String.rev (dropSpaces (String.rev (dropSpaces s))).

(** The markup of a link with a [javascript:] address, and of a
    paragraph with a handler followed by a script element. *)
Definition scriptLink : string :=
  "<a href=" +:+ q "javascript:alert(1)" +:+ ">x</a>".
Definition handlerAndScript : string :=
  "<p onclick=" +:+ q "x()" +:+ ">a</p><script>b()</script>".

(** The fragment parser on these markups. *)
Definition linkParser (html : string) : list node :=
  if String.eqb html scriptLink
  then [Element "a" [("href", "javascript:alert(1)")] [Text "x"]]
  else if String.eqb html handlerAndScript
  then [Element "p" [("onclick", "x()")] [Text "a"]; Element "script" [] [Text "b()"]]
  else if String.eqb html "<p>a</p>"
  then [Element "p" [] [Text "a"]]
  else [].

(** A title that holds double quotes, and an article with it. *)
Definition quotedTitle : string :=
  "Tips" +:+ dq +:+ " onmouseover=" +:+ dq +:+ "alert(1)".
Definition quotedArticle : Article :=
  mkArticle (Some "q1") (Some quotedTitle) (Some "Berita") None None None None None.

(** A storage that cannot be used. *)
Definition lockedWorld : World := mkWorld (mkStorage ∅ false false) 0 0.

(** A [JSON.parse] that reads one envelope whose [data] is a string. *)
Definition oddEnvelope : json := envelope (JStr "oops") 0.
Definition oddParse : string -> option json :=
  parseTable [(sampleStringify oddEnvelope, oddEnvelope)].

(** An article found by its excerpt only. *)
Definition articleA3 : Article :=
  mkArticle (Some "a3") (Some "Kuantum") (Some "Edukasi") (Some "Pengantar fisika modern")
    None None None None.

(** An article whose content is a script element inside a template. *)
Definition templateArticle : Article :=
  mkArticle (Some "t1") (Some "Templat") (Some "Berita") None None None None
    (Some "<template><script>alert(1)</script></template>").

(* ================================================================== *)
(** * Properties *)
(* ================================================================== *)

#[local] Arguments String.append : simpl nomatch.

(** ** Strings *)

Lemma append_assoc (a b c : string) : (a +:+ b) +:+ c = a +:+ b +:+ c.
Proof. induction a as [|x a IH]; simpl; [reflexivity | now rewrite IH]. Qed.

Lemma append_nil_r (a : string) : a +:+ "" = a.
Proof. induction a as [|x a IH]; simpl; [reflexivity | now rewrite IH]. Qed.

Lemma startsWith_spec (s p : string) :
  startsWith s p = true <-> exists b, s = p +:+ b.
Proof.
  revert s. induction p as [|c p IH]; intros s; simpl.
  - split; [intros _; now exists s | reflexivity].
  - destruct s as [|d s].
    + split; [discriminate | intros [b Hb]; discriminate].
    + rewrite andb_true_iff, Ascii.eqb_eq, IH. split.
      * intros [-> [b ->]]. now exists b.
      * intros [b Hb]. injection Hb as -> ->. split; [reflexivity | now exists b].
Qed.

Lemma includes_spec (s p : string) : includes s p = true <-> occurs p s.
Proof.
  unfold occurs. induction s as [|d s IH].
  - simpl. rewrite orb_false_r, startsWith_spec. split.
    + intros [b Hb]. now exists ""%string, b.
    + intros [a [b Hab]]. destruct a; [now exists b | discriminate].
  - cbn [includes]. rewrite orb_true_iff, IH, startsWith_spec. split.
    + intros [[b Hb] | [a [b Hab]]].
      * now exists ""%string, b.
      * exists (String d a), b. simpl. now rewrite Hab.
    + intros [a [b Hab]]. destruct a as [|x a].
      * left. now exists b.
      * right. simpl in Hab. injection Hab as _ ->. now exists a, b.
Qed.

Lemma includes_false (s p : string) : includes s p = false <-> ~ occurs p s.
Proof.
  rewrite <- includes_spec. destruct (includes s p); split; intros H;
    try reflexivity; try discriminate; try (intros ?; discriminate).
  exfalso. now apply H.
Qed.

Lemma occurs_app_l (p s t : string) : occurs p s -> occurs p (s +:+ t).
Proof.
  intros [a [b ->]]. exists a, (b +:+ t). now rewrite !append_assoc.
Qed.

Lemma occurs_app_r (p s t : string) : occurs p t -> occurs p (s +:+ t).
Proof.
  intros [a [b ->]]. exists (s +:+ a), b. now rewrite !append_assoc.
Qed.

Lemma occurs_concat_here (p s : string) (l : list string) :
  occurs p s -> occurs p (concatStr (s :: l)).
Proof. apply occurs_app_l. Qed.

Lemma occurs_concat_skip (p s : string) (l : list string) :
  occurs p (concatStr l) -> occurs p (concatStr (s :: l)).
Proof. apply occurs_app_r. Qed.

(** ** Markup free of [<script] *)

Lemma tagSafe_app (a b : string) :
  tagSafe a = true -> tagSafe b = true -> tagSafe (a +:+ b) = true.
Proof.
  intros Ha Hb. induction a as [|c a IH]; simpl in *; [exact Hb|].
  apply andb_true_iff in Ha as [Hc Ha]. rewrite (IH Ha), andb_true_r.
  destruct (Ascii.eqb c "<"); [|reflexivity].
  destruct a as [|c1 [|c2 a']]; try discriminate. exact Hc.
Qed.

Lemma noLT_tagSafe (s : string) : noLT s = true -> tagSafe s = true.
Proof.
  induction s as [|c s IH]; simpl; [reflexivity|].
  intros H. apply andb_true_iff in H as [Hc Hs].
  rewrite (IH Hs), andb_true_r. now destruct (Ascii.eqb c "<").
Qed.

Lemma noLT_app (a b : string) :
  noLT a = true -> noLT b = true -> noLT (a +:+ b) = true.
Proof.
  intros Ha Hb. induction a as [|c a IH]; simpl in *; [exact Hb|].
  apply andb_true_iff in Ha as [Hc Ha]. now rewrite Hc, (IH Ha).
Qed.

Lemma noLT_not_occurs (s : string) : noLT s = true -> ~ occurs "<" s.
Proof.
  intros H [a [b ->]]. induction a as [|c a IH]; simpl in H.
  - discriminate.
  - apply andb_true_iff in H as [_ H]. auto.
Qed.

Lemma tagSafe_not_occurs (s : string) :
  tagSafe s = true -> ~ occurs "<script" s.
Proof.
  intros H [a [b ->]]. induction a as [|c a IH]; simpl in H.
  - discriminate.
  - apply andb_true_iff in H as [_ H]. auto.
Qed.

Lemma noLT_escapeText (s : string) : noLT (escapeText s) = true.
Proof.
  enough (H : noLT (escapeText s) = true /\
              forall c, noLT (escapeText (String c s)) = true) by apply H.
  induction s as [|d s [IH1 IH2]].
  - split; [reflexivity|]. intros c. simpl.
    destruct (Ascii.eqb c "&"); [reflexivity|].
    destruct (Ascii.eqb c "<") eqn:E; [reflexivity|].
    destruct (Ascii.eqb c ">"); [reflexivity|]. simpl. now rewrite E.
  - split; [apply IH2|]. intros c.
    cbn [escapeText].
    destruct (Ascii.eqb c "&"); [apply noLT_app; [reflexivity | apply IH2]|].
    destruct (Ascii.eqb c "<") eqn:E; [apply noLT_app; [reflexivity | apply IH2]|].
    destruct (Ascii.eqb c ">"); [apply noLT_app; [reflexivity | apply IH2]|].
    destruct (Ascii.eqb c xC2 && Ascii.eqb d xA0);
      [apply noLT_app; [reflexivity | apply IH1]|].
    cbn [noLT]. rewrite E. simpl. apply IH2.
Qed.

Lemma escapeHTML_eq (x : ostring) : escapeHTML x = escapeText (nullish x).
Proof.
  unfold escapeHTML, innerHTML. destruct (nullish x) as [|c s]; [reflexivity|].
  cbn [nonEmpty map concatStr fold_right serializeNode]. apply append_nil_r.
Qed.

Lemma noLT_escapeHTML (x : ostring) : noLT (escapeHTML x) = true.
Proof. rewrite escapeHTML_eq. apply noLT_escapeText. Qed.

Lemma noLT_encodeURIComponent (s : string) : noLT (encodeURIComponent s) = true.
Proof.
  induction s as [|c s IH]; [reflexivity|]. cbn [encodeURIComponent].
  apply noLT_app; [|exact IH].
  destruct (uriUnreserved c) eqn:E.
  - simpl. rewrite andb_true_r. destruct (Ascii.eqb_spec c "<") as [->|]; [|reflexivity].
    discriminate E.
  - unfold percentEncode, hexDigit. cbn [noLT].
    assert (H : forall n, (n < 16)%nat ->
      negb (Ascii.eqb (nth n ["0"; "1"; "2"; "3"; "4"; "5"; "6"; "7"; "8"; "9";
         "A"; "B"; "C"; "D"; "E"; "F"]%char "0"%char) "<") = true).
    { intros n Hn. do 16 (destruct n as [|n]; [reflexivity|]). lia. }
    rewrite !H; [reflexivity | apply Nat.mod_upper_bound; lia |].
    apply Nat.Div0.div_lt_upper_bound. pose proof (nat_ascii_bounded c). lia.
Qed.

Lemma noLT_pretty_N_go (x : N) (s : string) :
  noLT s = true -> noLT (pretty_N_go x s) = true.
Proof.
  revert s. induction (N.lt_wf_0 x) as [x _ IH]; intros s Hs.
  destruct (decide (x = 0%N)) as [->|Hx]; [exact Hs|].
  rewrite pretty_N_go_step by lia. apply IH; [apply N.div_lt; lia|].
  cbn [noLT]. rewrite Hs, andb_true_r.
  unfold pretty_N_char. now repeat case_match.
Qed.

Lemma noLT_pretty_nat (n : nat) : noLT (pretty n) = true.
Proof.
  unfold pretty, pretty_nat, pretty, pretty_N.
  case_decide; [reflexivity | now apply noLT_pretty_N_go].
Qed.

Lemma tagSafe_concat_cons (s : string) (l : list string) :
  tagSafe s = true -> tagSafe (concatStr l) = true ->
  tagSafe (concatStr (s :: l)) = true.
Proof. apply tagSafe_app. Qed.

(** Closes [tagSafe s = true] for a template: along its concatenations,
    with the interpolated parts free of [<]. *)
Ltac tag_safe :=
  repeat first
    [ assumption
    | apply noLT_tagSafe;
      first [ apply noLT_escapeHTML | apply noLT_encodeURIComponent
            | apply noLT_pretty_nat ]
    | apply tagSafe_concat_cons
    | apply tagSafe_app
    | reflexivity ].

(** An occurrence of [<script] in [c +:+ T] lies in [c] when [T] has none
    and starts with a line feed. *)
Lemma occurs_script_before (T : string) :
  tagSafe T = true -> startsWith T nl = true ->
  forall c a b, c +:+ T = a +:+ "<script" +:+ b -> occurs "<script" c.
Proof.
  intros HT Hnl. apply startsWith_spec in Hnl as [T' HT'].
  induction c as [|x c IH]; intros a b E.
  - exfalso. apply (tagSafe_not_occurs T HT). now exists a, b.
  - destruct a as [|a0 a].
    + simpl in E. injection E as -> E.
      destruct c as [|y1 c]; [subst T; discriminate E|]. injection E as -> E.
      destruct c as [|y2 c]; [subst T; discriminate E|]. injection E as -> E.
      destruct c as [|y3 c]; [subst T; discriminate E|]. injection E as -> E.
      destruct c as [|y4 c]; [subst T; discriminate E|]. injection E as -> E.
      destruct c as [|y5 c]; [subst T; discriminate E|]. injection E as -> E.
      destruct c as [|y6 c]; [subst T; discriminate E|]. injection E as -> E.
      now exists ""%string, c.
    + simpl in E. injection E as _ E.
      apply (occurs_app_r _ (String x "") c). now apply (IH a b).
Qed.

(** An occurrence of [<script] in [H +:+ c +:+ T] lies in [c] when [H]
    and [T] have none and [T] starts with a line feed. *)
Lemma occurs_script_between (H c T : string) :
  tagSafe H = true -> tagSafe T = true -> startsWith T nl = true ->
  occurs "<script" (H +:+ c +:+ T) -> occurs "<script" c.
Proof.
  intros HH HT Hnl [a [b E]]. revert a E.
  induction H as [|h H IH]; intros a E.
  - now apply (occurs_script_before T HT Hnl c a b).
  - simpl in HH. apply andb_true_iff in HH as [Hh HH].
    destruct a as [|a0 a].
    + exfalso. simpl in E. injection E as -> E. simpl in Hh.
      destruct H as [|c1 [|c2 H']]; try discriminate Hh.
      simpl in E. injection E as -> -> _. discriminate Hh.
    + simpl in E. injection E as _ E. now apply (IH HH a).
Qed.

Lemma includes_between (H c T : string) :
  tagSafe H = true -> tagSafe T = true -> startsWith T nl = true ->
  includes (H +:+ c +:+ T) "<script" = includes c "<script".
Proof.
  intros HH HT Hnl. destruct (includes c "<script") eqn:E.
  - apply includes_spec. apply occurs_app_r, occurs_app_l.
    now apply includes_spec.
  - apply includes_false. intros Ho.
    apply (occurs_script_between H c T HH HT Hnl) in Ho.
    apply includes_spec in Ho. congruence.
Qed.

Lemma concatStr_app (l1 l2 : list string) :
  concatStr (l1 ++ l2) = concatStr l1 +:+ concatStr l2.
Proof.
  induction l1 as [|s l1 IH]; [reflexivity|].
  cbn [app concatStr fold_right]. fold (concatStr (l1 ++ l2)).
  fold (concatStr l1). now rewrite IH, append_assoc.
Qed.

(** A list of lines cut at the line that holds [c]. *)
Lemma concatStr_split (k : nat) (L : list string) (p c s : string) :
  nth_error L k = Some (p +:+ c +:+ s) ->
  concatStr L =
  (concatStr (firstn k L) +:+ p) +:+ c +:+ (s +:+ concatStr (skipn (S k) L)).
Proof.
  intros Hk. rewrite <- (firstn_skipn k L) at 1.
  rewrite concatStr_app.
  assert (Hs : skipn k L = (p +:+ c +:+ s) :: skipn (S k) L).
  { clear - Hk. revert L Hk. induction k as [|k IH]; intros [|x L] Hk;
      try discriminate Hk.
    - simpl in Hk. injection Hk as ->. reflexivity.
    - simpl in Hk. apply (IH L Hk). }
  rewrite Hs. cbn [concatStr fold_right]. fold (concatStr (skipn (S k) L)).
  now rewrite !append_assoc.
Qed.

Section RenderingProperties.

Variable toLocaleDateString : string -> JsError + string.
Variable parseHTML : string -> list node.
Variable formView : string -> list nat -> FormView.

Lemma tagSafe_cardCoverHTML (article : Article) :
  tagSafe (cardCoverHTML article) = true.
Proof. unfold cardCoverHTML. destruct (truthyStr (cover article)); tag_safe. Qed.

Lemma tagSafe_detailCoverHTML (article : Article) :
  tagSafe (detailCoverHTML article) = true.
Proof. unfold detailCoverHTML. destruct (truthyStr (cover article)); tag_safe. Qed.

Lemma tagSafe_generateCardHTML (article : Article) :
  tagSafe (generateCardHTML toLocaleDateString article) = true.
Proof.
  unfold generateCardHTML. pose proof (tagSafe_cardCoverHTML article).
  cbv zeta. tag_safe.
Qed.

Lemma includes_detailTemplate (article : Article) (readingTime : nat) (c : string) :
  includes
    (detailTemplate toLocaleDateString article (detailCoverHTML article) readingTime c)
    "<script"
  = includes c "<script".
Proof.
  unfold detailTemplate. pose proof (tagSafe_detailCoverHTML article).
  rewrite (concatStr_split 30 _ "          " c nl) by reflexivity.
  apply includes_between.
  - cbn [firstn]. tag_safe.
  - cbn [skipn]. tag_safe.
  - reflexivity.
Qed.

(** C2. For every article record, whatever its title, topic, excerpt,
    author, date and cover hold (the value [<script>alert(1)</script>]
    included): an escaped field holds no [<] at all; the markup of
    [generateCardHTML] holds no [<script]; the template of
    [generateDetailHTML] holds [<script] exactly when the sanitized
    content placed in it does, so no [<script] of the detail markup comes
    from an escaped field; and [generateDetailHTML] returns markup
    exactly when [sanitizeHTML] returns, and throws what it throws. *)
Theorem escaped_fields_emit_no_script_tag (article : Article) :
  (forall x : ostring, includes (escapeHTML x) "<" = false) /\
  includes (generateCardHTML toLocaleDateString article) "<script" = false /\
  (forall (readingTime : nat) (c : string),
     includes
       (detailTemplate toLocaleDateString article (detailCoverHTML article)
          readingTime c) "<script"
     = includes c "<script") /\
  match generateDetailHTML toLocaleDateString parseHTML formView article,
        sanitizeHTML parseHTML formView
          (orElse (content article) "<p>Konten tidak tersedia.</p>") with
  | inr html, inr sanitizedContent =>
      includes html "<script" = includes sanitizedContent "<script"
  | inl error, inl error' => error = error'
  | _, _ => False
  end.
Proof.
  split; [|split; [|split]].
  - intros x. apply includes_false, noLT_not_occurs, noLT_escapeHTML.
  - apply includes_false, tagSafe_not_occurs, tagSafe_generateCardHTML.
  - intros readingTime c. apply includes_detailTemplate.
  - unfold generateDetailHTML. cbv zeta.
    destruct (sanitizeHTML parseHTML formView
                (orElse (content article) "<p>Konten tidak tersedia.</p>"))
      as [error | sanitizedContent]; [reflexivity|].
    apply includes_detailTemplate.
Qed.

Lemma detailTemplate_onclick (article : Article) (readingTime : nat) (c : string) :
  includes
    (detailTemplate toLocaleDateString article (detailCoverHTML article) readingTime c)
    "onclick=" = true /\
  occurs (" onclick=" +:+ q "window.print(); return false;")
    (detailTemplate toLocaleDateString article (detailCoverHTML article) readingTime c) /\
  occurs
    ("onclick=" +:+ dq +:+ "navigator.share?.({title: '" +:+ escapeHTML (title article)
       +:+ "', url: window.location.href}); return false;" +:+ dq)
    (detailTemplate toLocaleDateString article (detailCoverHTML article) readingTime c).
Proof.
  unfold detailTemplate.
  split; [|split].
  - apply includes_spec. do 56 apply occurs_concat_skip.
    apply occurs_concat_here. apply includes_spec. reflexivity.
  - do 56 apply occurs_concat_skip.
    apply occurs_concat_here. apply includes_spec. reflexivity.
  - do 58 apply occurs_concat_skip.
    apply occurs_concat_here.
    exists "             "%string, (">" +:+ nl).
    rewrite !append_assoc. reflexivity.
Qed.

(** C10. The markup of [generateDetailHTML] always holds inline event
    handlers: the template holds the [onclick] attribute of the print
    link and the one of the share link, whatever the article is and
    whatever the sanitizer returned for its content, and so does the
    markup [generateDetailHTML] returns; [generateDetailHTML] gives no
    markup only when the sanitizer throws. *)
Theorem detail_markup_has_onclick_handlers (article : Article) :
  (forall (readingTime : nat) (sanitizedContent : string),
     includes
       (detailTemplate toLocaleDateString article (detailCoverHTML article)
          readingTime sanitizedContent) "onclick=" = true) /\
  match generateDetailHTML toLocaleDateString parseHTML formView article with
  | inr html =>
      includes html "onclick=" = true /\
      occurs (" onclick=" +:+ q "window.print(); return false;") html /\
      occurs
        ("onclick=" +:+ dq +:+ "navigator.share?.({title: '"
           +:+ escapeHTML (title article)
           +:+ "', url: window.location.href}); return false;" +:+ dq)
        html
  | inl error =>
      sanitizeHTML parseHTML formView
        (orElse (content article) "<p>Konten tidak tersedia.</p>") = inl error
  end.
Proof.
  split; [intros readingTime c; apply detailTemplate_onclick|].
  unfold generateDetailHTML. cbv zeta.
  destruct (sanitizeHTML parseHTML formView
              (orElse (content article) "<p>Konten tidak tersedia.</p>"))
    as [error | sanitizedContent]; [reflexivity|].
  apply detailTemplate_onclick.
Qed.

End RenderingProperties.

(** An article whose six escaped fields hold a script element: the card
    and the detail markup hold the escaped text and no [<script]. *)
Example markup_of_scripted_article :
  includes (generateCardHTML sampleDate scriptedArticle) "<script" = false /\
  includes (generateCardHTML sampleDate scriptedArticle)
    "&lt;script&gt;alert(1)&lt;/script&gt;" = true /\
  match generateDetailHTML sampleDate sampleParser noShadow scriptedArticle with
  | inr html =>
      includes html "<script" = false /\
      includes html "&lt;script&gt;alert(1)&lt;/script&gt;" = true
  | inl _ => False
  end.
Proof. repeat split; vm_compute; reflexivity. Qed.

(** ** The sanitizer *)

(** Induction over nodes, with the hypothesis for every child. *)
Lemma node_forall_ind (P : node -> Prop) :
  (forall d, P (Text d)) ->
  (forall d, P (Comment d)) ->
  (forall tag attrs children, Forall P children -> P (Element tag attrs children)) ->
  (forall attrs contents, Forall P contents -> P (Template attrs contents)) ->
  forall n, P n.
Proof.
  intros HT HC HE HTe.
  fix IH 1. intros [d | d | tag attrs children | attrs contents].
  - apply HT.
  - apply HC.
  - apply HE. induction children as [|c cs IHcs]; constructor; [apply IH | exact IHcs].
  - apply HTe. induction contents as [|c cs IHcs]; constructor; [apply IH | exact IHcs].
Qed.

Lemma existsb_flat_map_false {A B : Type} (f : B -> bool) (g : A -> list B) (l : list A) :
  Forall (fun a => existsb f (g a) = false) l ->
  existsb f (flat_map g l) = false.
Proof.
  induction 1 as [|a l Ha _ IH]; [reflexivity|].
  cbn [flat_map]. now rewrite existsb_app, Ha, IH.
Qed.

Lemma existsb_map_false {A B : Type} (f : B -> bool) (g : A -> B) (l : list A) :
  Forall (fun a => f (g a) = false) l -> existsb f (map g l) = false.
Proof.
  induction 1 as [|a l Ha _ IH]; [reflexivity|].
  cbn [map existsb]. now rewrite Ha, IH.
Qed.

Lemma existsb_handler_filter (attrs : list (string * string)) :
  existsb isHandler (List.filter keepsAttr attrs) = false.
Proof.
  induction attrs as [|a attrs IH]; [reflexivity|].
  cbn [List.filter]. unfold keepsAttr at 1. fold (isHandler a).
  destruct (isHandler a) eqn:E; cbn [negb]; [exact IH|].
  cbn [existsb]. now rewrite E, IH.
Qed.

Lemma filter_keepsAttr_idem (attrs : list (string * string)) :
  List.filter keepsAttr (List.filter keepsAttr attrs) = List.filter keepsAttr attrs.
Proof.
  induction attrs as [|a attrs IH]; [reflexivity|].
  cbn [List.filter]. destruct (keepsAttr a) eqn:E; [|exact IH].
  cbn [List.filter]. now rewrite E, IH.
Qed.

(** After the first pass no script element is left in the child-node
    tree. *)
Lemma removeScripts_childScript (n : node) :
  existsb childScript (removeScripts n) = false.
Proof.
  induction n as [d | d | tag attrs children IH | attrs contents _] using node_forall_ind;
    try reflexivity.
  cbn [removeScripts]. destruct (String.eqb tag "script") eqn:E; [reflexivity|].
  cbn [existsb childScript]. rewrite E, orb_false_r. cbn [orb].
  now apply existsb_flat_map_false.
Qed.

Lemma plainRemoveHandlers_childScript (n : node) :
  childScript (plainRemoveHandlers n) = childScript n.
Proof.
  induction n as [d | d | tag attrs children IH | attrs contents _] using node_forall_ind;
    try reflexivity.
  cbn [plainRemoveHandlers childScript]. f_equal.
  induction IH as [|c cs Hc _ IHcs]; [reflexivity|].
  cbn [map existsb]. now rewrite Hc, IHcs.
Qed.

Lemma plainRemoveHandlers_childHandler (n : node) :
  childHandler (plainRemoveHandlers n) = false.
Proof.
  induction n as [d | d | tag attrs children IH | attrs contents _] using node_forall_ind;
    try reflexivity.
  - cbn [plainRemoveHandlers childHandler]. rewrite existsb_handler_filter. cbn [orb].
    now apply existsb_map_false.
  - cbn [plainRemoveHandlers childHandler]. apply existsb_handler_filter.
Qed.

(** When nothing is shadowed, the sanitized child-node tree holds no
    script element and no attribute whose name starts with [on]. *)
Lemma plainSanitizeDOM_child_tree_clean (children : list node) :
  existsb childScript (plainSanitizeDOM children) = false /\
  existsb childHandler (plainSanitizeDOM children) = false.
Proof.
  unfold plainSanitizeDOM. split.
  - assert (H : existsb childScript (flat_map removeScripts children) = false).
    { apply existsb_flat_map_false, Forall_forall. intros n _.
      apply removeScripts_childScript. }
    induction (flat_map removeScripts children) as [|n l IH]; [reflexivity|].
    cbn [map existsb] in *. rewrite plainRemoveHandlers_childScript.
    apply orb_false_iff in H as [-> H]. now apply IH.
  - apply existsb_map_false, Forall_forall. intros n _.
    apply plainRemoveHandlers_childHandler.
Qed.

Lemma removeScripts_clean (n : node) :
  childScript n = false -> removeScripts n = [n].
Proof.
  induction n as [d | d | tag attrs children IH | attrs contents _] using node_forall_ind;
    try reflexivity.
  cbn [childScript removeScripts]. intros H.
  apply orb_false_iff in H as [-> H]. do 2 f_equal.
  induction IH as [|c cs Hc _ IHcs]; [reflexivity|].
  cbn [existsb] in H. apply orb_false_iff in H as [H1 H2].
  cbn [flat_map]. now rewrite (Hc H1), (IHcs H2).
Qed.

Lemma plainRemoveHandlers_idem (n : node) :
  plainRemoveHandlers (plainRemoveHandlers n) = plainRemoveHandlers n.
Proof.
  induction n as [d | d | tag attrs children IH | attrs contents _] using node_forall_ind;
    try reflexivity.
  - cbn [plainRemoveHandlers]. rewrite filter_keepsAttr_idem. f_equal.
    induction IH as [|c cs Hc _ IHcs]; [reflexivity|].
    cbn [map]. now rewrite Hc, IHcs.
  - cbn [plainRemoveHandlers]. now rewrite filter_keepsAttr_idem.
Qed.

(** The two passes, applied to their own result, change nothing when
    nothing is shadowed. *)
Lemma plainSanitizeDOM_idempotent (children : list node) :
  plainSanitizeDOM (plainSanitizeDOM children) = plainSanitizeDOM children.
Proof.
  destruct (plainSanitizeDOM_child_tree_clean children) as [Hs _].
  unfold plainSanitizeDOM at 1.
  assert (H : flat_map removeScripts (plainSanitizeDOM children) = plainSanitizeDOM children).
  { induction (plainSanitizeDOM children) as [|n l IH]; [reflexivity|].
    cbn [existsb] in Hs. apply orb_false_iff in Hs as [H1 H2].
    cbn [flat_map]. now rewrite (removeScripts_clean n H1), (IH H2). }
  rewrite H. unfold plainSanitizeDOM. rewrite map_map.
  apply map_ext. intros n. apply plainRemoveHandlers_idem.
Qed.


Lemma existsb_ext_Forall {A : Type} (f g : A -> bool) (l : list A) :
  Forall (fun a => f a = g a) l -> existsb f l = existsb g l.
Proof.
  induction 1 as [|a l Ha _ IH]; [reflexivity|].
  cbn [existsb]. now rewrite Ha, IH.
Qed.

Lemma existsb_false_Forall {A : Type} (f : A -> bool) (l : list A) :
  existsb f l = false <-> Forall (fun a => f a = false) l.
Proof.
  induction l as [|a l IH]; [split; [constructor | reflexivity]|].
  cbn [existsb]. rewrite orb_false_iff, IH. split.
  - intros [H1 H2]. now constructor.
  - intros H. inversion H; subst. now split.
Qed.

Lemma Forall_impl_hyp {A : Type} (P Q : A -> Prop) (l : list A) :
  Forall (fun a => P a -> Q a) l -> Forall P l -> Forall Q l.
Proof.
  induction 1 as [|a l Ha _ IH]; intros H; inversion H; subst; constructor; auto.
Qed.

(** Outside templates the two views of a tree agree. *)
Lemma hasScript_without_template (n : node) :
  hasTemplate n = false -> hasScript n = childScript n.
Proof.
  induction n as [d | d | tag attrs children IH | attrs contents _] using node_forall_ind;
    try reflexivity; [|discriminate].
  cbn [hasTemplate hasScript childScript]. intros H. f_equal.
  apply existsb_ext_Forall. apply existsb_false_Forall in H.
  exact (Forall_impl_hyp _ _ _ IH H).
Qed.

Lemma hasHandler_without_template (n : node) :
  hasTemplate n = false -> hasHandler n = childHandler n.
Proof.
  induction n as [d | d | tag attrs children IH | attrs contents _] using node_forall_ind;
    try reflexivity; [|discriminate].
  cbn [hasTemplate hasHandler childHandler]. intros H. f_equal.
  apply existsb_ext_Forall. apply existsb_false_Forall in H.
  exact (Forall_impl_hyp _ _ _ IH H).
Qed.

Lemma removeScripts_hasTemplate (n : node) :
  hasTemplate n = false -> existsb hasTemplate (removeScripts n) = false.
Proof.
  induction n as [d | d | tag attrs children IH | attrs contents _] using node_forall_ind;
    try reflexivity; [|discriminate].
  cbn [hasTemplate removeScripts]. intros H.
  destruct (String.eqb tag "script"); [reflexivity|].
  cbn [existsb hasTemplate]. rewrite orb_false_r.
  apply existsb_flat_map_false. apply existsb_false_Forall in H.
  exact (Forall_impl_hyp _ _ _ IH H).
Qed.

Lemma plainRemoveHandlers_hasTemplate (n : node) :
  hasTemplate (plainRemoveHandlers n) = hasTemplate n.
Proof.
  induction n as [d | d | tag attrs children IH | attrs contents _] using node_forall_ind;
    try reflexivity.
  cbn [plainRemoveHandlers hasTemplate].
  induction IH as [|c cs Hc _ IHcs]; [reflexivity|].
  cbn [map existsb]. now rewrite Hc, IHcs.
Qed.

Lemma plainSanitizeDOM_hasTemplate (children : list node) :
  existsb hasTemplate children = false ->
  existsb hasTemplate (plainSanitizeDOM children) = false.
Proof.
  intros H. unfold plainSanitizeDOM.
  assert (H1 : existsb hasTemplate (flat_map removeScripts children) = false).
  { apply existsb_flat_map_false. apply existsb_false_Forall in H.
    eapply Forall_impl; [exact H|]. intros n. apply removeScripts_hasTemplate. }
  apply existsb_map_false. apply existsb_false_Forall in H1.
  eapply Forall_impl; [exact H1|]. intros n Hn.
  now rewrite plainRemoveHandlers_hasTemplate.
Qed.

Lemma filter_keepsAttr_clean (attrs : list (string * string)) :
  existsb isHandler attrs = false -> List.filter keepsAttr attrs = attrs.
Proof.
  induction attrs as [|a attrs IH]; [reflexivity|].
  cbn [existsb List.filter]. intros H. apply orb_false_iff in H as [H1 H2].
  unfold keepsAttr at 1. fold (isHandler a). rewrite H1. cbn [negb].
  now rewrite (IH H2).
Qed.

Lemma plainRemoveHandlers_clean (n : node) :
  childHandler n = false -> plainRemoveHandlers n = n.
Proof.
  induction n as [d | d | tag attrs children IH | attrs contents _] using node_forall_ind;
    try reflexivity.
  - cbn [childHandler plainRemoveHandlers]. intros H.
    apply orb_false_iff in H as [H1 H2].
    rewrite (filter_keepsAttr_clean _ H1). f_equal.
    induction IH as [|c cs Hc _ IHcs]; [reflexivity|].
    cbn [existsb] in H2. apply orb_false_iff in H2 as [H3 H4].
    cbn [map]. now rewrite (Hc H3), (IHcs H4).
  - cbn [childHandler plainRemoveHandlers]. intros H.
    now rewrite (filter_keepsAttr_clean _ H).
Qed.

Lemma plainSanitizeDOM_clean (children : list node) :
  existsb childScript children = false ->
  existsb childHandler children = false ->
  plainSanitizeDOM children = children.
Proof.
  intros Hs Hh. unfold plainSanitizeDOM.
  assert (H : flat_map removeScripts children = children).
  { clear Hh. induction children as [|n l IH]; [reflexivity|].
    cbn [existsb] in Hs. apply orb_false_iff in Hs as [H1 H2].
    cbn [flat_map]. now rewrite (removeScripts_clean n H1), (IH H2). }
  rewrite H. clear H Hs.
  induction children as [|n l IH]; [reflexivity|].
  cbn [existsb] in Hh. apply orb_false_iff in Hh as [H1 H2].
  cbn [map]. now rewrite (plainRemoveHandlers_clean n H1), (IH H2).
Qed.

(** *** The second pass on one element *)

Lemma filter_all {A : Type} (f : A -> bool) (l : list A) :
  (forall a, In a l -> f a = true) -> List.filter f l = l.
Proof.
  induction l as [|x l IH]; intros H; [reflexivity|].
  cbn [List.filter]. rewrite (H x (or_introl eq_refl)). f_equal.
  apply IH. intros a Ha. apply H. now right.
Qed.

Lemma filter_twice {A : Type} (f g : A -> bool) (l : list A) :
  List.filter f (List.filter g l) = List.filter (fun a => g a && f a) l.
Proof.
  induction l as [|x l IH]; [reflexivity|].
  cbn [List.filter]. destruct (g x); cbn [andb List.filter]; [|exact IH].
  destruct (f x); now rewrite IH.
Qed.

(** The loop returns for one attribute list exactly when it does for
    every other, and what it returns is the list without the attributes
    it names. *)
Lemma forEachAttr_returns (view : FormView) (items : list (JsError + string))
    (attrs attrs' : list (string * string)) :
  forEachAttr view items attrs = inr attrs' ->
  forall other, forEachAttr view items other = inr (List.filter (survives items) other).
Proof.
  revert attrs attrs'. induction items as [|[error | name] items IH];
    intros attrs attrs' H other; cbn [forEachAttr survives] in *.
  - f_equal. symmetry. now apply filter_all.
  - discriminate H.
  - destruct (startsWith name "on").
    + destruct (shadowedRemoveAttribute view); [discriminate H|].
      rewrite (IH _ _ H (removeAttribute name other)). unfold removeAttribute.
      now rewrite filter_twice.
    + now rewrite (IH _ _ H other).
Qed.

Lemma forEachAttr_result (view : FormView) (items : list (JsError + string))
    (attrs attrs' : list (string * string)) :
  forEachAttr view items attrs = inr attrs' -> attrs' = List.filter (survives items) attrs.
Proof.
  intros H. pose proof (forEachAttr_returns _ _ _ _ H attrs) as H'. congruence.
Qed.

(** An attribute whose name does not start with [on] survives every
    loop. *)
Lemma survives_other (items : list (JsError + string)) (a : string * string) :
  isHandler a = false -> survives items a = true.
Proof.
  intros Ha. induction items as [|[error | name] items IH]; cbn [survives];
    try reflexivity.
  rewrite IH, andb_true_r.
  destruct (startsWith name "on") eqn:E; [|reflexivity].
  destruct (String.eqb_spec (fst a) name) as [<-|]; [|reflexivity].
  unfold isHandler in Ha. congruence.
Qed.

(** An attribute whose name starts with [on] does not survive the loop
    over the names of a list that holds it. *)
Lemma survives_own (l : list (string * string)) (a : string * string) :
  In a l -> isHandler a = true ->
  survives (map (fun x => inr (fst x)) l) a = false.
Proof.
  intros Hin Ha. induction l as [|x l IH]; [destruct Hin|].
  cbn [map survives]. destruct Hin as [-> | Hin].
  - unfold isHandler in Ha. now rewrite Ha, String.eqb_refl.
  - rewrite (IH Hin). apply andb_false_r.
Qed.

Lemma forEachAttr_plain (items : list (string * string))
    (attrs : list (string * string)) :
  forEachAttr plainView (map (fun x => inr (fst x)) items) attrs
  = inr (List.filter (survives (map (fun x => inr (fst x)) items)) attrs).
Proof.
  revert attrs. induction items as [|x items IH]; intros attrs;
    cbn [map forEachAttr survives].
  - f_equal. symmetry. now apply filter_all.
  - destruct (startsWith (fst x) "on"); cbn [shadowedRemoveAttribute plainView].
    + rewrite IH. unfold removeAttribute. now rewrite filter_twice.
    + now rewrite IH.
Qed.

(** With nothing shadowed the callback removes the attributes whose
    names start with [on], and no other. *)
Lemma removeHandlersOf_plain (attrs : list (string * string)) :
  removeHandlersOf plainView attrs = inr (List.filter keepsAttr attrs).
Proof.
  unfold removeHandlersOf. cbn [shadowedAttributes plainView].
  rewrite forEachAttr_plain. f_equal. apply filter_ext_in. intros a Ha.
  unfold keepsAttr. fold (isHandler a). destruct (isHandler a) eqn:E; cbn [negb].
  - now apply survives_own.
  - now apply survives_other.
Qed.

(** Whatever is shadowed, the callback leaves an attribute list without
    handlers as it is, when it returns. *)
Lemma removeHandlersOf_clean (view : FormView) (attrs attrs' : list (string * string)) :
  existsb isHandler attrs = false ->
  removeHandlersOf view attrs = inr attrs' -> attrs' = attrs.
Proof.
  intros Hc H. apply forEachAttr_result in H. rewrite H.
  apply filter_all. intros a Ha. apply survives_other.
  apply existsb_false_Forall in Hc. rewrite List.Forall_forall in Hc. now apply Hc.
Qed.

(** The callback, applied to what it returned, returns it again. *)
Lemma removeHandlersOf_again (view : FormView) (attrs attrs' : list (string * string)) :
  removeHandlersOf view attrs = inr attrs' -> removeHandlersOf view attrs' = inr attrs'.
Proof.
  unfold removeHandlersOf. destruct (shadowedAttributes view) as [items|] eqn:Es.
  - intros H. rewrite (forEachAttr_returns _ _ _ _ H attrs').
    apply forEachAttr_result in H. subst attrs'.
    rewrite filter_twice. f_equal. apply filter_ext. intros a.
    now destruct (survives items a).
  - intros H.
    assert (Hk : attrs' = List.filter keepsAttr attrs).
    { apply forEachAttr_result in H. rewrite H. apply filter_ext_in. intros a Ha.
      unfold keepsAttr. fold (isHandler a). destruct (isHandler a) eqn:E; cbn [negb].
      - now apply survives_own.
      - now apply survives_other. }
    assert (Hn : forall l : list (string * string),
               existsb isHandler l = false ->
               forall other,
                 forEachAttr view (map (fun x => inr (fst x)) l) other = inr other).
    { induction l as [|x l IHl]; intros Hl other; [reflexivity|].
      cbn [existsb] in Hl. apply orb_false_iff in Hl as [Hx Hl].
      cbn [map forEachAttr]. unfold isHandler in Hx. rewrite Hx. now apply IHl. }
    apply Hn. rewrite Hk. apply existsb_handler_filter.
Qed.

(** *** The second pass on a tree *)

Section TraverseProperties.

Context {A B : Type}.

Lemma traverse_map (f : nat -> A -> JsError + B) (g : A -> B) (i : nat) (l : list A) :
  (forall j x, In x l -> f j x = inr (g x)) -> traverse f i l = inr (map g l).
Proof.
  revert i. induction l as [|x l IH]; intros i H; [reflexivity|].
  cbn [traverse map]. rewrite (H i x (or_introl eq_refl)).
  rewrite (IH (S i)); [reflexivity|]. intros j y Hy. apply H. now right.
Qed.

Lemma traverse_Forall2 (f : nat -> A -> JsError + B) (i : nat) (l : list A)
    (l' : list B) :
  traverse f i l = inr l' -> Forall2 (fun x y => exists j, f j x = inr y) l l'.
Proof.
  revert i l'. induction l as [|x l IH]; intros i l' H; cbn [traverse] in H.
  - injection H as <-. constructor.
  - destruct (f i x) as [e|y] eqn:Ef; [discriminate H|].
    destruct (traverse f (S i) l) as [e|ys] eqn:Et; [discriminate H|].
    injection H as <-. constructor; [now exists i | now apply (IH (S i))].
Qed.

Lemma traverse_ext (f g : nat -> A -> JsError + B) (i : nat) (l : list A) :
  (forall j x, In x l -> f j x = g j x) -> traverse f i l = traverse g i l.
Proof.
  revert i. induction l as [|x l IH]; intros i H; [reflexivity|].
  cbn [traverse]. rewrite (H i x (or_introl eq_refl)).
  rewrite (IH (S i)); [reflexivity|]. intros j y Hy. apply H. now right.
Qed.

End TraverseProperties.

Lemma traverse_again {A : Type} (f : nat -> A -> JsError + A) (i : nat) (l l' : list A) :
  (forall j x y, In x l -> f j x = inr y -> f j y = inr y) ->
  traverse f i l = inr l' -> traverse f i l' = inr l'.
Proof.
  revert i l'. induction l as [|x l IH]; intros i l' Hf H; cbn [traverse] in H.
  - injection H as <-. reflexivity.
  - destruct (f i x) as [e|y] eqn:Ef; [discriminate H|].
    destruct (traverse f (S i) l) as [e|ys] eqn:Et; [discriminate H|].
    injection H as <-. cbn [traverse].
    rewrite (Hf i x y (or_introl eq_refl) Ef).
    rewrite (IH (S i) ys); [reflexivity | | exact Et].
    intros j a b Ha. apply Hf. now right.
Qed.

Lemma hasForm_removeScripts (n : node) :
  hasForm n = false -> existsb hasForm (removeScripts n) = false.
Proof.
  induction n as [d | d | tag attrs children IH | attrs contents _] using node_forall_ind;
    try reflexivity.
  cbn [hasForm removeScripts]. intros H. apply orb_false_iff in H as [Ht H].
  destruct (String.eqb tag "script"); [reflexivity|].
  cbn [existsb hasForm]. rewrite Ht, orb_false_r. cbn [orb].
  apply existsb_flat_map_false. apply existsb_false_Forall in H.
  exact (Forall_impl_hyp _ _ _ IH H).
Qed.

(** With no [form] element in the tree, or a browser that shows none of
    them shadowed, the second pass returns, and what it returns is the
    tree without its handlers. *)
Lemma removeHandlers_plain (view : list nat -> FormView) (n : node) :
  forall path,
    hasForm n = false \/ (forall p, view p = plainView) ->
    removeHandlers view path n = inr (plainRemoveHandlers n).
Proof.
  induction n as [d | d | tag attrs children IH | attrs contents _] using node_forall_ind;
    intros path H; try reflexivity.
  - cbn [removeHandlers plainRemoveHandlers].
    assert (Hv : (if String.eqb tag "form" then view path else plainView) = plainView).
    { destruct (String.eqb tag "form") eqn:Et; [|reflexivity].
      destruct H as [H | H]; [|apply H].
      cbn [hasForm] in H. rewrite Et in H. discriminate H. }
    rewrite Hv, removeHandlersOf_plain.
    rewrite (traverse_map _ plainRemoveHandlers); [reflexivity|].
    intros j c Hc. rewrite List.Forall_forall in IH. apply (IH c Hc).
    destruct H as [H | H]; [left | now right].
    cbn [hasForm] in H. apply orb_false_iff in H as [_ H].
    apply existsb_false_Forall in H. rewrite List.Forall_forall in H. now apply H.
  - cbn [removeHandlers plainRemoveHandlers]. now rewrite removeHandlersOf_plain.
Qed.

(** The second pass changes nothing outside attribute lists: the script
    elements and the templates of the tree are those it had. *)
Lemma removeHandlers_childScript (view : list nat -> FormView) (n : node) :
  forall path n', removeHandlers view path n = inr n' -> childScript n' = childScript n.
Proof.
  induction n as [d | d | tag attrs children IH | attrs contents _] using node_forall_ind;
    intros path n' H; cbn [removeHandlers] in H;
    try (injection H as <-; reflexivity).
  - destruct (removeHandlersOf _ attrs) as [e|attrs']; [discriminate H|].
    destruct (traverse _ 0%nat children) as [e|children'] eqn:Et; [discriminate H|].
    injection H as <-. cbn [childScript]. f_equal.
    apply traverse_Forall2 in Et.
    induction Et as [|c c' cs cs' [j Hj] _ IHcs]; [reflexivity|].
    inversion IH as [|? ? Hc Hcs]; subst.
    cbn [existsb]. now rewrite (Hc _ _ Hj), (IHcs Hcs).
  - destruct (removeHandlersOf plainView attrs) as [e|attrs']; [discriminate H|].
    injection H as <-. reflexivity.
Qed.

Lemma removeHandlers_hasTemplate (view : list nat -> FormView) (n : node) :
  forall path n', removeHandlers view path n = inr n' -> hasTemplate n' = hasTemplate n.
Proof.
  induction n as [d | d | tag attrs children IH | attrs contents _] using node_forall_ind;
    intros path n' H; cbn [removeHandlers] in H;
    try (injection H as <-; reflexivity).
  - destruct (removeHandlersOf _ attrs) as [e|attrs']; [discriminate H|].
    destruct (traverse _ 0%nat children) as [e|children'] eqn:Et; [discriminate H|].
    injection H as <-. cbn [hasTemplate].
    apply traverse_Forall2 in Et.
    induction Et as [|c c' cs cs' [j Hj] _ IHcs]; [reflexivity|].
    inversion IH as [|? ? Hc Hcs]; subst.
    cbn [existsb]. now rewrite (Hc _ _ Hj), (IHcs Hcs).
  - destruct (removeHandlersOf plainView attrs) as [e|attrs']; [discriminate H|].
    injection H as <-. reflexivity.
Qed.

(** A tree without handlers comes back as it is, when the pass
    returns. *)
Lemma removeHandlers_clean (view : list nat -> FormView) (n : node) :
  forall path n',
    childHandler n = false -> removeHandlers view path n = inr n' -> n' = n.
Proof.
  induction n as [d | d | tag attrs children IH | attrs contents _] using node_forall_ind;
    intros path n' Hc H; cbn [removeHandlers] in H;
    try (injection H as <-; reflexivity).
  - cbn [childHandler] in Hc. apply orb_false_iff in Hc as [Ha Hc].
    destruct (removeHandlersOf _ attrs) as [e|attrs'] eqn:Eo; [discriminate H|].
    destruct (traverse _ 0%nat children) as [e|children'] eqn:Et; [discriminate H|].
    injection H as <-. rewrite (removeHandlersOf_clean _ _ _ Ha Eo). f_equal.
    apply traverse_Forall2 in Et.
    induction Et as [|c c' cs cs' [j Hj] _ IHcs]; [reflexivity|].
    inversion IH as [|? ? Hi His]; subst.
    cbn [existsb] in Hc. apply orb_false_iff in Hc as [H1 H2].
    now rewrite (Hi _ _ H1 Hj), (IHcs His H2).
  - cbn [childHandler] in Hc.
    destruct (removeHandlersOf plainView attrs) as [e|attrs'] eqn:Eo; [discriminate H|].
    injection H as <-. now rewrite (removeHandlersOf_clean _ _ _ Hc Eo).
Qed.

(** The pass, applied to what it returned, returns it again. *)
Lemma removeHandlers_again (view : list nat -> FormView) (n : node) :
  forall path n',
    removeHandlers view path n = inr n' -> removeHandlers view path n' = inr n'.
Proof.
  induction n as [d | d | tag attrs children IH | attrs contents _] using node_forall_ind;
    intros path n' H; cbn [removeHandlers] in H;
    try (injection H as <-; reflexivity).
  - destruct (removeHandlersOf _ attrs) as [e|attrs'] eqn:Eo; [discriminate H|].
    destruct (traverse _ 0%nat children) as [e|children'] eqn:Et; [discriminate H|].
    injection H as <-. cbn [removeHandlers].
    rewrite (removeHandlersOf_again _ _ _ Eo).
    rewrite (traverse_again _ 0%nat children children'); [reflexivity | | exact Et].
    intros j c c' Hc. rewrite List.Forall_forall in IH. apply (IH c Hc).
  - destruct (removeHandlersOf plainView attrs) as [e|attrs'] eqn:Eo; [discriminate H|].
    injection H as <-. cbn [removeHandlers]. now rewrite (removeHandlersOf_again _ _ _ Eo).
Qed.

(** The pass reads the view of the browser at the paths it is given
    only. *)
Lemma removeHandlers_ext (view view' : list nat -> FormView) (n : node) :
  (forall p, view p = view' p) ->
  forall path, removeHandlers view path n = removeHandlers view' path n.
Proof.
  intros Hv.
  induction n as [d | d | tag attrs children IH | attrs contents _] using node_forall_ind;
    intros path; try reflexivity.
  cbn [removeHandlers]. rewrite Hv.
  destruct (removeHandlersOf _ attrs) as [e|attrs']; [reflexivity|].
  rewrite (traverse_ext _ (fun i child => removeHandlers view' (path ++ [i]) child));
    [reflexivity|].
  intros j c Hc. rewrite List.Forall_forall in IH. apply (IH c Hc).
Qed.

(** *** The two passes *)

Lemma sanitizeDOM_plain (view : list nat -> FormView) (children : list node) :
  existsb hasForm children = false \/ (forall p, view p = plainView) ->
  sanitizeDOM view children = inr (plainSanitizeDOM children).
Proof.
  intros H. unfold sanitizeDOM, plainSanitizeDOM. apply traverse_map.
  intros j c Hc. apply removeHandlers_plain.
  destruct H as [H | H]; [left | now right].
  assert (Hf : existsb hasForm (flat_map removeScripts children) = false).
  { apply existsb_flat_map_false. apply existsb_false_Forall in H.
    eapply Forall_impl; [exact H|]. intros n. apply hasForm_removeScripts. }
  apply existsb_false_Forall in Hf. rewrite List.Forall_forall in Hf. now apply Hf.
Qed.

(** Whatever is shadowed, the tree the two passes return holds no script
    element in its child-node tree, and a template only where the
    parsed tree had one. *)
Lemma sanitizeDOM_childScript (view : list nat -> FormView) (children clean : list node) :
  sanitizeDOM view children = inr clean -> existsb childScript clean = false.
Proof.
  unfold sanitizeDOM. intros H. apply traverse_Forall2 in H.
  assert (Hs : existsb childScript (flat_map removeScripts children) = false).
  { apply existsb_flat_map_false, Forall_forall. intros n _.
    apply removeScripts_childScript. }
  induction H as [|c c' cs cs' [j Hj] _ IH]; [reflexivity|].
  cbn [existsb] in *. apply orb_false_iff in Hs as [H1 H2].
  now rewrite (removeHandlers_childScript _ _ _ _ Hj), H1, (IH H2).
Qed.

Lemma sanitizeDOM_hasTemplate (view : list nat -> FormView) (children clean : list node) :
  existsb hasTemplate children = false ->
  sanitizeDOM view children = inr clean -> existsb hasTemplate clean = false.
Proof.
  unfold sanitizeDOM. intros Ht H. apply traverse_Forall2 in H.
  assert (Hs : existsb hasTemplate (flat_map removeScripts children) = false).
  { apply existsb_flat_map_false. apply existsb_false_Forall in Ht.
    eapply Forall_impl; [exact Ht|]. intros n. apply removeScripts_hasTemplate. }
  induction H as [|c c' cs cs' [j Hj] _ IH]; [reflexivity|].
  cbn [existsb] in *. apply orb_false_iff in Hs as [H1 H2].
  now rewrite (removeHandlers_hasTemplate _ _ _ _ Hj), H1, (IH H2).
Qed.

Lemma flat_map_removeScripts_clean (children : list node) :
  existsb childScript children = false -> flat_map removeScripts children = children.
Proof.
  induction children as [|n l IH]; [reflexivity|].
  cbn [existsb]. intros H. apply orb_false_iff in H as [H1 H2].
  cbn [flat_map]. now rewrite (removeScripts_clean n H1), (IH H2).
Qed.

(** A tree without script elements and handlers comes back as it is,
    when the passes return. *)
Lemma sanitizeDOM_clean (view : list nat -> FormView) (children clean : list node) :
  existsb childScript children = false ->
  existsb childHandler children = false ->
  sanitizeDOM view children = inr clean -> clean = children.
Proof.
  intros Hs Hh. unfold sanitizeDOM. rewrite (flat_map_removeScripts_clean _ Hs).
  intros H. apply traverse_Forall2 in H.
  induction H as [|c c' cs cs' [j Hj] _ IH]; [reflexivity|].
  cbn [existsb] in Hh. apply orb_false_iff in Hh as [H1 H2].
  cbn [existsb] in Hs. apply orb_false_iff in Hs as [H3 H4].
  now rewrite (removeHandlers_clean _ _ _ _ H1 Hj), (IH H4 H2).
Qed.

(** The two passes, applied to the tree they returned, return it
    again. *)
Lemma sanitizeDOM_again (view : list nat -> FormView) (children clean : list node) :
  sanitizeDOM view children = inr clean -> sanitizeDOM view clean = inr clean.
Proof.
  intros H. pose proof (sanitizeDOM_childScript _ _ _ H) as Hs.
  unfold sanitizeDOM in *. rewrite (flat_map_removeScripts_clean _ Hs).
  apply (traverse_again _ 0%nat _ _ (fun j c c' _ => removeHandlers_again view c [j] c') H).
Qed.

Lemma sanitizeDOM_ext (view view' : list nat -> FormView) (children : list node) :
  (forall p, view p = view' p) -> sanitizeDOM view children = sanitizeDOM view' children.
Proof.
  intros Hv. unfold sanitizeDOM. apply traverse_ext.
  intros j c _. now apply removeHandlers_ext.
Qed.

Section SanitizerProperties.

Variable parseHTML : string -> list node.
Variable formView : string -> list nat -> FormView.

(** X9 (idempotence).  When [sanitizeHTML] returns, the parser reads
    what it returned back as the tree it was written from, and the
    browser then shows the same properties of its forms shadowed,
    [sanitizeHTML] applied to the result returns that result again. *)
Lemma sanitizeHTML_idempotent (x y : string) :
  sanitizeHTML parseHTML formView x = inr y ->
  sanitizeDOM (formView x) (parseHTML x) = inr (parseHTML y) ->
  (forall path, formView y path = formView x path) ->
  sanitizeHTML parseHTML formView y = inr y.
Proof.
  intros Hx Hback Hview. unfold sanitizeHTML in *. rewrite Hback in Hx.
  rewrite (sanitizeDOM_ext _ _ _ Hview), (sanitizeDOM_again _ _ _ Hback).
  exact Hx.
Qed.

(** C1 (the code departs from the claim).  The contents of a
    [template] element are out of reach of both passes: for the input
    [<template><script>alert(1)</script></template>] the parser builds
    a template element whose contents hold the script element, and
    [sanitizeHTML] returns the input as it is, script element included;
    an [onerror] attribute inside a template is returned in the same
    way. *)
Theorem sanitizeHTML_keeps_script_in_template :
  parseHTML "<template><script>alert(1)</script></template>"
    = [Template [] [Element "script" [] [Text "alert(1)"]]] ->
  parseHTML handlerInTemplate
    = [Template [] [Element "img" [("src", "x"); ("onerror", "alert(1)")] []]] ->
  (sanitizeHTML parseHTML formView "<template><script>alert(1)</script></template>"
     = inr "<template><script>alert(1)</script></template>" /\
   exists clean,
     sanitizeDOM (formView "<template><script>alert(1)</script></template>")
       (parseHTML "<template><script>alert(1)</script></template>") = inr clean /\
     existsb hasScript clean = true) /\
  (sanitizeHTML parseHTML formView handlerInTemplate = inr handlerInTemplate /\
   exists clean,
     sanitizeDOM (formView handlerInTemplate) (parseHTML handlerInTemplate) = inr clean /\
     existsb hasHandler clean = true).
Proof.
  intros H1 H2. unfold sanitizeHTML. rewrite H1, H2.
  split; (split; [reflexivity|]); eexists; split; reflexivity.
Qed.

End SanitizerProperties.

(** With the sample parser: the script element and the handler come
    back as they went in. *)
Lemma sanitizeHTML_keeps_script_in_template_witness :
  sanitizeHTML sampleParser noShadow "<template><script>alert(1)</script></template>"
    = inr "<template><script>alert(1)</script></template>" /\
  sanitizeHTML sampleParser noShadow handlerInTemplate = inr handlerInTemplate.
Proof.
  destruct (sanitizeHTML_keeps_script_in_template sampleParser noShadow eq_refl eq_refl)
    as [[H1 _] [H2 _]].
  exact (conj H1 H2).
Defined.

(** ** Cache and loader *)

Section DataProperties.

Variable JSON_parse : string -> option json.
Variable JSON_stringify : json -> string.
Variable StringToNumber : string -> number.
Variable NumberToString : Z -> string.
Variable clock : nat -> Z.
Variable network : nat -> JsError + Response.

Local Abbreviation isFresh := (fresh StringToNumber NumberToString).
Local Abbreviation isExpired := (expired StringToNumber NumberToString).
Local Abbreviation isUnreadable := (unreadable StringToNumber NumberToString).
Local Abbreviation get := (getCachedData JSON_parse StringToNumber NumberToString clock).
Local Abbreviation set := (setCachedData JSON_stringify clock).
Local Abbreviation load :=
  (loadArticles JSON_parse JSON_stringify StringToNumber NumberToString clock network).

(** The three outcomes of the test exclude each other and leave
    nothing out. *)
Lemma timestamp_cases (v : json) (now : Z) :
  (isFresh v now = true /\ isExpired v now = false /\ isUnreadable v = false) \/
  (isFresh v now = false /\ isExpired v now = true /\ isUnreadable v = false) \/
  (isFresh v now = false /\ isExpired v now = false /\ isUnreadable v = true).
Proof.
  unfold fresh, expired, unreadable.
  destruct (ToNumber StringToNumber NumberToString (getProp v "timestamp")) as [e|t];
    [now right; right|].
  destruct (ltNum (subNum (Some now) t) (Some CONFIG.cacheDuration)); auto.
Qed.

(** [getCachedData] case by case. *)
Lemma getCachedData_cases (w : World) :
  get w =
  match cacheEntry w with
  | None => (inr null, w)
  | Some raw =>
      match JSON_parse raw with
      | None => (inr null, w)
      | Some JNull => (inr null, w)
      | Some v =>
          if isFresh v (clock (ticks w))
          then (inr (getProp v "data"), tick w)
          else if isExpired v (clock (ticks w))
          then (inr null, purge (tick w))
          else (inr null, tick w)
      end
  end.
Proof.
  unfold getCachedData, cacheEntry, tryCatch, bind, getItem.
  destruct (accessible (localStorage w)) eqn:Ha; [|reflexivity].
  destruct (items (localStorage w) !! CONFIG.cacheKey) as [raw|] eqn:Hi;
    [|reflexivity].
  cbn [truthyStr nullish]. destruct (nonEmpty raw) eqn:Hne; [|reflexivity].
  cbn [negb]. unfold parseJSON.
  destruct (JSON_parse raw) as [v|]; [|reflexivity].
  assert (H : forall v',
    (let '(r, w') :=
       let '(r0, w0) := lift (ToNumber StringToNumber NumberToString (getProp v' "timestamp"))
                          (tick w) in
       match r0 with
       | inr number =>
           (if ltNum (subNum (Some (clock (ticks w))) number) (Some CONFIG.cacheDuration)
            then ret (getProp v' "data")
            else bind (removeItem CONFIG.cacheKey) (fun _ => ret null)) w0
       | inl e => (inl e, w0)
       end in
     match r with
     | inl e => ret null w'
     | inr a => (inr a, w')
     end)
    = (if isFresh v' (clock (ticks w))
       then (inr (getProp v' "data"), tick w)
       else if isExpired v' (clock (ticks w))
       then (inr null, purge (tick w))
       else (inr null, tick w))).
  { intros v'. unfold fresh, expired, lift.
    destruct (ToNumber StringToNumber NumberToString (getProp v' "timestamp")) as [e|t];
      [reflexivity|].
    destruct (ltNum (subNum (Some (clock (ticks w))) t) (Some CONFIG.cacheDuration));
      [reflexivity|].
    cbn [negb]. unfold bind, removeItem, ret. cbn [localStorage tick]. now rewrite Ha. }
  destruct v; cbn [destructure ret throw fst snd Date_now]; try reflexivity; apply H.
Qed.

Lemma getCachedData_never_raises (w : World) :
  exists v w', get w = (inr v, w').
Proof.
  rewrite getCachedData_cases.
  destruct (cacheEntry w) as [raw|]; [|eauto].
  destruct (JSON_parse raw) as [v|]; [|eauto].
  destruct v; eauto;
    match goal with
    | |- context [isFresh ?v ?n] =>
        destruct (isFresh v n); eauto; destruct (isExpired v n); eauto
    end.
Qed.

(** [getCachedData] issues no network retrieval. *)
Lemma getCachedData_fetched (w : World) : fetched (snd (get w)) = fetched w.
Proof.
  rewrite getCachedData_cases.
  destruct (cacheEntry w) as [raw|]; [|reflexivity].
  destruct (JSON_parse raw) as [v|]; [|reflexivity].
  destruct v; try reflexivity;
    match goal with
    | |- context [isFresh ?v ?n] =>
        destruct (isFresh v n); [reflexivity|]; destruct (isExpired v n); reflexivity
    end.
Qed.

Lemma setCachedData_cases (data : json) (w : World) :
  set data w =
  (inr tt,
   if accessible (localStorage w) && negb (full (localStorage w))
   then store (tick w) (JSON_stringify (envelope data (clock (ticks w))))
   else tick w).
Proof.
  unfold setCachedData, tryCatch, bind, Date_now, setItem. cbn [localStorage].
  destruct (accessible (localStorage w)); cbn [negb andb]; [|reflexivity].
  destruct (full (localStorage w)); reflexivity.
Qed.

Lemma cacheEntry_tick (w : World) : cacheEntry (tick w) = cacheEntry w.
Proof. reflexivity. Qed.

Lemma cacheEntry_purge (w : World) : cacheEntry (purge w) = None.
Proof.
  unfold cacheEntry, purge. cbn [localStorage withStorage items withItems accessible].
  rewrite lookup_delete_eq. now destruct (accessible (localStorage w)).
Qed.

Lemma cacheEntry_store (w : World) (text : string) :
  accessible (localStorage w) = true -> nonEmpty text = true ->
  cacheEntry (store w text) = Some text.
Proof.
  intros Ha Hne. unfold cacheEntry, store.
  cbn [localStorage withStorage items withItems accessible].
  now rewrite Ha, lookup_insert_eq, Hne.
Qed.

Lemma loadArticles_cases (w : World) :
  load w =
  match get w with
  | (inl e, w1) => (inl (Error ("Gagal memuat data: " +:+ message e)), w1)
  | (inr cached, w1) =>
      if truthy cached then (inr cached, w1)
      else
        let w2 := mkWorld (localStorage w1) (ticks w1) (S (fetched w1)) in
        match network (fetched w1) with
        | inl e => (inl (Error ("Gagal memuat data: " +:+ message e)), w2)
        | inr response =>
            if ok response then
              match body response with
              | inl e => (inl (Error ("Gagal memuat data: " +:+ message e)), w2)
              | inr data =>
                  if isArray data then (inr (Some data), snd (set data w2))
                  else (inl (Error ("Gagal memuat data: " +:+
                                    "Data format invalid: expected array")), w2)
              end
            else (inl (Error ("Gagal memuat data: " +:+
                              ("HTTP error! status: " +:+ pretty (status response)))), w2)
        end
  end.
Proof.
  unfold loadArticles, tryCatch at 1, bind at 1.
  destruct (get w) as [[e|cached] w1]; [reflexivity|].
  destruct (truthy cached); [reflexivity|].
  unfold bind at 1, fetch. cbv zeta.
  destruct (network (fetched w1)) as [e|response]; [reflexivity|].
  destruct (ok response); cbn [negb]; [|reflexivity].
  unfold bind at 1, responseJson.
  destruct (body response) as [e|data]; [reflexivity|].
  cbn [ret]. destruct (isArray data); cbn [negb]; [|reflexivity].
  unfold bind. rewrite setCachedData_cases. reflexivity.
Qed.

Lemma fresh_envelope (data : json) (t now : Z) :
  isFresh (envelope data t) now = (now - t <? CONFIG.cacheDuration).
Proof. reflexivity. Qed.

Lemma expired_envelope (data : json) (t now : Z) :
  isExpired (envelope data t) now = negb (now - t <? CONFIG.cacheDuration).
Proof. reflexivity. Qed.

Lemma getCachedData_envelope (w : World) (data : json) (t : Z) (text : string) :
  cacheEntry w = Some text -> JSON_parse text = Some (envelope data t) ->
  get w =
  if clock (ticks w) - t <? CONFIG.cacheDuration
  then (inr (Some data), tick w)
  else (inr null, purge (tick w)).
Proof.
  intros He Hp. rewrite getCachedData_cases, He, Hp.
  change (get w) with (get w).
  transitivity
    (if isFresh (envelope data t) (clock (ticks w))
     then (inr (getProp (envelope data t) "data") : JsError + value, tick w)
     else if isExpired (envelope data t) (clock (ticks w))
     then (inr null, purge (tick w))
     else (inr null, tick w)); [reflexivity|].
  rewrite fresh_envelope, expired_envelope.
  now destruct (clock (ticks w) - t <? CONFIG.cacheDuration).
Qed.

(** C3 (amended).  [getCachedData] never raises.  It returns the stored
    [data] when the stored text parses to a value other than [null]
    whose time stamp passes [now - timestamp < cacheDuration], and
    [null] in every other state.  The entry is removed when the text
    parsed, the time stamp converted to a number or to [NaN], and the
    test failed (an expired or a missing time stamp).  In every state
    in which the body throws the entry is left in the storage: a text
    that does not parse or parses to [null], and a time stamp the
    subtraction cannot convert, such as an object with an own
    [toString]; so is an empty entry. *)
Theorem getCachedData_fails_soft (w : World) :
  (exists v w', get w = (inr v, w')) /\
  (forall raw v,
     cacheEntry w = Some raw -> JSON_parse raw = Some v -> v <> JNull ->
     isFresh v (clock (ticks w)) = true ->
     get w = (inr (getProp v "data"), tick w)) /\
  (forall raw v,
     cacheEntry w = Some raw -> JSON_parse raw = Some v -> v <> JNull ->
     isExpired v (clock (ticks w)) = true ->
     get w = (inr null, purge (tick w)) /\ cacheEntry (purge (tick w)) = None) /\
  (forall raw v,
     cacheEntry w = Some raw -> JSON_parse raw = Some v -> v <> JNull ->
     isUnreadable v = true ->
     get w = (inr null, tick w) /\ cacheEntry (tick w) = Some raw) /\
  (forall raw,
     cacheEntry w = Some raw ->
     JSON_parse raw = None \/ JSON_parse raw = Some JNull ->
     get w = (inr null, w)) /\
  (cacheEntry w = None -> get w = (inr null, w)) /\
  (forall v now,
     match getProp v "timestamp" with
     | Some (JNum t) =>
         isFresh v now = (now - t <? CONFIG.cacheDuration) /\
         isExpired v now = negb (now - t <? CONFIG.cacheDuration)
     | None => isExpired v now = true
     | Some (JObj fields) =>
         isUnreadable v = hasOwnProperty fields "toString" /\
         (hasOwnProperty fields "toString" = false ->
          StringToNumber "[object Object]" = NaN -> isExpired v now = true)
     | _ => True
     end).
Proof.
  split; [apply getCachedData_never_raises|].
  rewrite getCachedData_cases.
  split; [|split; [|split; [|split; [|split]]]].
  - intros raw v -> -> Hv Hf. rewrite Hf. now destruct v.
  - intros raw v -> -> Hv Hf.
    destruct (timestamp_cases v (clock (ticks w)))
      as [(H1 & H2 & _) | [(H1 & H2 & _) | (H1 & H2 & _)]]; try congruence.
    rewrite H1, H2. split; [now destruct v | apply cacheEntry_purge].
  - intros raw v He Hp Hv Hf.
    destruct (timestamp_cases v (clock (ticks w)))
      as [(H1 & H2 & H3) | [(H1 & H2 & H3) | (H1 & H2 & H3)]]; try congruence.
    rewrite He, Hp, H1, H2. split; [now destruct v | exact He].
  - intros raw -> [-> | ->]; reflexivity.
  - intros ->. reflexivity.
  - intros v now. unfold fresh, expired, unreadable.
    destruct (getProp v "timestamp") as [[| | t | | |fields]|]; cbn [ToNumber ToString];
      try exact I; try reflexivity; [now split|].
    destruct (hasOwnProperty fields "toString"); split; try reflexivity;
      try discriminate.
    intros _ ->. reflexivity.
Qed.

(** C4.  With a storage that takes the write, and a stored envelope
    that [JSON.parse] reads back: [setCachedData(C)] followed by
    [getCachedData()] returns [C] while [now - timestamp <
    cacheDuration]; once [now - timestamp >= cacheDuration] it returns
    [null] and removes the entry, and the read after that returns
    [null] as well, leaving the world as it is. *)
Theorem cache_round_trip (C : json) (w : World) :
  accessible (localStorage w) = true ->
  full (localStorage w) = false ->
  nonEmpty (JSON_stringify (envelope C (clock (ticks w)))) = true ->
  JSON_parse (JSON_stringify (envelope C (clock (ticks w))))
    = Some (envelope C (clock (ticks w))) ->
  fst (set C w) = inr tt /\
  (clock (ticks (snd (set C w))) - clock (ticks w) < CONFIG.cacheDuration ->
     fst (get (snd (set C w))) = inr (Some C)) /\
  (clock (ticks (snd (set C w))) - clock (ticks w) >= CONFIG.cacheDuration ->
     fst (get (snd (set C w))) = inr null /\
     cacheEntry (snd (get (snd (set C w)))) = None /\
     get (snd (get (snd (set C w)))) = (inr null, snd (get (snd (set C w))))).
Proof.
  intros Ha Hf Hne Hparse.
  rewrite setCachedData_cases, Ha, Hf. cbn [andb negb fst snd].
  split; [reflexivity|].
  assert (He : cacheEntry (store (tick w) (JSON_stringify (envelope C (clock (ticks w)))))
               = Some (JSON_stringify (envelope C (clock (ticks w))))).
  { now apply cacheEntry_store. }
  rewrite (getCachedData_envelope _ C (clock (ticks w)) _ He Hparse).
  change (ticks (store (tick w) (JSON_stringify (envelope C (clock (ticks w))))))
    with (S (ticks w)).
  split.
  - intros Hlt. apply Z.ltb_lt in Hlt. rewrite Hlt. reflexivity.
  - intros Hge. apply Z.ge_le in Hge. apply Z.ltb_ge in Hge. rewrite Hge.
    cbn [fst snd]. split; [reflexivity|].
    split; [apply cacheEntry_purge|].
    rewrite getCachedData_cases, cacheEntry_purge. reflexivity.
Qed.

(** C5.  A call that finds a valid cache entry returns its collection
    and issues no network retrieval.  A call that finds no entry, with a
    storage that takes the write and a retrieval that succeeds, issues
    exactly one retrieval, stores the collection and returns it; the
    call right after it, inside the cache duration, returns the
    collection again and issues no retrieval. *)
Theorem loadArticles_cache_then_network (w : World) :
  (forall raw v l,
     cacheEntry w = Some raw -> JSON_parse raw = Some v ->
     getProp v "data" = Some (JArr l) ->
     isFresh v (clock (ticks w)) = true ->
     fst (load w) = inr (Some (JArr l)) /\
     fetched (snd (load w)) = fetched w) /\
  (forall response l,
     accessible (localStorage w) = true ->
     full (localStorage w) = false ->
     items (localStorage w) !! CONFIG.cacheKey = None ->
     network (fetched w) = inr response ->
     ok response = true ->
     body response = inr (JArr l) ->
     nonEmpty (JSON_stringify (envelope (JArr l) (clock (ticks w)))) = true ->
     JSON_parse (JSON_stringify (envelope (JArr l) (clock (ticks w))))
       = Some (envelope (JArr l) (clock (ticks w))) ->
     fst (load w) = inr (Some (JArr l)) /\
     fetched (snd (load w)) = S (fetched w) /\
     cacheEntry (snd (load w))
       = Some (JSON_stringify (envelope (JArr l) (clock (ticks w)))) /\
     (clock (ticks (snd (load w))) - clock (ticks w) < CONFIG.cacheDuration ->
        fst (load (snd (load w))) = inr (Some (JArr l)) /\
        fetched (snd (load (snd (load w)))) = fetched (snd (load w)))).
Proof.
  split.
  - intros raw v l He Hp Hd Hf.
    rewrite loadArticles_cases, getCachedData_cases, He, Hp, Hf, Hd.
    assert (Hv : v <> JNull) by (intros ->; discriminate Hd).
    destruct v; try congruence; split; reflexivity.
  - intros response l Ha Hfull Hnone Hnet Hok Hbody Hne Hparse.
    assert (He : cacheEntry w = None).
    { unfold cacheEntry. now rewrite Ha, Hnone. }
    rewrite (loadArticles_cases w), (getCachedData_cases w), He.
    cbn [truthy null]. cbv zeta. rewrite Hnet, Hok, Hbody. cbn [isArray].
    rewrite setCachedData_cases. cbn [localStorage ticks fst snd].
    rewrite Ha, Hfull. cbn [andb negb].
    set (text := JSON_stringify (envelope (JArr l) (clock (ticks w)))) in *.
    set (w2 := store _ text).
    assert (He2 : cacheEntry w2 = Some text) by now apply cacheEntry_store.
    split; [reflexivity|]. split; [reflexivity|]. split; [exact He2|].
    intros Hlt.
    rewrite (loadArticles_cases w2),
      (getCachedData_envelope w2 (JArr l) (clock (ticks w)) text He2 Hparse).
    change (ticks w2) with (S (ticks w)) in *.
    apply Z.ltb_lt in Hlt. rewrite Hlt. cbn [truthy]. split; reflexivity.
Qed.

Lemma length_append (a b : string) :
  String.length (a +:+ b) = (String.length a + String.length b)%nat.
Proof. induction a as [|c a IH]; simpl; [reflexivity | now rewrite IH]. Qed.

Lemma wrapped_error_differs (e0 : JsError) :
  Error ("Gagal memuat data: " +:+ message e0) <> e0.
Proof.
  intros H. apply (f_equal (fun e => String.length (message e))) in H.
  cbn [message Error] in H. rewrite length_append in H. simpl in H. lia.
Qed.

(** C6.  [loadArticles] fails exactly when it issued a network
    retrieval (the cache gave nothing) and the retrieval errored, or
    the response status was not a success, or the body did not decode
    to an array.  What it throws is always a new [Error] whose message
    is [Gagal memuat data: ] followed by the cause; it is never the
    error the retrieval or the decoding raised. *)
Theorem loadArticles_failure (w : World) :
  ((exists e, fst (load w) = inl e) <->
   (exists cached, fst (get w) = inr cached /\ truthy cached = false) /\
   retrievalFails (network (fetched w))) /\
  (forall e, fst (load w) = inl e ->
     e = Error ("Gagal memuat data: " +:+ failureCause (network (fetched w)))) /\
  (forall e e0, fst (load w) = inl e ->
     network (fetched w) = inl e0 \/
     (exists r, network (fetched w) = inr r /\ ok r = true /\ body r = inl e0) ->
     e <> e0).
Proof.
  pose proof (getCachedData_fetched w) as Hfet.
  rewrite loadArticles_cases.
  destruct (getCachedData_never_raises w) as [cached [w1 Hget]].
  rewrite Hget in *. cbn [fst snd] in Hfet. rewrite Hfet.
  assert (Hmain :
    forall e, fst (if truthy cached then (inr cached, w1)
      else
        let w2 := mkWorld (localStorage w1) (ticks w1) (S (fetched w)) in
        match network (fetched w) with
        | inl e => (inl (Error ("Gagal memuat data: " +:+ message e)), w2)
        | inr response =>
            if ok response then
              match body response with
              | inl e => (inl (Error ("Gagal memuat data: " +:+ message e)), w2)
              | inr data =>
                  if isArray data then (inr (Some data), snd (set data w2))
                  else (inl (Error ("Gagal memuat data: " +:+
                                    "Data format invalid: expected array")), w2)
              end
            else (inl (Error ("Gagal memuat data: " +:+
                              ("HTTP error! status: " +:+ pretty (status response)))), w2)
        end) = inl e ->
      truthy cached = false /\ retrievalFails (network (fetched w)) /\
      e = Error ("Gagal memuat data: " +:+ failureCause (network (fetched w)))).
  { intros e. destruct (truthy cached); [discriminate|]. cbv zeta.
    unfold retrievalFails, failureCause.
    destruct (network (fetched w)) as [e1|r]; cbn [fst].
    - intros [= <-]. auto.
    - destruct (ok r).
      + destruct (body r) as [e1|data]; cbn [fst].
        * intros [= <-]. auto.
        * destruct (isArray data); cbn [fst]; [discriminate|].
          intros [= <-]. auto.
      + cbn [fst]. intros [= <-]. auto. }
  split; [split|split].
  - intros [e He]. apply Hmain in He as (Ht & Hr & _).
    split; [exists cached; split; [reflexivity | exact Ht] | exact Hr].
  - intros [[c [[= <-] Ht]] Hr]. rewrite Ht. cbv zeta.
    unfold retrievalFails in Hr.
    destruct (network (fetched w)) as [e1|r]; [eauto|].
    destruct Hr as [Hok | Hb].
    + rewrite Hok. eauto.
    + destruct (ok r); [|eauto].
      destruct (body r) as [e1|data]; [eauto|]. rewrite Hb. eauto.
  - intros e He. now apply Hmain in He as (_ & _ & ->).
  - intros e e0 He Hlow. apply Hmain in He as (_ & _ & ->).
    destruct Hlow as [-> | [r (-> & Hok & Hb)]]; cbn [failureCause].
    + apply wrapped_error_differs.
    + rewrite Hok, Hb. apply wrapped_error_differs.
Qed.

End DataProperties.

(** C3, as stated, fails: a stored text that [JSON.parse] rejects makes
    [getCachedData] return [null], and the entry is still in the
    storage afterwards. *)
Lemma corrupt_entry_is_not_removed :
  getCachedData (parseTable []) noNumber decimal (sampleClock 0 1000)
    (worldWithEntry "{oops")
  = (inr null, worldWithEntry "{oops") /\
  items (localStorage (worldWithEntry "{oops")) !! CONFIG.cacheKey = Some "{oops".
Proof. split; vm_compute; reflexivity. Qed.

(** An entry written at time 0 and read at time 300000 is returned as
    [null] and removed; one that does not parse is returned as [null]
    and kept; and so is one whose time stamp is an object with an own
    [toString]. *)
Lemma getCachedData_fails_soft_witness :
  (getCachedData (sampleParse 0) noNumber decimal (sampleClock 300000 1000)
     (worldWithEntry (sampleStringify (envelope sampleCollection 0)))
   = (inr null, purge (tick (worldWithEntry (sampleStringify (envelope sampleCollection 0)))))
   /\ cacheEntry
        (purge (tick (worldWithEntry (sampleStringify (envelope sampleCollection 0)))))
      = None) /\
  getCachedData (sampleParse 0) noNumber decimal (sampleClock 300000 1000)
    (worldWithEntry "{oops")
  = (inr null, worldWithEntry "{oops") /\
  (getCachedData (parseTable [(sampleStringify opaqueEnvelope, opaqueEnvelope)])
     noNumber decimal (sampleClock 300000 1000)
     (worldWithEntry (sampleStringify opaqueEnvelope))
   = (inr null, tick (worldWithEntry (sampleStringify opaqueEnvelope)))
   /\ cacheEntry (tick (worldWithEntry (sampleStringify opaqueEnvelope)))
      = Some (sampleStringify opaqueEnvelope)).
Proof.
  split; [|split].
  - apply (proj1 (proj2 (proj2
      (getCachedData_fails_soft (sampleParse 0) noNumber decimal
         (sampleClock 300000 1000)
         (worldWithEntry (sampleStringify (envelope sampleCollection 0))))))
      (sampleStringify (envelope sampleCollection 0)) (envelope sampleCollection 0));
      [reflexivity | reflexivity | discriminate | reflexivity].
  - apply (proj1 (proj2 (proj2 (proj2 (proj2
      (getCachedData_fails_soft (sampleParse 0) noNumber decimal
         (sampleClock 300000 1000) (worldWithEntry "{oops"))))))
      "{oops"); [reflexivity | left; reflexivity].
  - apply (proj1 (proj2 (proj2 (proj2
      (getCachedData_fails_soft (parseTable [(sampleStringify opaqueEnvelope, opaqueEnvelope)])
         noNumber decimal (sampleClock 300000 1000)
         (worldWithEntry (sampleStringify opaqueEnvelope))))))
      (sampleStringify opaqueEnvelope) opaqueEnvelope);
      [reflexivity | reflexivity | discriminate | reflexivity].
Defined.

(** Written at time 1000 and read one second later, the collection
    comes back; read five minutes later, it does not. *)
Lemma cache_round_trip_witness :
  fst (getCachedData (sampleParse 1000) noNumber decimal (sampleClock 1000 1000)
         (snd (setCachedData sampleStringify (sampleClock 1000 1000)
                 sampleCollection emptyWorld)))
  = inr (Some sampleCollection) /\
  fst (getCachedData (sampleParse 1000) noNumber decimal (sampleClock 1000 300000)
         (snd (setCachedData sampleStringify (sampleClock 1000 300000)
                 sampleCollection emptyWorld)))
  = inr null.
Proof.
  split.
  - apply (cache_round_trip (sampleParse 1000) sampleStringify noNumber decimal
             (sampleClock 1000 1000) sampleCollection emptyWorld);
      reflexivity.
  - apply (cache_round_trip (sampleParse 1000) sampleStringify noNumber decimal
             (sampleClock 1000 300000) sampleCollection emptyWorld);
      try reflexivity. vm_compute. discriminate.
Defined.

(** With an empty cache and the network down, the call fails with the
    wrapped cause. *)
Lemma loadArticles_failure_witness :
  fst (loadArticles (sampleParse 1000) sampleStringify noNumber decimal
         (sampleClock 1000 1000) downNetwork emptyWorld)
  = inl (Error "Gagal memuat data: Failed to fetch").
Proof.
  destruct (loadArticles_failure (sampleParse 1000) sampleStringify noNumber
              decimal (sampleClock 1000 1000) downNetwork emptyWorld)
    as (Hiff & Hshape & _).
  destruct (proj2 Hiff) as [e He].
  { split; [exists null; split; reflexivity | exact I]. }
  rewrite He. f_equal. exact (Hshape e He).
Defined.

(** A first call on an empty storage fetches once and fills the cache;
    the call right after it fetches nothing. *)
Lemma loadArticles_cache_then_network_witness :
  fst (loadArticles (sampleParse 1000) sampleStringify noNumber decimal
         (sampleClock 1000 1000) sampleNetwork emptyWorld)
  = inr (Some sampleCollection) /\
  fetched (snd (loadArticles (sampleParse 1000) sampleStringify noNumber decimal
                  (sampleClock 1000 1000) sampleNetwork emptyWorld)) = 1%nat /\
  fetched
    (snd (loadArticles (sampleParse 1000) sampleStringify noNumber decimal
            (sampleClock 1000 1000) sampleNetwork
            (snd (loadArticles (sampleParse 1000) sampleStringify noNumber decimal
                    (sampleClock 1000 1000) sampleNetwork emptyWorld)))) = 1%nat.
Proof.
  destruct (proj2 (loadArticles_cache_then_network (sampleParse 1000) sampleStringify
              noNumber decimal (sampleClock 1000 1000) sampleNetwork emptyWorld)
              (mkResponse 200 (inr sampleCollection))
              [JObj [("id", JStr "a1"); ("topic", JStr "Berita"); ("title", JStr "Gempa")];
               JObj [("id", JStr "a2"); ("topic", JStr "Edukasi");
                     ("title", JStr "Fisika Dasar")]]
              eq_refl eq_refl eq_refl eq_refl eq_refl eq_refl eq_refl eq_refl)
    as (H1 & H2 & _ & H4).
  split; [exact H1|]. split; [exact H2|].
  destruct (H4 eq_refl) as [_ H5]. rewrite H5. exact H2.
Defined.

(** ** Filter and detail page *)

Lemma nonEmpty_false (s : string) : nonEmpty s = false <-> s = "".
Proof. destruct s; simpl; split; congruence. Qed.

Lemma orElse_string (s : string) : orElse (Some s) "" = s.
Proof. now destruct s. Qed.

Lemma strictEq_true (x : ostring) (s : string) :
  strictEq x (Some s) = true <-> x = Some s.
Proof.
  destruct x as [t|]; simpl; [|split; discriminate].
  rewrite String.eqb_eq. split; congruence.
Qed.

Section FilterProperties.

Variable toLowerCase : string -> string.
Variable trim : string -> string.

Lemma matchesTopic_spec (activeTopic : string) (a : Article) :
  matchesTopic activeTopic a = true <-> topicPredicate activeTopic a.
Proof.
  unfold matchesTopic, topicPredicate.
  now rewrite orb_true_iff, String.eqb_eq, strictEq_true.
Qed.

Lemma matchesSearch_spec (query : string) (a : Article) :
  matchesSearch toLowerCase (normalizeQuery toLowerCase trim query) a = true
  <-> queryPredicate toLowerCase trim query a.
Proof.
  unfold matchesSearch, queryPredicate, normalizeQuery.
  rewrite orElse_string, !orb_true_iff, negb_true_iff, nonEmpty_false, !includes_spec.
  tauto.
Qed.

Lemma filter_sublist {A : Type} (f : A -> bool) (l : list A) :
  sublist (List.filter f l) l.
Proof.
  induction l as [|x l IH]; [constructor|].
  cbn [List.filter]. destruct (f x); now constructor.
Qed.

(** C7 (amended).  [applyFilters] returns exactly the articles for
    which the topic predicate and the query predicate hold, in the order
    of the collection, where the query predicate takes the query in
    lower case and trimmed: it is the collection filtered by a test
    that holds exactly when both predicates do, hence a sublist of the
    collection that holds an article if and only if the collection does
    and both predicates hold. *)
Theorem applyFilters_is_stable_filter
    (C : list Article) (activeTopic query : string) :
  (exists keep : Article -> bool,
     (forall a, keep a = true <-> visible toLowerCase trim activeTopic query a) /\
     applyFilters toLowerCase trim C activeTopic query = List.filter keep C) /\
  sublist (applyFilters toLowerCase trim C activeTopic query) C /\
  (forall a, In a (applyFilters toLowerCase trim C activeTopic query) <->
             In a C /\ visible toLowerCase trim activeTopic query a).
Proof.
  assert (Hkeep : forall a,
    matchesTopic activeTopic a
    && matchesSearch toLowerCase (normalizeQuery toLowerCase trim query) a = true
    <-> visible toLowerCase trim activeTopic query a).
  { intros a. unfold visible.
    now rewrite andb_true_iff, matchesTopic_spec, matchesSearch_spec. }
  split; [|split].
  - exists (fun a => matchesTopic activeTopic a
       && matchesSearch toLowerCase (normalizeQuery toLowerCase trim query) a).
    split; [exact Hkeep | reflexivity].
  - apply filter_sublist.
  - intros a. unfold applyFilters. cbv zeta. now rewrite List.filter_In, Hkeep.
Qed.

End FilterProperties.

(** Scenarios A and B of the specification. *)
Example scenario_A :
  applyFilters sampleLower sampleTrim [articleA1; articleA2] "Berita" "" = [articleA1].
Proof. reflexivity. Qed.

Example scenario_B :
  applyFilters sampleLower sampleTrim [articleA1; articleA2] "all" "fisika" = [articleA2].
Proof. reflexivity. Qed.

(** C7, as stated, fails on a query with white space around it: for
    the query [ fisika], with a space in front, [applyFilters] shows the
    article titled [Fisika Dasar], while the query in lower case, space
    included, is a substring neither of its title nor of its excerpt. *)
Lemma padded_query_is_trimmed_before_matching :
  applyFilters sampleLower sampleTrim [articleA1; articleA2] "all" " fisika" = [articleA2] /\
  ~ statedQueryPredicate sampleLower sampleTrim " fisika" articleA2.
Proof.
  split; [reflexivity|].
  intros [H | [H | H]]; [discriminate H | |];
    apply includes_spec in H; discriminate H.
Qed.

Lemma find_none_of {A : Type} (f : A -> bool) (l : list A) :
  (forall a, In a l -> f a = false) -> List.find f l = None.
Proof.
  induction l as [|x l IH]; intros H; [reflexivity|].
  cbn [List.find]. rewrite (H x (or_introl eq_refl)).
  apply IH. intros a Ha. apply H. now right.
Qed.

Section DetailProperties.

Variable toLocaleDateString : string -> JsError + string.
Variable parseHTML : string -> list node.
Variable formView : string -> list nat -> FormView.

Lemma detailTemplate_not_showError (a : Article) (coverHTML : string)
    (readingTime : nat) (sanitizedContent message : string) :
  detailTemplate toLocaleDateString a coverHTML readingTime sanitizedContent
  <> showError message.
Proof.
  intros H. apply (f_equal (String.get 6)) in H.
  unfold detailTemplate, showError in H.
  cbn [concatStr fold_right] in H. simpl in H. discriminate H.
Qed.

Lemma generateDetailHTML_not_showError (a : Article) (html message : string) :
  generateDetailHTML toLocaleDateString parseHTML formView a = inr html ->
  html <> showError message.
Proof.
  unfold generateDetailHTML. cbv zeta.
  destruct (sanitizeHTML parseHTML formView _) as [e|c]; [discriminate|].
  intros [= <-]. apply detailTemplate_not_showError.
Qed.

(** [generateDetailHTML] throws what [sanitizeHTML] throws on the
    content, and nothing else. *)
Lemma generateDetailHTML_throws (a : Article) (error : JsError) :
  generateDetailHTML toLocaleDateString parseHTML formView a = inl error <->
  sanitizeHTML parseHTML formView (orElse (content a) "<p>Konten tidak tersedia.</p>")
  = inl error.
Proof.
  unfold generateDetailHTML. cbv zeta.
  destruct (sanitizeHTML parseHTML formView _) as [e|c]; split; congruence.
Qed.

(** It returns when the content holds no [form] element, or the browser
    shows no property of its forms shadowed. *)
Lemma generateDetailHTML_returns (a : Article) :
  existsb hasForm (parseHTML (orElse (content a) "<p>Konten tidak tersedia.</p>")) = false \/
  (forall path,
     formView (orElse (content a) "<p>Konten tidak tersedia.</p>") path = plainView) ->
  exists html, generateDetailHTML toLocaleDateString parseHTML formView a = inr html.
Proof.
  intros H. unfold generateDetailHTML, sanitizeHTML. cbv zeta.
  rewrite (sanitizeDOM_plain _ _ H). eauto.
Qed.

(** C9 (amended).  When the collection is not empty and none of its
    articles has the requested id, the detail view renders the first
    article of the collection: the page holds its detail markup, which
    is no error state, whenever [generateDetailHTML] returns for it, as
    it does when its content holds no [form] element; only when
    sanitizing the content of the first article throws does the page
    hold the error state, with the message of that error. *)
Theorem detail_falls_back_to_first (articleId : ostring)
    (first : Article) (rest : list Article) :
  (forall a, In a (first :: rest) -> strictEq (id a) articleId = false) ->
  initArticleDetail toLocaleDateString parseHTML formView true articleId
    (inr (first :: rest))
  = Some (match generateDetailHTML toLocaleDateString parseHTML formView first with
          | inr html => html
          | inl error => showError (message error)
          end) /\
  (forall html,
     generateDetailHTML toLocaleDateString parseHTML formView first = inr html ->
     initArticleDetail toLocaleDateString parseHTML formView true articleId
       (inr (first :: rest)) = Some html /\
     forall message, html <> showError message) /\
  (forall error,
     generateDetailHTML toLocaleDateString parseHTML formView first = inl error <->
     sanitizeHTML parseHTML formView
       (orElse (content first) "<p>Konten tidak tersedia.</p>") = inl error) /\
  (existsb hasForm
     (parseHTML (orElse (content first) "<p>Konten tidak tersedia.</p>")) = false ->
   exists html,
     generateDetailHTML toLocaleDateString parseHTML formView first = inr html).
Proof.
  intros Hno.
  assert (E : initArticleDetail toLocaleDateString parseHTML formView true articleId
                (inr (first :: rest))
              = Some (match generateDetailHTML toLocaleDateString parseHTML formView first
                      with
                      | inr html => html
                      | inl error => showError (message error)
                      end)).
  { unfold initArticleDetail. cbn [negb].
    assert (Hf : List.find (fun a => strictEq (id a) articleId) (first :: rest) = None).
    { now apply find_none_of. }
    rewrite Hf.
    now destruct (generateDetailHTML toLocaleDateString parseHTML formView first). }
  split; [exact E|]. split; [|split].
  - intros html Hhtml. rewrite E, Hhtml. split; [reflexivity|].
    intros message. exact (generateDetailHTML_not_showError first html message Hhtml).
  - intros error. apply generateDetailHTML_throws.
  - intros Hform. apply generateDetailHTML_returns. now left.
Qed.

End DetailProperties.

(** C9, as stated, fails in two ways.  On the empty collection there
    is no first article, and the page shows the error state.  On a
    collection without the requested id whose first article holds a
    form with a control named [removeAttribute], the first article is
    taken, sanitizing its content throws, and the page shows the error
    state with the message of that error. *)
Lemma detail_fallback_ends_in_error_state :
  initArticleDetail sampleDate sampleParser noShadow true (Some "zz") (inr [])
  = Some (showError "Tidak ada artikel tersedia. Periksa file data/articles.txt") /\
  List.find (fun a => strictEq (id a) (Some "zz")) [formArticle; articleA2] = None /\
  initArticleDetail sampleDate formParser formShadows true (Some "zz")
    (inr [formArticle; articleA2])
  = Some (showError "el.removeAttribute is not a function").
Proof. repeat split; reflexivity. Qed.

(** Scenario C: the id [zz] is not in the collection, the first article
    is shown.  When the first article is the one whose content is a form
    with a control named [removeAttribute], the page shows the error the
    sanitizer threw. *)
Lemma detail_falls_back_to_first_witness :
  (exists html,
     generateDetailHTML sampleDate sampleParser noShadow articleA1 = inr html /\
     initArticleDetail sampleDate sampleParser noShadow true (Some "zz")
       (inr [articleA1; articleA2]) = Some html) /\
  initArticleDetail sampleDate formParser formShadows true (Some "zz")
    (inr [formArticle; articleA2])
  = Some (showError "el.removeAttribute is not a function").
Proof.
  split.
  - destruct (detail_falls_back_to_first sampleDate sampleParser noShadow (Some "zz")
                articleA1 [articleA2]) as (_ & Hshown & _ & Hreturns).
    { intros a [<- | [<- | []]]; reflexivity. }
    destruct (Hreturns eq_refl) as [html Hhtml].
    exists html. split; [exact Hhtml | exact (proj1 (Hshown html Hhtml))].
  - destruct (detail_falls_back_to_first sampleDate formParser formShadows (Some "zz")
                formArticle [articleA2]) as (Hpage & _).
    { intros a [<- | [<- | []]]; reflexivity. }
    rewrite Hpage. reflexivity.
Defined.













(** *** What [stripTags] returns is the stripped text *)












(** The words on the two sides of a tag are two words: the tag gives
    way to a blank. *)
Example words_on_both_sides_of_a_tag :
  stripTags false (codePoints "satu<br>dua") = codePoints "satu dua" /\
  countWords "satu<br>dua" = 2%nat.
Proof. split; vm_compute; reflexivity. Qed.

(* ================================================================== *)
(** * Further properties of the code *)
(* ================================================================== *)

(** ** More on the sanitizer *)

Section MoreSanitizerProperties.

Variable parseHTML : string -> list node.
Variable formView : string -> list nat -> FormView.

(** X7 (what the sanitizer does take out).  When the parser builds no
    [template] element from the markup: whatever [sanitizeHTML]
    serialises holds no script element, at any depth; and when the
    markup holds no [form] element either, or the browser shows no
    property of its forms shadowed, [sanitizeHTML] returns and what it
    serialises holds no attribute whose name starts with [on] either. *)
Theorem sanitizeHTML_clean_without_templates (html : string) :
  existsb hasTemplate (parseHTML html) = false ->
  (forall clean,
     sanitizeDOM (formView html) (parseHTML html) = inr clean ->
     sanitizeHTML parseHTML formView html = inr (innerHTML clean) /\
     existsb hasScript clean = false) /\
  (existsb hasForm (parseHTML html) = false \/
   (forall path, formView html path = plainView) ->
   exists clean,
     sanitizeDOM (formView html) (parseHTML html) = inr clean /\
     sanitizeHTML parseHTML formView html = inr (innerHTML clean) /\
     existsb hasScript clean = false /\
     existsb hasHandler clean = false).
Proof.
  intros Ht.
  assert (Hscript : forall clean,
    sanitizeDOM (formView html) (parseHTML html) = inr clean ->
    existsb hasScript clean = false).
  { intros clean H.
    pose proof (sanitizeDOM_hasTemplate _ _ _ Ht H) as Hc.
    rewrite <- (sanitizeDOM_childScript _ _ _ H).
    apply existsb_ext_Forall. apply existsb_false_Forall in Hc.
    eapply Forall_impl; [exact Hc|]. intros n. apply hasScript_without_template. }
  split.
  - intros clean H. split; [|now apply Hscript].
    unfold sanitizeHTML. now rewrite H.
  - intros Hplain. pose proof (sanitizeDOM_plain _ _ Hplain) as H.
    exists (plainSanitizeDOM (parseHTML html)).
    split; [exact H|]. split; [unfold sanitizeHTML; now rewrite H|].
    split; [now apply Hscript|].
    pose proof (sanitizeDOM_hasTemplate _ _ _ Ht H) as Hc.
    destruct (plainSanitizeDOM_child_tree_clean (parseHTML html)) as [_ Hh].
    rewrite <- Hh. apply existsb_ext_Forall. apply existsb_false_Forall in Hc.
    eapply Forall_impl; [exact Hc|]. intros n. apply hasHandler_without_template.
Qed.

(** X8 (what the sanitizer leaves in).  Markup whose child-node tree
    holds no script element and no attribute whose name starts with
    [on] is written back as the parser read it, whenever [sanitizeHTML]
    returns: an address that starts with [javascript:], a [style] or an
    [iframe] element stay.  It returns when the markup holds no [form]
    element, or the browser shows no property of its forms shadowed. *)
Theorem sanitizeHTML_leaves_other_markup (html : string) :
  existsb childScript (parseHTML html) = false ->
  existsb childHandler (parseHTML html) = false ->
  (forall out,
     sanitizeHTML parseHTML formView html = inr out ->
     out = innerHTML (parseHTML html)) /\
  (existsb hasForm (parseHTML html) = false \/
   (forall path, formView html path = plainView) ->
   sanitizeHTML parseHTML formView html = inr (innerHTML (parseHTML html))).
Proof.
  intros Hs Hh.
  assert (Hout : forall out,
    sanitizeHTML parseHTML formView html = inr out -> out = innerHTML (parseHTML html)).
  { unfold sanitizeHTML. intros out H.
    destruct (sanitizeDOM (formView html) (parseHTML html)) as [e|clean] eqn:E;
      [discriminate H|].
    injection H as <-. now rewrite (sanitizeDOM_clean _ _ _ Hs Hh E). }
  split; [exact Hout|]. intros Hplain.
  unfold sanitizeHTML in *. rewrite (sanitizeDOM_plain _ _ Hplain) in *.
  f_equal. now apply Hout.
Qed.

End MoreSanitizerProperties.

(** A handler and a script element outside templates are taken out. *)
Lemma sanitizeHTML_clean_without_templates_witness :
  existsb hasScript (linkParser handlerAndScript) = true /\
  existsb hasHandler (linkParser handlerAndScript) = true /\
  exists clean,
    sanitizeDOM (noShadow handlerAndScript) (linkParser handlerAndScript) = inr clean /\
    sanitizeHTML linkParser noShadow handlerAndScript = inr (innerHTML clean) /\
    existsb hasScript clean = false /\
    existsb hasHandler clean = false.
Proof.
  split; [reflexivity|]. split; [reflexivity|].
  apply (sanitizeHTML_clean_without_templates linkParser noShadow handlerAndScript eq_refl).
  left. reflexivity.
Defined.

(** A link with a [javascript:] address comes back as it went in. *)
Lemma sanitizeHTML_leaves_other_markup_witness :
  sanitizeHTML linkParser noShadow scriptLink = inr scriptLink.
Proof.
  apply (sanitizeHTML_leaves_other_markup linkParser noShadow scriptLink eq_refl eq_refl).
  left. reflexivity.
Defined.

(** Sanitizing the sanitized markup of a paragraph with a handler and a
    script element gives it again; and so does sanitizing again the
    form whose control shadows [attributes], which keeps its handler
    both times. *)
Lemma sanitizeHTML_idempotent_witness :
  sanitizeHTML linkParser noShadow handlerAndScript = inr "<p>a</p>" /\
  sanitizeHTML linkParser noShadow "<p>a</p>" = inr "<p>a</p>" /\
  sanitizeHTML formParser formShadows formShadowingAttributes
    = inr formShadowingAttributes.
Proof.
  split; [reflexivity|]. split.
  - apply (sanitizeHTML_idempotent linkParser noShadow handlerAndScript "<p>a</p>");
      reflexivity.
  - apply (sanitizeHTML_idempotent formParser formShadows formShadowingAttributes
             formShadowingAttributes); reflexivity.
Defined.

(** The two forms as the code treats them: the handler of the form
    whose control shadows [attributes] comes back, and the form whose
    control shadows [removeAttribute] makes [sanitizeHTML] throw. *)
Example sanitizeHTML_on_shadowed_forms :
  sanitizeHTML formParser formShadows formShadowingAttributes
    = inr formShadowingAttributes /\
  sanitizeHTML formParser formShadows formShadowingRemove = inl NotAFunction.
Proof. split; reflexivity. Qed.

(** ** More on escaping *)

Lemma escapeText_plain (s : string) : plainText s = true -> escapeText s = s.
Proof.
  induction s as [|c r IH]; [reflexivity|].
  cbn [plainText escapeText]. intros H.
  apply andb_true_iff in H as [H Hr].
  apply andb_true_iff in H as [H Hn].
  apply andb_true_iff in H as [H Hgt].
  apply andb_true_iff in H as [Hamp Hlt].
  apply negb_true_iff in Hamp, Hlt, Hgt. rewrite Hamp, Hlt, Hgt.
  destruct r as [|d r']; [reflexivity|].
  apply negb_true_iff in Hn. rewrite Hn. now rewrite (IH Hr).
Qed.

(** The shape of an escaped text that is not empty. *)
Lemma escapeText_cons (c : ascii) (r : string) :
  (c = "&"%char /\ escapeText (String c r) = "&amp;" +:+ escapeText r) \/
  (c = "<"%char /\ escapeText (String c r) = "&lt;" +:+ escapeText r) \/
  (c = ">"%char /\ escapeText (String c r) = "&gt;" +:+ escapeText r) \/
  (exists r', c = xC2 /\ r = String xA0 r' /\
     escapeText (String c r) = "&nbsp;" +:+ escapeText r') \/
  (c <> "&"%char /\ (forall r', c = xC2 -> r <> String xA0 r') /\
     escapeText (String c r) = String c (escapeText r)).
Proof.
  cbn [escapeText].
  destruct (Ascii.eqb_spec c "&") as [->|Hamp]; [now left|].
  destruct (Ascii.eqb_spec c "<") as [->|Hlt]; [right; now left|].
  destruct (Ascii.eqb_spec c ">") as [->|Hgt]; [right; right; now left|].
  right; right; right.
  destruct r as [|d r'].
  - right. split; [exact Hamp|]. split; [intros r' _; discriminate | reflexivity].
  - destruct (Ascii.eqb_spec c xC2) as [->|Hc]; cbn [andb].
    + destruct (Ascii.eqb_spec d xA0) as [->|Hd].
      * left. exists r'. repeat split.
      * right. split; [exact Hamp|]. split; [|reflexivity].
        intros r'' _ E. injection E as E _. contradiction.
    + right. split; [exact Hamp|]. split; [|reflexivity].
      intros r'' E. contradiction.
Qed.

Lemma escapeText_nonempty (c : ascii) (r : string) : escapeText (String c r) <> "".
Proof.
  destruct (escapeText_cons c r)
    as [[_ E] | [[_ E] | [[_ E] | [(r' & _ & _ & E) | (_ & _ & E)]]]];
    rewrite E; discriminate.
Qed.

Lemma escapeText_injective_upto (n : nat) (s t : string) :
  (String.length s <= n)%nat -> escapeText s = escapeText t -> s = t.
Proof.
  revert s t. induction n as [|n IH]; intros s t Hn E.
  - destruct s as [|c r]; [|simpl in Hn; lia].
    destruct t as [|d u]; [reflexivity|].
    exfalso. symmetry in E. exact (escapeText_nonempty d u E).
  - destruct s as [|c r].
    { destruct t as [|d u]; [reflexivity|].
      exfalso. symmetry in E. exact (escapeText_nonempty d u E). }
    destruct t as [|d u]; [exfalso; exact (escapeText_nonempty c r E)|].
    cbn [String.length] in Hn.
    assert (Hr : (String.length r <= n)%nat) by lia.
    destruct (escapeText_cons c r)
      as [[Hc Ec] | [[Hc Ec] | [[Hc Ec] | [(r' & Hc & Hr' & Ec) | (Hc & Hc' & Ec)]]]];
    destruct (escapeText_cons d u)
      as [[Hd Ed] | [[Hd Ed] | [[Hd Ed] | [(u' & Hd & Hu' & Ed) | (Hd & Hd' & Ed)]]]];
    rewrite Ec, Ed in E; simpl in E; try discriminate E;
    try (injection E as E; subst; f_equal; now apply IH);
    try (injection E as E1 E; congruence).
  injection E as E. subst. do 2 f_equal. apply IH; [|exact E].
  cbn [String.length] in Hr. lia.
Qed.

Lemma allChars_app (p : ascii -> bool) (a b : string) :
  allChars p (a +:+ b) = allChars p a && allChars p b.
Proof.
  induction a as [|c a IH]; [reflexivity|].
  simpl. now rewrite IH, andb_assoc.
Qed.

Lemma hexDigit_unreserved (n : nat) : (n < 16)%nat -> uriUnreserved (hexDigit n) = true.
Proof. intros Hn. do 16 (destruct n as [|n]; [reflexivity|]). lia. Qed.

Lemma hexDigit_injective (n m : nat) :
  (n < 16)%nat -> (m < 16)%nat -> hexDigit n = hexDigit m -> n = m.
Proof.
  intros Hn Hm.
  do 16 (destruct n as [|n];
    [do 16 (destruct m as [|m]; [first [reflexivity | discriminate]|]); lia|]).
  lia.
Qed.

Lemma percentEncode_injective (c d : ascii) :
  percentEncode c = percentEncode d -> c = d.
Proof.
  unfold percentEncode.
  pose proof (nat_ascii_bounded c) as Hc. pose proof (nat_ascii_bounded d) as Hd.
  pose proof (Nat.div_mod_eq (nat_of_ascii c) 16) as Dc.
  pose proof (Nat.div_mod_eq (nat_of_ascii d) 16) as Dd.
  assert (Hc1 : (nat_of_ascii c / 16 < 16)%nat)
    by (apply Nat.Div0.div_lt_upper_bound; lia).
  assert (Hd1 : (nat_of_ascii d / 16 < 16)%nat)
    by (apply Nat.Div0.div_lt_upper_bound; lia).
  assert (Hc2 : (nat_of_ascii c mod 16 < 16)%nat) by (apply Nat.mod_upper_bound; lia).
  assert (Hd2 : (nat_of_ascii d mod 16 < 16)%nat) by (apply Nat.mod_upper_bound; lia).
  remember (nat_of_ascii c / 16)%nat as a1. remember (nat_of_ascii c mod 16)%nat as a2.
  remember (nat_of_ascii d / 16)%nat as b1. remember (nat_of_ascii d mod 16)%nat as b2.
  intros E. injection E as E1 E2.
  apply hexDigit_injective in E1; [|assumption..].
  apply hexDigit_injective in E2; [|assumption..].
  rewrite <- (ascii_nat_embedding c), <- (ascii_nat_embedding d).
  f_equal. lia.
Qed.

Lemma percentEncode_app (c d : ascii) (x y : string) :
  percentEncode c +:+ x = percentEncode d +:+ y ->
  percentEncode c = percentEncode d /\ x = y.
Proof.
  unfold percentEncode. cbn [String.append].
  generalize (hexDigit (nat_of_ascii c / 16)) (hexDigit (nat_of_ascii c mod 16))
             (hexDigit (nat_of_ascii d / 16)) (hexDigit (nat_of_ascii d mod 16)).
  intros a1 a2 b1 b2 E. injection E as -> -> ->. now split.
Qed.

Lemma uriChar_encodeURIComponent (s : string) :
  allChars uriChar (encodeURIComponent s) = true.
Proof.
  induction s as [|c s IH]; [reflexivity|].
  cbn [encodeURIComponent]. rewrite allChars_app, IH, andb_true_r.
  destruct (uriUnreserved c) eqn:E.
  - cbn [allChars]. unfold uriChar. now rewrite E.
  - unfold percentEncode. cbn [allChars]. unfold uriChar at 1. cbn [orb].
    pose proof (nat_ascii_bounded c) as Hc.
    unfold uriChar.
    rewrite !hexDigit_unreserved;
      [reflexivity | apply Nat.mod_upper_bound; lia
      | apply Nat.Div0.div_lt_upper_bound; lia].
Qed.

Section MoreRenderingProperties.

Variable toLocaleDateString : string -> JsError + string.
Variable parseHTML : string -> list node.
Variable formView : string -> list nat -> FormView.

(** X10 (what [escapeHTML] leaves alone).  A text without [&], [<], [>]
    and U+00A0 is returned as it is, double quotes and apostrophes
    included; such a title therefore stands unchanged between the
    double quotes of the card's [data-title] attribute and between the
    apostrophes of the share handler of the detail template, whatever
    content is placed in it, hence of the detail markup whenever
    [generateDetailHTML] returns. *)
Theorem plain_title_is_written_unchanged (article : Article) (t : string) :
  title article = Some t ->
  plainText t = true ->
  escapeHTML (Some t) = t /\
  occurs ("data-title=" +:+ dq +:+ t +:+ dq)
    (generateCardHTML toLocaleDateString article) /\
  (forall readingTime sanitizedContent,
     occurs ("{title: '" +:+ t +:+ "', url:")
       (detailTemplate toLocaleDateString article (detailCoverHTML article)
          readingTime sanitizedContent)) /\
  (forall html,
     generateDetailHTML toLocaleDateString parseHTML formView article = inr html ->
     occurs ("{title: '" +:+ t +:+ "', url:") html).
Proof.
  intros Ht Hp.
  assert (E : escapeHTML (Some t) = t).
  { rewrite escapeHTML_eq. now apply escapeText_plain. }
  assert (Htemplate : forall readingTime sanitizedContent,
     occurs ("{title: '" +:+ t +:+ "', url:")
       (detailTemplate toLocaleDateString article (detailCoverHTML article)
          readingTime sanitizedContent)).
  { intros readingTime sanitizedContent. unfold detailTemplate. rewrite Ht, E.
    do 58 apply occurs_concat_skip. apply occurs_concat_here.
    exists ("             onclick=" +:+ dq +:+ "navigator.share?.(")%string,
           (" window.location.href}); return false;" +:+ dq +:+ ">" +:+ nl)%string.
    rewrite !append_assoc. reflexivity. }
  split; [exact E|]. split; [|split; [exact Htemplate|]].
  - unfold generateCardHTML. cbv zeta. rewrite Ht, E.
    do 4 apply occurs_concat_skip. apply occurs_concat_here.
    exists "       "%string, nl. rewrite !append_assoc. reflexivity.
  - unfold generateDetailHTML. cbv zeta. intros html.
    destruct (sanitizeHTML parseHTML formView _) as [e|c]; [discriminate|].
    intros [= <-]. apply Htemplate.
Qed.

(** X11 (the link of a card).  The address of a card is
    [article-detail.html?id=] followed by the encoded id, and the
    encoded id holds unreserved characters and [%] only: no quote, no
    [&], no [<], no space can come from the id. *)
Theorem card_link_holds_uri_characters_only (article : Article) :
  occurs ("href=" +:+ dq +:+ "article-detail.html?id="
            +:+ encodeURIComponent (toStr (id article)) +:+ dq)
    (generateCardHTML toLocaleDateString article) /\
  allChars uriChar (encodeURIComponent (toStr (id article))) = true /\
  (allChars uriUnreserved (toStr (id article)) = true ->
   encodeURIComponent (toStr (id article)) = toStr (id article)).
Proof.
  split; [|split].
  - unfold generateCardHTML. cbv zeta.
    do 2 apply occurs_concat_skip. apply occurs_concat_here.
    exists "       "%string, nl. rewrite !append_assoc. reflexivity.
  - apply uriChar_encodeURIComponent.
  - generalize (toStr (id article)). intros s.
    induction s as [|c s IH]; [reflexivity|].
    cbn [allChars encodeURIComponent]. intros H.
    apply andb_true_iff in H as [-> H]. simpl. now rewrite (IH H).
Qed.

End MoreRenderingProperties.

(** X12 (escaping loses nothing).  Two different texts have different
    escaped forms. *)
Theorem escapeHTML_injective (s t : string) :
  s <> t -> escapeHTML (Some s) <> escapeHTML (Some t).
Proof.
  intros Hne E. apply Hne. rewrite !escapeHTML_eq in E. cbn [nullish] in E.
  exact (escapeText_injective_upto (String.length s) s t (Nat.le_refl _) E).
Qed.

Lemma encodeURIComponent_inj (s t : string) :
  encodeURIComponent s = encodeURIComponent t -> s = t.
Proof.
  revert t. induction s as [|c s IH]; intros [|d t] E.
  - reflexivity.
  - exfalso. cbn [encodeURIComponent] in E.
    destruct (uriUnreserved d); discriminate E.
  - exfalso. cbn [encodeURIComponent] in E.
    destruct (uriUnreserved c); discriminate E.
  - cbn [encodeURIComponent] in E.
    destruct (uriUnreserved c) eqn:Ec; destruct (uriUnreserved d) eqn:Ed.
    + simpl in E. injection E as -> E. f_equal. now apply IH.
    + exfalso. simpl in E. injection E as -> _. discriminate Ec.
    + exfalso. simpl in E. injection E as <- _. discriminate Ed.
    + apply percentEncode_app in E as [E1 E]. f_equal; [|now apply IH].
      now apply percentEncode_injective.
Qed.

Lemma append_cancel_l (a x y : string) : a +:+ x = a +:+ y -> x = y.
Proof.
  induction a as [|c a IH]; [trivial|]. simpl. intros E. injection E as E. now apply IH.
Qed.

(** Two strings of URI characters that are each followed by a double
    quote, at the start of the same text, are the same. *)
Lemma uriChars_before_quote (x y r r' : string) :
  allChars uriChar x = true -> allChars uriChar y = true ->
  x +:+ dq +:+ r = y +:+ dq +:+ r' -> x = y.
Proof.
  revert y. induction x as [|c x IH]; intros [|d y] Hx Hy E.
  - reflexivity.
  - exfalso. simpl in E. injection E as <- _.
    cbn [allChars] in Hy. apply andb_true_iff in Hy as [Hy _]. discriminate Hy.
  - exfalso. simpl in E. injection E as -> _.
    cbn [allChars] in Hx. apply andb_true_iff in Hx as [Hx _]. discriminate Hx.
  - simpl in E. injection E as -> E.
    cbn [allChars] in Hx, Hy.
    apply andb_true_iff in Hx as [_ Hx]. apply andb_true_iff in Hy as [_ Hy].
    f_equal. now apply IH.
Qed.

Section CardLinkProperties.

Variable toLocaleDateString : string -> JsError + string.

(** X13 (the links tell the articles apart).  Two articles whose ids are
    written differently have different encoded ids, and so cards with
    different addresses: the cards differ. *)
Theorem cards_of_different_ids_differ (a b : Article) :
  toStr (id a) <> toStr (id b) ->
  encodeURIComponent (toStr (id a)) <> encodeURIComponent (toStr (id b)) /\
  generateCardHTML toLocaleDateString a <> generateCardHTML toLocaleDateString b.
Proof.
  intros Hne.
  assert (Henc : encodeURIComponent (toStr (id a)) <> encodeURIComponent (toStr (id b))).
  { intros E. apply Hne. now apply encodeURIComponent_inj. }
  split; [exact Henc|]. intros E. apply Henc.
  unfold generateCardHTML in E. cbv zeta in E. cbn [concatStr fold_right] in E.
  do 2 apply append_cancel_l in E.
  rewrite !append_assoc in E.
  do 3 apply append_cancel_l in E.
  apply uriChars_before_quote in E; [exact E | apply uriChar_encodeURIComponent..].
Qed.

End CardLinkProperties.

(** A title with double quotes stands as it is in the attribute. *)
Lemma plain_title_is_written_unchanged_witness :
  occurs ("data-title=" +:+ dq +:+ quotedTitle +:+ dq)
    (generateCardHTML sampleDate quotedArticle).
Proof.
  apply (plain_title_is_written_unchanged sampleDate sampleParser noShadow quotedArticle
           quotedTitle); reflexivity.
Defined.

(** The text of a reference and the reference itself are told apart. *)
Lemma escapeHTML_injective_witness :
  escapeHTML (Some "<") <> escapeHTML (Some "&lt;").
Proof. apply (escapeHTML_injective "<" "&lt;"). discriminate. Defined.

(** The two articles of the sample collection. *)
Lemma cards_of_different_ids_differ_witness :
  generateCardHTML sampleDate articleA1 <> generateCardHTML sampleDate articleA2.
Proof.
  apply (cards_of_different_ids_differ sampleDate articleA1 articleA2). discriminate.
Defined.

(** ** More on the cache and the loader *)

Lemma sameOutsideCache_refl (w : World) : sameOutsideCache w w.
Proof. repeat split. Qed.

Lemma sameOutsideCache_trans (w1 w2 w3 : World) :
  sameOutsideCache w1 w2 -> sameOutsideCache w2 w3 -> sameOutsideCache w1 w3.
Proof.
  intros (H1 & H2 & H3) (K1 & K2 & K3). split; [|split]; try congruence.
  intros k Hk. now rewrite K1, H1.
Qed.

Lemma sameOutsideCache_tick (w : World) : sameOutsideCache w (tick w).
Proof. repeat split. Qed.

Lemma sameOutsideCache_purge (w : World) : sameOutsideCache w (purge w).
Proof.
  split; [|split; reflexivity]. intros k Hk. unfold purge. cbn.
  now rewrite lookup_delete_ne.
Qed.

Lemma sameOutsideCache_store (w : World) (text : string) :
  sameOutsideCache w (store w text).
Proof.
  split; [|split; reflexivity]. intros k Hk. unfold store. cbn.
  now rewrite lookup_insert_ne.
Qed.

Lemma sameOutsideCache_fetch (w : World) :
  sameOutsideCache w (mkWorld (localStorage w) (ticks w) (S (fetched w))).
Proof. repeat split. Qed.

Section LoaderProperties.

Variable JSON_parse : string -> option json.
Variable JSON_stringify : json -> string.
Variable StringToNumber : string -> number.
Variable NumberToString : Z -> string.
Variable clock : nat -> Z.
Variable network : nat -> JsError + Response.

Local Abbreviation isFresh := (fresh StringToNumber NumberToString).
Local Abbreviation isExpired := (expired StringToNumber NumberToString).
Local Abbreviation isUnreadable := (unreadable StringToNumber NumberToString).
Local Abbreviation get := (getCachedData JSON_parse StringToNumber NumberToString clock).
Local Abbreviation set := (setCachedData JSON_stringify clock).
Local Abbreviation load :=
  (loadArticles JSON_parse JSON_stringify StringToNumber NumberToString clock network).

Lemma clearCache_cases (w : World) :
  clearCache w = (inr tt, if accessible (localStorage w) then purge w else w).
Proof.
  unfold clearCache, tryCatch, removeItem.
  now destruct (accessible (localStorage w)).
Qed.

Lemma getCachedData_frame (w : World) : sameOutsideCache w (snd (get w)).
Proof.
  rewrite getCachedData_cases.
  destruct (cacheEntry w) as [raw|]; [|apply sameOutsideCache_refl].
  destruct (JSON_parse raw) as [v|]; [|apply sameOutsideCache_refl].
  assert (H : sameOutsideCache w
    (snd (if isFresh v (clock (ticks w))
          then (inr (getProp v "data") : JsError + value, tick w)
          else if isExpired v (clock (ticks w))
          then (inr null, purge (tick w))
          else (inr null, tick w)))).
  { destruct (isFresh v (clock (ticks w))); cbn [snd];
      [apply sameOutsideCache_tick|].
    destruct (isExpired v (clock (ticks w))); cbn [snd];
      [|apply sameOutsideCache_tick].
    eapply sameOutsideCache_trans;
      [apply sameOutsideCache_tick | apply sameOutsideCache_purge]. }
  destruct v; first [exact H | apply sameOutsideCache_refl].
Qed.

Lemma setCachedData_frame (data : json) (w : World) :
  sameOutsideCache w (snd (set data w)).
Proof.
  rewrite setCachedData_cases. cbn [snd].
  destruct (accessible (localStorage w) && negb (full (localStorage w))).
  - eapply sameOutsideCache_trans;
      [apply sameOutsideCache_tick | apply sameOutsideCache_store].
  - apply sameOutsideCache_tick.
Qed.

Lemma loadArticles_frame (w : World) : sameOutsideCache w (snd (load w)).
Proof.
  rewrite loadArticles_cases.
  pose proof (getCachedData_frame w) as Hg.
  destruct (get w) as [[e|cached] w1]; cbn [snd] in *; [exact Hg|].
  destruct (truthy cached); [exact Hg|]. cbv zeta.
  pose proof (sameOutsideCache_trans _ _ _ Hg (sameOutsideCache_fetch w1)) as Hf.
  destruct (network (fetched w1)) as [e|r]; [exact Hf|].
  destruct (ok r); [|exact Hf].
  destruct (body r) as [e|data]; [exact Hf|].
  destruct (isArray data); [|exact Hf]. cbn [snd].
  eapply sameOutsideCache_trans; [exact Hf | apply setCachedData_frame].
Qed.

(** X1 (frame).  The four cache functions touch nothing of the storage
    but the entry under [CONFIG.cacheKey]: every other item, and the
    state of the storage, are after the call what they were before. *)
Theorem cache_functions_touch_only_their_entry (data : json) (w : World) :
  sameOutsideCache w (snd (get w)) /\
  sameOutsideCache w (snd (set data w)) /\
  sameOutsideCache w (snd (clearCache w)) /\
  sameOutsideCache w (snd (load w)).
Proof.
  split; [apply getCachedData_frame|].
  split; [apply setCachedData_frame|].
  split; [|apply loadArticles_frame].
  rewrite clearCache_cases. cbn [snd].
  destruct (accessible (localStorage w));
    [apply sameOutsideCache_purge | apply sameOutsideCache_refl].
Qed.

Lemma loadArticles_fetched (w : World) (cached : value) (w1 : World) :
  get w = (inr cached, w1) ->
  fetched (snd (load w)) = if truthy cached then fetched w else S (fetched w).
Proof.
  intros Hget. pose proof (getCachedData_fetched JSON_parse StringToNumber
    NumberToString clock w) as Hf.
  rewrite loadArticles_cases, Hget in *. cbn [snd] in Hf.
  destruct (truthy cached); [exact Hf|]. cbv zeta.
  destruct (network (fetched w1)) as [e|r]; [cbn; congruence|].
  destruct (ok r); [|cbn; congruence].
  destruct (body r) as [e|data]; [cbn; congruence|].
  destruct (isArray data); [|cbn; congruence].
  rewrite setCachedData_cases. cbn [snd].
  destruct (accessible _ && negb _); cbn; congruence.
Qed.

(** X2 (at most one retrieval).  A call of [loadArticles] issues no
    network retrieval when the cache read gives a truthy value and
    exactly one otherwise, whether the call then succeeds or fails. *)
Theorem loadArticles_issues_at_most_one_retrieval (w : World) :
  exists cached,
    fst (get w) = inr cached /\
    fetched (snd (load w)) = if truthy cached then fetched w else S (fetched w).
Proof.
  destruct (getCachedData_never_raises JSON_parse StringToNumber NumberToString clock w)
    as [cached [w1 Hget]].
  exists cached. split; [now rewrite Hget|]. now apply (loadArticles_fetched w cached w1).
Qed.

(** X3 (clearCache).  [clearCache] never raises and leaves no entry to
    read; the [loadArticles] after it issues exactly one network
    retrieval, whatever the cache held and whatever state the storage is
    in. *)
Theorem clearCache_forces_a_retrieval (w : World) :
  fst (clearCache w) = inr tt /\
  cacheEntry (snd (clearCache w)) = None /\
  get (snd (clearCache w)) = (inr null, snd (clearCache w)) /\
  fetched (snd (load (snd (clearCache w)))) = S (fetched w).
Proof.
  rewrite clearCache_cases. cbn [fst snd].
  assert (He : cacheEntry (if accessible (localStorage w) then purge w else w) = None).
  { destruct (accessible (localStorage w)) eqn:Ha; [apply cacheEntry_purge|].
    unfold cacheEntry. now rewrite Ha. }
  assert (Hg : get (if accessible (localStorage w) then purge w else w)
               = (inr null, if accessible (localStorage w) then purge w else w)).
  { now rewrite getCachedData_cases, He. }
  split; [reflexivity|]. split; [exact He|]. split; [exact Hg|].
  rewrite (loadArticles_fetched _ _ _ Hg). cbn [truthy null].
  now destruct (accessible (localStorage w)).
Qed.

(** X4 (no cache, no harm).  When the storage refuses the write (it is
    not usable, or full) and the cache gave nothing, a retrieval that
    succeeds is still returned; the storage is left as the cache read
    left it. *)
Theorem loadArticles_works_without_storage
    (w : World) (cached : value) (r : Response) (data : json) :
  accessible (localStorage w) = false \/ full (localStorage w) = true ->
  fst (get w) = inr cached ->
  truthy cached = false ->
  network (fetched w) = inr r ->
  ok r = true ->
  body r = inr data ->
  isArray data = true ->
  fst (load w) = inr (Some data) /\
  localStorage (snd (load w)) = localStorage (snd (get w)).
Proof.
  intros Hst Hc Ht Hnet Hok Hbody Harr.
  pose proof (getCachedData_fetched JSON_parse StringToNumber NumberToString clock w) as Hf.
  pose proof (getCachedData_frame w) as (_ & Ha & Hfull).
  rewrite loadArticles_cases.
  destruct (get w) as [[e|c] w1]; cbn [fst snd] in *; [discriminate Hc|].
  injection Hc as ->. rewrite Ht. cbv zeta. rewrite Hf, Hnet, Hok, Hbody, Harr.
  rewrite setCachedData_cases. cbn [fst snd localStorage].
  split; [reflexivity|].
  assert (E : accessible (localStorage w1) && negb (full (localStorage w1)) = false).
  { rewrite Ha, Hfull. destruct Hst as [-> | ->]; [reflexivity|].
    now rewrite andb_false_r. }
  now rewrite E.
Qed.

(** X5 (cached data is not validated).  What a valid cache entry holds
    as [data] is returned as it is when it is truthy, an array or not:
    only what comes from the network is tested with [Array.isArray]. *)
Theorem loadArticles_returns_cached_data_unvalidated
    (w : World) (raw : string) (v : json) :
  cacheEntry w = Some raw ->
  JSON_parse raw = Some v ->
  v <> JNull ->
  isFresh v (clock (ticks w)) = true ->
  truthy (getProp v "data") = true ->
  fst (load w) = inr (getProp v "data") /\
  fetched (snd (load w)) = fetched w.
Proof.
  intros He Hp Hv Hf Ht.
  assert (Hg : get w = (inr (getProp v "data"), tick w)).
  { rewrite getCachedData_cases, He, Hp, Hf. now destruct v. }
  rewrite loadArticles_cases, Hg, Ht. split; reflexivity.
Qed.

(** X6 (a retrieval replaces the entry).  Whatever made the cache read
    give nothing (no entry, an entry that does not parse, an expired
    one), a retrieval that succeeds on a storage that takes the write
    puts the new envelope under the cache key, stamped with the clock
    reading after the cache read; and once [JSON.parse] reads that
    envelope back, the next call inside the cache duration returns the
    collection without a retrieval. *)
Theorem loadArticles_replaces_the_entry
    (w : World) (cached : value) (r : Response) (data : json) :
  accessible (localStorage w) = true ->
  full (localStorage w) = false ->
  fst (get w) = inr cached ->
  truthy cached = false ->
  network (fetched w) = inr r ->
  ok r = true ->
  body r = inr data ->
  isArray data = true ->
  fst (load w) = inr (Some data) /\
  items (localStorage (snd (load w))) !! CONFIG.cacheKey
    = Some (JSON_stringify (envelope data (clock (ticks (snd (get w)))))) /\
  (nonEmpty (JSON_stringify (envelope data (clock (ticks (snd (get w)))))) = true ->
   JSON_parse (JSON_stringify (envelope data (clock (ticks (snd (get w))))))
     = Some (envelope data (clock (ticks (snd (get w))))) ->
   clock (ticks (snd (load w))) - clock (ticks (snd (get w))) < CONFIG.cacheDuration ->
   fst (load (snd (load w))) = inr (Some data) /\
   fetched (snd (load (snd (load w)))) = fetched (snd (load w))).
Proof.
  intros Hacc Hfull Hc Ht Hnet Hok Hbody Harr.
  pose proof (getCachedData_fetched JSON_parse StringToNumber NumberToString clock w) as Hf.
  pose proof (getCachedData_frame w) as (_ & Ha & Hfu).
  rewrite (loadArticles_cases _ _ _ _ _ _ w).
  destruct (get w) as [[e|c] w1]; cbn [fst snd] in *; [discriminate Hc|].
  injection Hc as ->. rewrite Ht. cbv zeta. rewrite Hf, Hnet, Hok, Hbody, Harr.
  rewrite setCachedData_cases. cbn [fst snd localStorage ticks].
  rewrite Ha, Hfu, Hacc, Hfull. cbn [andb negb].
  set (text := JSON_stringify (envelope data (clock (ticks w1)))).
  set (w2 := store _ text).
  split; [reflexivity|]. split.
  { unfold w2, store. cbn. apply lookup_insert_eq. }
  intros Hne Hparse Hlt.
  assert (He2 : cacheEntry w2 = Some text).
  { apply cacheEntry_store; [cbn; now rewrite Ha, Hacc | exact Hne]. }
  rewrite (loadArticles_cases _ _ _ _ _ _ w2),
    (getCachedData_envelope JSON_parse StringToNumber NumberToString clock
       w2 data (clock (ticks w1)) text He2 Hparse).
  change (ticks w2) with (S (ticks w1)) in *.
  apply Z.ltb_lt in Hlt. rewrite Hlt.
  assert (Htr : truthy (Some data) = true) by now destruct data.
  rewrite Htr. split; reflexivity.
Qed.

End LoaderProperties.

(** With a storage that cannot be used, the collection still arrives. *)
Lemma loadArticles_works_without_storage_witness :
  fst (loadArticles (sampleParse 0) sampleStringify noNumber decimal
         (sampleClock 0 1000) sampleNetwork lockedWorld)
  = inr (Some sampleCollection).
Proof.
  apply (loadArticles_works_without_storage (sampleParse 0) sampleStringify noNumber
           decimal (sampleClock 0 1000) sampleNetwork lockedWorld null
           (mkResponse 200 (inr sampleCollection)) sampleCollection);
    first [reflexivity | left; reflexivity].
Defined.

(** A fresh entry whose [data] is the string [oops] is what the loader
    returns. *)
Lemma loadArticles_returns_cached_data_unvalidated_witness :
  fst (loadArticles oddParse sampleStringify noNumber decimal
         (sampleClock 1000 1000) sampleNetwork
         (worldWithEntry (sampleStringify oddEnvelope)))
  = inr (Some (JStr "oops")).
Proof.
  apply (loadArticles_returns_cached_data_unvalidated oddParse sampleStringify noNumber
           decimal (sampleClock 1000 1000) sampleNetwork
           (worldWithEntry (sampleStringify oddEnvelope))
           (sampleStringify oddEnvelope) oddEnvelope);
    first [reflexivity | discriminate].
Defined.

(** An entry that does not parse is replaced by the envelope of the
    retrieved collection, and the next call is served from it. *)
Lemma loadArticles_replaces_the_entry_witness :
  let load := loadArticles (sampleParse 0) sampleStringify noNumber decimal
                (sampleClock 0 1000) sampleNetwork in
  let w := worldWithEntry "{oops" in
  items (localStorage (snd (load w))) !! CONFIG.cacheKey
    = Some (sampleStringify (envelope sampleCollection 0)) /\
  fst (load (snd (load w))) = inr (Some sampleCollection) /\
  fetched (snd (load (snd (load w)))) = fetched (snd (load w)).
Proof.
  intros load w.
  destruct (loadArticles_replaces_the_entry (sampleParse 0) sampleStringify noNumber
              decimal (sampleClock 0 1000) sampleNetwork w
              null (mkResponse 200 (inr sampleCollection)) sampleCollection)
    as (_ & Hentry & Hnext); try reflexivity.
  split; [exact Hentry|].
  apply Hnext; reflexivity.
Defined.

(** ** Debounce *)

Section DebounceProperties.

Context {A : Type}.
Variable wait : Z.

Lemma runDebounced_snoc (firstTimer : nat) (events : list (TimerEvent A))
    (e : TimerEvent A) :
  runDebounced wait firstTimer (events ++ [e])
  = stepDebounced wait (runDebounced wait firstTimer events) e.
Proof. unfold runDebounced. now rewrite fold_left_app. Qed.

Lemma invocations_snoc (events : list (TimerEvent A)) (e : TimerEvent A) :
  invocations (events ++ [e])
  = invocations events ++
    match e with Invoke now args => [(now, args)] | Elapse _ _ => [] end.
Proof. unfold invocations. rewrite flat_map_app. cbn [flat_map]. now rewrite app_nil_r. Qed.

Lemma pendingOf_more (calls more : list (Z * A)) (d : Debounced A) :
  pendingOf wait calls d -> pendingOf wait (calls ++ more) d.
Proof.
  intros [H | (id & t & x & H1 & H2 & H3)]; [now left|].
  right. exists id, t, x. repeat split; try assumption. apply in_or_app. now left.
Qed.

(** A call clears what is pending and leaves its own timer. *)
Lemma executedFunction_timers (calls : list (Z * A)) (now : Z) (args : A)
    (d : Debounced A) :
  pendingOf wait calls d ->
  timeout (executedFunction wait now args d) = Some (nextTimer d) /\
  timers (executedFunction wait now args d) = {[ nextTimer d := (now + wait, args) ]}.
Proof.
  intros H. unfold executedFunction. cbn [timeout timers]. split; [reflexivity|].
  destruct H as [H | (id & t & x & H1 & H2 & _)].
  - rewrite H. destruct (timeout d); cbn [clearTimeout];
      [rewrite delete_empty|]; apply insert_empty.
  - rewrite H1, H2. cbn [clearTimeout]. rewrite delete_singleton_eq. apply insert_empty.
Qed.

(** The timer the browser runs is the pending one; nothing is pending
    afterwards. *)
Lemma runTimer_pending (calls : list (Z * A)) (now : Z) (id : nat) (d d' : Debounced A)
    (x : A) :
  pendingOf wait calls d ->
  runTimer now id d = Some (x, d') ->
  timeout d = Some id /\ timers d' = ∅ /\ timeout d' = timeout d /\
  nextTimer d' = nextTimer d /\
  exists t, timers d = {[ id := (t + wait, x) ]} /\ In (t, x) calls /\ t + wait <= now.
Proof.
  intros H Hrun. unfold runTimer in Hrun.
  destruct H as [H | (id' & t & y & H1 & H2 & H3)].
  - rewrite H, lookup_empty in Hrun. discriminate Hrun.
  - rewrite H2 in Hrun.
    destruct (({[id' := (t + wait, y)]} : gmap nat (Z * A)) !! id) as [[due z]|] eqn:E;
      [|discriminate Hrun].
    apply lookup_singleton_Some in E as [-> E]. injection E as <- <-.
    destruct (t + wait <=? now) eqn:Hdue; [|discriminate Hrun].
    injection Hrun as <- <-. cbn [timers timeout nextTimer].
    rewrite H1. cbn [clearTimeout]. rewrite delete_singleton_eq, delete_empty.
    repeat split. exists t. split; [exact H2|]. split; [exact H3|]. now apply Z.leb_le.
Qed.

Lemma runDebounced_invariant (firstTimer : nat) (events : list (TimerEvent A)) :
  let s := runDebounced wait firstTimer events in
  pendingOf wait (invocations events) (fst s) /\
  (length (snd s) + (if decide (timers (fst s) = ∅) then 0 else 1)
   <= length (invocations events))%nat /\
  (forall now x, In (now, x) (snd s) ->
     exists t, In (t, x) (invocations events) /\ t + wait <= now).
Proof.
  induction events as [|e events IH] using rev_ind.
  - cbn. split; [now left|]. split; [|intros ? ? []].
    rewrite decide_True by reflexivity. lia.
  - cbv zeta in *. rewrite runDebounced_snoc, invocations_snoc.
    destruct (runDebounced wait firstTimer events) as [d calls].
    cbn [fst snd] in *. destruct IH as (Hp & Hlen & Hcalls).
    destruct e as [now args | now id]; cbn [stepDebounced fst snd].
    + destruct (executedFunction_timers _ now args d Hp) as [Ht Hm].
      split; [|split].
      * right. exists (nextTimer d), now, args. repeat split; try assumption.
        apply in_or_app. right. now left.
      * rewrite Hm, length_app. cbn [length].
        rewrite decide_False by apply insert_non_empty.
        destruct (decide (timers d = ∅)); lia.
      * intros t x Hin. destruct (Hcalls t x Hin) as (t0 & H1 & H2).
        exists t0. split; [apply in_or_app; now left | exact H2].
    + rewrite app_nil_r. destruct (runTimer now id d) as [[x d']|] eqn:Hrun.
      * destruct (runTimer_pending _ now id d d' x Hp Hrun)
          as (_ & He & _ & _ & t & Hm & Hin & Hdue).
        cbn [fst snd]. split; [now left|]. split.
        -- rewrite He, decide_True by reflexivity.
           rewrite Hm in Hlen. rewrite decide_False in Hlen by apply insert_non_empty.
           cbn [length]. lia.
        -- intros t' y [E | Hin']; [|now apply Hcalls].
           injection E as <- <-. now exists t.
      * cbn [fst snd]. now split.
Qed.

(** X14 (debounce, safety).  Whatever calls and timer runs come in
    whatever order: the wrapped function runs no more often than the
    debounced one was called, each run has the arguments of one of
    those calls and comes no earlier than [wait] after it, and at most
    one timer is pending at any time. *)
Theorem debounce_never_runs_early (firstTimer : nat) (events : list (TimerEvent A)) :
  (length (snd (runDebounced wait firstTimer events))
   <= length (invocations events))%nat /\
  (forall now x, In (now, x) (snd (runDebounced wait firstTimer events)) ->
     exists t, In (t, x) (invocations events) /\ t + wait <= now) /\
  (forall i j y z,
     timers (fst (runDebounced wait firstTimer events)) !! i = Some y ->
     timers (fst (runDebounced wait firstTimer events)) !! j = Some z -> i = j).
Proof.
  destruct (runDebounced_invariant firstTimer events) as (Hp & Hlen & Hcalls).
  split; [lia|]. split; [exact Hcalls|].
  intros i j y z Hi Hj.
  destruct Hp as [H | (id & t & x & _ & H & _)]; rewrite H in Hi, Hj.
  - rewrite lookup_empty in Hi. discriminate Hi.
  - apply lookup_singleton_Some in Hi as [<- _].
    apply lookup_singleton_Some in Hj as [<- _]. reflexivity.
Qed.

(** X15 (debounce, the last call wins).  After a call, whatever came
    before it, exactly one timer is pending; the browser runs it only
    from [wait] after that call on, the wrapped function then gets the
    arguments of that call, and nothing is pending afterwards: the calls
    before it are dropped. *)
Theorem debounce_keeps_the_last_call (firstTimer : nat) (events : list (TimerEvent A))
    (now : Z) (args : A) :
  (exists id,
     timers (fst (runDebounced wait firstTimer (events ++ [Invoke now args])))
     = {[ id := (now + wait, args) ]} /\
     forall now', now + wait <= now' ->
       exists d',
         runTimer now' id (fst (runDebounced wait firstTimer (events ++ [Invoke now args])))
         = Some (args, d')) /\
  (forall now' id x d',
     runTimer now' id (fst (runDebounced wait firstTimer (events ++ [Invoke now args])))
     = Some (x, d') ->
     x = args /\ now + wait <= now' /\ timers d' = ∅).
Proof.
  destruct (runDebounced_invariant firstTimer events) as (Hp & _ & _).
  rewrite runDebounced_snoc. cbv zeta in Hp.
  destruct (runDebounced wait firstTimer events) as [d calls].
  cbn [fst snd stepDebounced] in *.
  destruct (executedFunction_timers _ now args d Hp) as [Ht Hm].
  split.
  - exists (nextTimer d). split; [exact Hm|]. intros now' Hdue.
    unfold runTimer. rewrite Hm, lookup_singleton_eq.
    apply Z.leb_le in Hdue. rewrite Hdue. eauto.
  - intros now' id x d' Hrun. unfold runTimer in Hrun. rewrite Hm in Hrun.
    destruct (({[nextTimer d := (now + wait, args)]} : gmap nat (Z * A)) !! id)
      as [[due z]|] eqn:E; [|discriminate Hrun].
    apply lookup_singleton_Some in E as [<- E]. injection E as <- <-.
    destruct (now + wait <=? now') eqn:Hdue; [|discriminate Hrun].
    injection Hrun as <- <-. cbn [timers].
    rewrite delete_singleton_eq, delete_empty.
    repeat split. now apply Z.leb_le.
Qed.

End DebounceProperties.

(** ** The list page *)

Lemma tagSafe_showError (message : string) : tagSafe (showError message) = true.
Proof. unfold showError. tag_safe. Qed.

Lemma tagSafe_showEmptyState (message : ostring) :
  tagSafe (showEmptyState message) = true.
Proof. unfold showEmptyState. cbv zeta. tag_safe. Qed.

Lemma tagSafe_concatStr (l : list string) :
  Forall (fun s => tagSafe s = true) l -> tagSafe (concatStr l) = true.
Proof.
  induction 1 as [|s l Hs _ IH]; [reflexivity|]. now apply tagSafe_concat_cons.
Qed.

Lemma activateChip_again (i j : nat) (chips : list (string * bool)) :
  activateChip i (activateChip j chips) = activateChip i chips.
Proof.
  unfold activateChip. apply list_eq. intros k. rewrite !list_lookup_imap.
  now destruct (chips !! k).
Qed.

Lemma activateChip_lookup (i j : nat) (chips : list (string * bool)) :
  activateChip i chips !! j = (fun chip => (fst chip, (j =? i)%nat)) <$> chips !! j.
Proof. unfold activateChip. now rewrite list_lookup_imap. Qed.

Section ListPageProperties.

Variable toLocaleDateString : string -> JsError + string.
Variable toLowerCase : string -> string.
Variable trim : string -> string.

Local Abbreviation render := (applyAndRender toLocaleDateString toLowerCase trim).
Local Abbreviation search := (searchNow toLocaleDateString toLowerCase trim).
Local Abbreviation start := (initArticleList toLocaleDateString toLowerCase trim).
Local Abbreviation on := (handle toLocaleDateString toLowerCase trim).
Local Abbreviation run := (runPage toLocaleDateString toLowerCase trim).
Local Abbreviation follows := (viewFollowsFilter toLocaleDateString toLowerCase trim).
Local Abbreviation loaded := (loadedPage toLocaleDateString toLowerCase trim).
Local Abbreviation markup := (cardsMarkup toLocaleDateString).
Local Abbreviation filtered := (applyFilters toLowerCase trim).

Lemma runPage_snoc (p : ListPage) (events : list PageEvent) (e : PageEvent) :
  run p (events ++ [e]) = on (run p events) e.
Proof. unfold runPage. now rewrite fold_left_app. Qed.

Lemma tagSafe_cardsMarkup (l : list Article) : tagSafe (markup l) = true.
Proof.
  unfold cardsMarkup. destruct (length l =? 0)%nat.
  - apply tagSafe_showEmptyState.
  - apply tagSafe_concatStr, Forall_map, Forall_forall. intros a _.
    apply tagSafe_generateCardHTML.
Qed.

Lemma applyAndRender_loaded (input : option string) (chips : list (string * bool))
    (collection : list Article) (p : ListPage) :
  articles p = collection -> listening p = true ->
  chipsFollowFilter chips p ->
  (exists calls, pendingOf CONFIG.searchDebounce calls (debouncedSearch p)) ->
  (input <> None -> searchInput p <> None) ->
  loaded input chips collection (render p).
Proof.
  intros Ha Hl Hc Hp Hi. unfold loadedPage.
  split; [exact Ha|]. split; [exact Hl|]. split; [split; reflexivity|].
  split; [exact Hc|]. split; [exact Hp | exact Hi].
Qed.

Lemma searchNow_loaded (input : option string) (chips : list (string * bool))
    (collection : list Article) (p : ListPage) (d : Debounced unit) :
  loaded input chips collection p ->
  (exists calls, pendingOf CONFIG.searchDebounce calls d) ->
  loaded input chips collection
    (search (mkListPage (articles p) (activeTopicFilter p) (searchQuery p)
               (searchInput p) (topicChips p) (listening p) (cardsContainer p)
               (ariaLabel p) d)).
Proof.
  intros (Ha & Hl & _ & Hc & _ & Hi) Hp. unfold searchNow.
  apply applyAndRender_loaded; assumption.
Qed.

Lemma searchNow_loaded_same (input : option string) (chips : list (string * bool))
    (collection : list Article) (p : ListPage) :
  loaded input chips collection p -> loaded input chips collection (search p).
Proof.
  intros H. pose proof H as (_ & _ & _ & _ & Hp & _).
  exact (searchNow_loaded input chips collection p (debouncedSearch p) H Hp).
Qed.

Lemma handle_loaded (input : option string) (chips : list (string * bool))
    (collection : list Article) (p : ListPage) (e : PageEvent) :
  loaded input chips collection p -> loaded input chips collection (on p e).
Proof.
  intros H. pose proof H as (Ha & Hl & Hv & Hc & (calls & Hp) & Hi).
  destruct e as [i | now text | | key | now id]; cbn [handle].
  - rewrite Hl. destruct (topicChips p !! i) as [chip|] eqn:Ei; [|exact H].
    apply applyAndRender_loaded; try first [assumption | reflexivity];
      [|now exists calls].
    right. cbn [topicChips activeTopicFilter].
    destruct Hc as [[_ Hc] | (j & chip' & Hj & _ & Hc)].
    + exists i, chip. rewrite <- Hc. now repeat split.
    + rewrite Hc, activateChip_lookup in Ei.
      destruct (chips !! i) as [chip0|] eqn:E0; [|discriminate Ei].
      injection Ei as <-. exists i, chip0. cbn [fst].
      rewrite Hc, activateChip_again. now repeat split.
  - destruct (searchInput p) as [old|] eqn:Es; [|exact H].
    rewrite Hl. unfold loadedPage. cbn.
    split; [exact Ha|]. split; [reflexivity|]. split; [exact Hv|].
    split; [exact Hc|]. split; [|discriminate].
    exists [(now, tt)].
    destruct (executedFunction_timers CONFIG.searchDebounce calls now tt _ Hp)
      as [Ht Hm].
    right. exists (nextTimer (debouncedSearch p)), now, tt.
    split; [exact Ht|]. split; [exact Hm | now left].
  - rewrite Hl. now apply searchNow_loaded_same.
  - destruct (searchInput p) as [old|] eqn:Es; [|exact H].
    rewrite Hl. cbn [andb]. destruct (String.eqb key "Enter"); [|exact H].
    now apply searchNow_loaded_same.
  - destruct (runTimer now id (debouncedSearch p)) as [[x d]|] eqn:Hrun; [|exact H].
    destruct (runTimer_pending _ _ _ _ _ _ _ Hp Hrun) as (_ & He & _).
    apply searchNow_loaded; [exact H|]. exists calls. now left.
Qed.

(** The page from [initArticleList] on, when the collection was
    loaded. *)
Lemma page_invariant (input : option string) (chips : list (string * bool))
    (firstTimer : nat) (collection : list Article) (events : list PageEvent) :
  loaded input chips collection
    (run (start input chips firstTimer (inr collection)) events).
Proof.
  induction events as [|e events IH] using rev_ind.
  - cbn [runPage fold_left initArticleList].
    apply applyAndRender_loaded; cbn; try reflexivity.
    + left. now split.
    + exists []. now left.
    + intros H. exact H.
  - rewrite runPage_snoc. now apply handle_loaded.
Qed.

(** The page from [initArticleList] on, when the load failed. *)
Lemma failed_page_invariant (input : option string) (chips : list (string * bool))
    (firstTimer : nat) (error : JsError) (events : list PageEvent) :
  cardsContainer (run (start input chips firstTimer (inl error)) events)
    = showError (message error) /\
  listening (run (start input chips firstTimer (inl error)) events) = false /\
  topicChips (run (start input chips firstTimer (inl error)) events) = chips /\
  timers (debouncedSearch (run (start input chips firstTimer (inl error)) events)) = ∅.
Proof.
  induction events as [|e events IH] using rev_ind; [now cbn|].
  rewrite runPage_snoc. destruct IH as (Hc & Hl & Ht & Hd).
  set (p := run (start input chips firstTimer (inl error)) events) in *.
  destruct e as [i | now text | | key | now id]; cbn [handle]; rewrite ?Hl;
    try (now repeat split).
  - destruct (searchInput p); now repeat split.
  - destruct (searchInput p); now repeat split.
  - unfold runTimer. rewrite Hd, lookup_empty. now repeat split.
Qed.

(** X16 (the view is the filter).  Whatever the user does on a list page
    whose collection was loaded (chips, typing, the search button, the
    Enter key, the timer of the debounced search), the cards container
    holds the markup of the articles the filter gives for the topic and
    the query of the closure (the empty state when it gives none), the
    label counts them, and the collection is never changed. *)
Theorem list_view_follows_the_filter (input : option string)
    (chips : list (string * bool)) (firstTimer : nat) (collection : list Article)
    (events : list PageEvent) :
  articles (run (start input chips firstTimer (inr collection)) events) = collection /\
  follows (run (start input chips firstTimer (inr collection)) events).
Proof.
  destruct (page_invariant input chips firstTimer collection events) as (H1 & _ & H2 & _).
  split; [exact H1 | exact H2].
Qed.

(** X17 (the active chip is the filter).  On such a page either no chip
    was clicked yet, the chips are as they were and the topic filter is
    [all], or the topic filter is the topic of one chip of the page and
    that chip is the only one that is active. *)
Theorem active_chip_is_the_topic_filter (input : option string)
    (chips : list (string * bool)) (firstTimer : nat) (collection : list Article)
    (events : list PageEvent) :
  chipsFollowFilter chips (run (start input chips firstTimer (inr collection)) events) /\
  (forall i chip,
     topicChips (run (start input chips firstTimer (inr collection)) events) !! i
       = Some chip ->
     topicChips (run (start input chips firstTimer (inr collection)) events) <> chips ->
     snd chip = true ->
     activeTopicFilter (run (start input chips firstTimer (inr collection)) events)
       = fst chip).
Proof.
  destruct (page_invariant input chips firstTimer collection events)
    as (_ & _ & _ & H & _).
  split; [exact H|]. intros i chip Hi Hne Hact.
  destruct H as [[_ H] | (j & chip' & Hj & Hf & Hc)]; [contradiction|].
  rewrite Hc, activateChip_lookup in Hi.
  destruct (chips !! i) as [chip0|] eqn:E0; [|discriminate Hi].
  injection Hi as <-. cbn [fst snd] in *. apply Nat.eqb_eq in Hact. subst i.
  congruence.
Qed.

(** X18 (a failed load leaves a dead page).  When the load fails the
    container shows the error state with the message of the error, and
    nothing the user does afterwards changes it: no listener was
    attached. *)
Theorem failed_list_page_stays_in_error (input : option string)
    (chips : list (string * bool)) (firstTimer : nat) (error : JsError)
    (events : list PageEvent) :
  cardsContainer (run (start input chips firstTimer (inl error)) events)
    = showError (message error) /\
  topicChips (run (start input chips firstTimer (inl error)) events) = chips /\
  timers (debouncedSearch (run (start input chips firstTimer (inl error)) events)) = ∅.
Proof.
  destruct (failed_page_invariant input chips firstTimer error events)
    as (H1 & _ & H2 & H3).
  split; [exact H1|]. split; [exact H2 | exact H3].
Qed.

(** X19 (typing searches after the pause).  On a page with a search
    input whose collection was loaded, a keystroke changes neither the
    query nor the cards; it leaves exactly one timer, due
    [CONFIG.searchDebounce] later, whatever timers the keystrokes before
    it had set; and when the browser runs a timer of the page then, it
    is no earlier than that, the query becomes the text typed last and
    the cards are those the filter gives for it. *)
Theorem typing_searches_after_the_pause (text0 : string)
    (chips : list (string * bool)) (firstTimer : nat) (collection : list Article)
    (events : list PageEvent) (now : Z) (text : string) :
  let p0 := run (start (Some text0) chips firstTimer (inr collection)) events in
  let p := on p0 (Typed now text) in
  cardsContainer p = cardsContainer p0 /\
  searchQuery p = searchQuery p0 /\
  (exists id,
     timers (debouncedSearch p) = {[ id := (now + CONFIG.searchDebounce, tt) ]}) /\
  (forall now' id x d,
     runTimer now' id (debouncedSearch p) = Some (x, d) ->
     now + CONFIG.searchDebounce <= now' /\
     searchQuery (on p (TimerFired now' id)) = text /\
     cardsContainer (on p (TimerFired now' id))
       = markup (filtered collection (activeTopicFilter p0) text) /\
     timers (debouncedSearch (on p (TimerFired now' id))) = ∅).
Proof.
  intros p0 p.
  destruct (page_invariant (Some text0) chips firstTimer collection events)
    as (Ha & Hl & _ & _ & (calls & Hp) & Hi).
  fold p0 in Ha, Hl, Hp, Hi.
  destruct (searchInput p0) as [old|] eqn:Hold; [|now exfalso; apply Hi].
  destruct (executedFunction_timers CONFIG.searchDebounce calls now tt _ Hp) as [Ht Hm].
  assert (Ep : p = mkListPage (articles p0) (activeTopicFilter p0) (searchQuery p0)
                     (Some text) (topicChips p0) (listening p0) (cardsContainer p0)
                     (ariaLabel p0)
                     (executedFunction CONFIG.searchDebounce now tt (debouncedSearch p0))).
  { unfold p. cbn [handle]. now rewrite Hold, Hl. }
  rewrite Ep. cbn [cardsContainer searchQuery debouncedSearch].
  split; [reflexivity|]. split; [reflexivity|].
  split; [now exists (nextTimer (debouncedSearch p0))|].
  intros now' id x d Hrun. cbn [handle debouncedSearch]. rewrite Hrun.
  assert (Hq : pendingOf CONFIG.searchDebounce [(now, tt)]
                 (executedFunction CONFIG.searchDebounce now tt (debouncedSearch p0))).
  { right. exists (nextTimer (debouncedSearch p0)), now, tt.
    split; [exact Ht|]. split; [exact Hm | now left]. }
  destruct (runTimer_pending _ _ _ _ _ _ _ Hq Hrun)
    as (_ & He & _ & _ & t & _ & Hin & Hdue).
  destruct Hin as [Hin | []]. injection Hin as <-.
  split; [exact Hdue|].
  cbn [searchNow applyAndRender searchQuery cardsContainer debouncedSearch
       articles activeTopicFilter searchInput].
  rewrite orElse_string, Ha.
  split; [reflexivity|]. split; [reflexivity | exact He].
Qed.

(** X20 (no script tag in the list).  Whatever the load ended in and
    whatever the user does, the markup in the cards container holds no
    [<script]. *)
Theorem list_page_never_shows_a_script_tag (input : option string)
    (chips : list (string * bool)) (firstTimer : nat)
    (loaded : JsError + list Article) (events : list PageEvent) :
  includes (cardsContainer (run (start input chips firstTimer loaded) events)) "<script"
  = false.
Proof.
  apply includes_false, tagSafe_not_occurs.
  destruct loaded as [error | collection].
  - destruct (failed_page_invariant input chips firstTimer error events) as [-> _].
    apply tagSafe_showError.
  - destruct (page_invariant input chips firstTimer collection events)
      as (_ & _ & [-> _] & _).
    apply tagSafe_cardsMarkup.
Qed.

End ListPageProperties.

(** ** The first script and the detail page *)

Lemma filter_sublist_impl {A : Type} (f g : A -> bool) (l : list A) :
  (forall a, f a = true -> g a = true) ->
  sublist (List.filter f l) (List.filter g l).
Proof.
  intros H. induction l as [|x l IH]; [constructor|].
  cbn [List.filter]. destruct (f x) eqn:E.
  - rewrite (H x E). now constructor.
  - destruct (g x); [now constructor | exact IH].
Qed.

Lemma find_first {A : Type} (f : A -> bool) (pre post : list A) (a : A) :
  (forall b, In b pre -> f b = false) -> f a = true ->
  List.find f (pre ++ a :: post) = Some a.
Proof.
  intros Hpre Ha. induction pre as [|x pre IH]; cbn [app List.find].
  - now rewrite Ha.
  - rewrite (Hpre x (or_introl eq_refl)). apply IH.
    intros b Hb. apply Hpre. now right.
Qed.

Section FirstScriptProperties.

Variable toLocaleDateString : string -> JsError + string.
Variable parseHTML : string -> list node.
Variable formView : string -> list nat -> FormView.
Variable toLowerCase : string -> string.
Variable trim : string -> string.

(** X21 (the first script does not escape).  [cardHTML] and [detailHTML]
    of the first script write the title as it is: a title that holds
    [<script] puts it into their markup, while the card of
    [generateCardHTML] for the same article holds none. *)
Theorem first_script_writes_the_title_unescaped (a : Article) :
  occurs "<script" (toStr (title a)) ->
  includes (Simple.cardHTML toLocaleDateString a) "<script" = true /\
  includes (Simple.detailHTML toLocaleDateString a) "<script" = true /\
  includes (generateCardHTML toLocaleDateString a) "<script" = false.
Proof.
  intros H. split; [|split].
  - apply includes_spec. unfold Simple.cardHTML. cbv zeta.
    apply occurs_concat_skip, occurs_concat_here.
    repeat first [apply occurs_app_l; exact H | apply occurs_app_r].
  - apply includes_spec. unfold Simple.detailHTML. cbv zeta.
    do 4 apply occurs_concat_skip. apply occurs_concat_here.
    repeat first [apply occurs_app_l; exact H | apply occurs_app_r].
  - apply includes_false, tagSafe_not_occurs, tagSafe_generateCardHTML.
Qed.

(** X22 (the two filters).  For a query on which lower-casing and
    trimming commute, every article the filter of the first script
    shows is shown by [applyFilters] for the same topic and query, in
    the same order: the second also looks into the excerpt. *)
Theorem applyFilters_shows_what_the_first_script_shows
    (data : list Article) (activeTopic value : string) :
  toLowerCase (trim value) = trim (toLowerCase value) ->
  sublist (Simple.apply toLowerCase trim data activeTopic (Some value))
          (applyFilters toLowerCase trim data activeTopic value).
Proof.
  intros Hcomm. unfold Simple.apply, applyFilters, normalizeQuery. cbv zeta.
  rewrite orElse_string, Hcomm.
  apply filter_sublist_impl. intros a Ha.
  apply andb_true_iff in Ha as [Ht Hq].
  unfold matchesTopic, matchesSearch. rewrite Ht. cbn [andb].
  apply orb_true_iff in Hq as [Hq | Hq]; rewrite Hq; [reflexivity|].
  now rewrite orb_true_r.
Qed.

(** X23 (the requested article).  When an article of the collection has
    the requested id, the detail view renders the first such article:
    the page holds its detail markup whenever [generateDetailHTML]
    returns for it, and the error state with the message of the error
    when sanitizing its content throws. *)
Theorem detail_shows_the_requested_article (articleId : string)
    (pre post : list Article) (a : Article) :
  (forall b, In b pre -> strictEq (id b) (Some articleId) = false) ->
  id a = Some articleId ->
  initArticleDetail toLocaleDateString parseHTML formView true (Some articleId)
    (inr (pre ++ a :: post))
  = Some (match generateDetailHTML toLocaleDateString parseHTML formView a with
          | inr html => html
          | inl error => showError (message error)
          end) /\
  (existsb hasForm
     (parseHTML (orElse (content a) "<p>Konten tidak tersedia.</p>")) = false ->
   exists html,
     generateDetailHTML toLocaleDateString parseHTML formView a = inr html /\
     initArticleDetail toLocaleDateString parseHTML formView true (Some articleId)
       (inr (pre ++ a :: post)) = Some html).
Proof.
  intros Hpre Ha.
  assert (E : initArticleDetail toLocaleDateString parseHTML formView true
                (Some articleId) (inr (pre ++ a :: post))
              = Some (match generateDetailHTML toLocaleDateString parseHTML formView a with
                      | inr html => html
                      | inl error => showError (message error)
                      end)).
  { unfold initArticleDetail. cbn [negb].
    rewrite (find_first (fun x => strictEq (id x) (Some articleId)) pre post a Hpre).
    - destruct (pre ++ a :: post);
        now destruct (generateDetailHTML toLocaleDateString parseHTML formView a).
    - rewrite Ha. cbn [strictEq]. apply String.eqb_refl. }
  split; [exact E|]. intros Hform.
  destruct (generateDetailHTML_returns toLocaleDateString parseHTML formView a
              (or_introl Hform)) as [html Hhtml].
  exists html. split; [exact Hhtml|]. now rewrite E, Hhtml.
Qed.

(** X24 (where a script tag of the detail page comes from).  Whatever
    the load ended in and whatever id was requested, when the markup of
    the detail page holds [<script], the page shows an article of the
    collection and the sanitized content of that article holds it: the
    error state and the escaped fields never do. *)
Theorem detail_page_script_comes_from_the_content (articleId : ostring)
    (loaded : JsError + list Article) (html : string) :
  initArticleDetail toLocaleDateString parseHTML formView true articleId loaded
    = Some html ->
  includes html "<script" = true ->
  exists collection a sanitizedContent,
    loaded = inr collection /\ In a collection /\
    generateDetailHTML toLocaleDateString parseHTML formView a = inr html /\
    sanitizeHTML parseHTML formView
      (orElse (content a) "<p>Konten tidak tersedia.</p>") = inr sanitizedContent /\
    includes sanitizedContent "<script" = true.
Proof.
  intros Hpage Hs.
  assert (Herr : forall m, html = showError m -> False).
  { intros m ->. apply includes_spec in Hs.
    apply (tagSafe_not_occurs (showError m)); [|exact Hs].
    unfold showError. tag_safe. }
  assert (Hshown : forall a,
    Some (match generateDetailHTML toLocaleDateString parseHTML formView a with
          | inr h => h
          | inl error => showError (message error)
          end) = Some html ->
    exists sanitizedContent,
      generateDetailHTML toLocaleDateString parseHTML formView a = inr html /\
      sanitizeHTML parseHTML formView
        (orElse (content a) "<p>Konten tidak tersedia.</p>") = inr sanitizedContent /\
      includes sanitizedContent "<script" = true).
  { intros a. unfold generateDetailHTML. cbv zeta.
    destruct (sanitizeHTML parseHTML formView _) as [e|c].
    - intros [= H]. exfalso. exact (Herr _ (eq_sym H)).
    - intros [= H]. exists c. subst html.
      rewrite includes_detailTemplate in Hs. now repeat split. }
  unfold initArticleDetail in Hpage. cbn [negb] in Hpage.
  destruct loaded as [error | collection].
  - exfalso. injection Hpage as Hpage. exact (Herr _ (eq_sym Hpage)).
  - exists collection.
    destruct (List.find (fun a => strictEq (id a) articleId) collection) as [a|] eqn:Ef.
    + apply List.find_some in Ef as [Hin _].
      assert (E : Some (match generateDetailHTML toLocaleDateString parseHTML formView a
                        with
                        | inr h => h
                        | inl error => showError (message error)
                        end) = Some html).
      { destruct collection;
          now destruct (generateDetailHTML toLocaleDateString parseHTML formView a). }
      destruct (Hshown a E) as (c & H1 & H2 & H3).
      exists a, c. now repeat split.
    + destruct collection as [|first rest].
      * exfalso. injection Hpage as Hpage. exact (Herr _ (eq_sym Hpage)).
      * assert (E : Some (match generateDetailHTML toLocaleDateString parseHTML formView
                                  first with
                          | inr h => h
                          | inl error => showError (message error)
                          end) = Some html).
        { now destruct (generateDetailHTML toLocaleDateString parseHTML formView first). }
        destruct (Hshown first E) as (c & H1 & H2 & H3).
        exists first, c. repeat split; try assumption. now left.
Qed.

End FirstScriptProperties.

(** The scripted title reaches the markup of the first script. *)
Lemma first_script_writes_the_title_unescaped_witness :
  includes (Simple.cardHTML sampleDate scriptedArticle) "<script" = true /\
  includes (Simple.detailHTML sampleDate scriptedArticle) "<script" = true /\
  includes (generateCardHTML sampleDate scriptedArticle) "<script" = false.
Proof.
  apply (first_script_writes_the_title_unescaped sampleDate scriptedArticle).
  apply includes_spec. reflexivity.
Defined.

(** The query [Fisika] with spaces around: the first script finds the
    title, [applyFilters] the title and the excerpt. *)
Lemma applyFilters_shows_what_the_first_script_shows_witness :
  sublist [articleA2] [articleA2; articleA3].
Proof.
  exact (applyFilters_shows_what_the_first_script_shows sampleLower sampleTrim
           [articleA1; articleA2; articleA3] "all" " Fisika " eq_refl).
Defined.

(** The id [a2] is the second article of the collection. *)
Lemma detail_shows_the_requested_article_witness :
  exists html,
    generateDetailHTML sampleDate sampleParser noShadow articleA2 = inr html /\
    initArticleDetail sampleDate sampleParser noShadow true (Some "a2")
      (inr [articleA1; articleA2]) = Some html.
Proof.
  apply (detail_shows_the_requested_article sampleDate sampleParser noShadow "a2"
           [articleA1] [] articleA2); [|reflexivity..].
  intros b [<- | []]. reflexivity.
Defined.

(** The detail page of the article whose content is a template with a
    script element. *)
Lemma detail_page_script_comes_from_the_content_witness :
  exists collection a sanitizedContent,
    (inr [templateArticle] : JsError + list Article) = inr collection /\
    In a collection /\
    generateDetailHTML sampleDate sampleParser noShadow a
      = inr (detailTemplate sampleDate templateArticle (detailCoverHTML templateArticle)
               (calculateReadingTime (content templateArticle))
               "<template><script>alert(1)</script></template>") /\
    sanitizeHTML sampleParser noShadow
      (orElse (content a) "<p>Konten tidak tersedia.</p>") = inr sanitizedContent /\
    includes sanitizedContent "<script" = true.
Proof.
  apply (detail_page_script_comes_from_the_content sampleDate sampleParser noShadow
           (Some "t1") (inr [templateArticle])); reflexivity.
Defined.
